(** * covid19-mortality-rate: data assembly and covariate normalisation

    A shallow embedding of [src/data/make_dataset.py] and
    [src/features/build_features.py], and the properties of the assembled
    dataset that are stated about them.

    Conventions of the embedding.

    - A pandas [DataFrame] of the assembly pipeline is kept row by row: the
      column labels, and for each row its index label (the country key) with
      the list of its cells, in column order.  A [Series] is a list of
      (index label, value) pairs.
    - The two places where the 64-bit arithmetic of numpy bears on what is
      stated carry it in full: the grouped sum of [_rollup_by_country] adds
      an int64 column with wrap-around and a float64 column with a rounding
      after each addition, and [BuildFeatures64] is [_normalize_col] over
      int64 and float64 columns, with wrap-around, rounding to nearest even
      and overflow to an infinity ([Numpy] below).
    - Everywhere else numbers are exact rationals ([Q]), without rounding or
      overflow: in the assembled dataset, and in [BuildFeatures], which is
      [build_features.py] read in exact arithmetic.  A missing entry (NaN,
      None) is a value of its own, never a number.
    - A calendar date is its day number ([Z]); the columns of a rolled-up
      time series are parsed from [%m/%d/%y], so they carry no time of day and
      [(a - b).days] is the difference of the day numbers.
    - Functions that mutate a frame in place return the new frame.
    - A Python exception is an explicit [Raise] result. *)

From Stdlib Require Import String Ascii Bool Arith ZArith QArith Qround Lia Lqa List.
From Stdlib Require Import Sorted Permutation OrderedTypeEx.
Import ListNotations.

Open Scope string_scope.
Open Scope list_scope.

(** ** Results of Python calls *)

Inductive exn : Type :=
| KeyError
| ValueError.

Inductive result (A : Type) : Type :=
| Ok (a : A)
| Raise (e : exn).

Arguments Ok {A} a.
Arguments Raise {A} e.

Definition bind {A B : Type} (c : result A) (k : A -> result B) : result B :=
  match c with
  | Ok a => k a
  | Raise e => Raise e
  end.

Notation "x <- c ;; k" := (bind c (fun x => k))
  (at level 61, c at next level, right associativity).

(** [traverse f l] runs [f] on every element, left to right, and stops at
    the first exception: a list comprehension whose body may raise. *)
Fixpoint traverse {A B : Type} (f : A -> result B) (l : list A) : result (list B) :=
  match l with
  | [] => Ok []
  | a :: l' => b <- f a ;; bs <- traverse f l' ;; Ok (b :: bs)
  end.

(** ** The 64-bit numbers of numpy *)

Module Numpy.

Local Open Scope Z_scope.

(** The two types that [pd.read_csv] gives a column of numbers: int64 when
    every field is a whole number, float64 otherwise (a blank field is the
    float NaN). *)
Inductive dtype : Type :=
| int64
| float64.

(** *** int64

    An int64 is a [Z] between -2^63 and 2^63 - 1; the sum or difference of
    two of them wraps around. *)
Definition wrap64 (z : Z) : Z := (z + 2 ^ 63) mod 2 ^ 64 - 2 ^ 63.

(** *** float64

    Every finite float64 is a whole number of units of 2^-1074, the smallest
    subnormal: a finite float64 is kept as that whole number, so that 1.0 is
    2^1074 units.  An operation computes its exact result, a ratio [n / d]
    of units, and rounds it to the nearest float64, a tie going to the even
    significand (IEEE 754, the rounding numpy runs with). *)

(** The whole number nearest to [n / d], for [0 < d]; a tie goes to the even
    one. *)
Definition rne (n d : Z) : Z :=
  let q := n / d in
  match 2 * (n mod d) ?= d with
  | Lt => q
  | Gt => q + 1
  | Eq => if Z.even q then q else q + 1
  end.

(** The floats between 2^L and 2^(L+1) units stand 2^(L-52) units apart (53
    significant bits), and one unit apart below 2^53 units. *)
Definition ulp_exponent (n d : Z) : Z := Z.max 0 (Z.log2 (n / d) - 52).

(** The magnitude [n / d] (with [0 <= n]), rounded to the spacing of the
    floats around it. *)
Definition round_magnitude (n d : Z) : Z :=
  let s := 2 ^ ulp_exponent n d in rne n (d * s) * s.

Definition round_units (n d : Z) : Z := Z.sgn n * round_magnitude (Z.abs n) d.

(** A float64: a finite number (in units of 2^-1074), an infinity with its
    sign, or NaN, which is also how a missing entry is stored.  Zero is
    unsigned, so a division of a non-zero number by zero takes the sign of
    the dividend. *)
Inductive float : Type :=
| Fin (k : Z)
| Inf (negative : bool)
| NaN.

(** 1.0, in units. *)
Definition one : Z := 2 ^ 1074.

(** The first magnitude that is no finite float any more: 2^1024, in
    units. *)
Definition overflow : Z := 2 ^ 2098.

Definition to_float (k : Z) : float :=
  if overflow <=? Z.abs k then Inf (k <? 0) else Fin k.

(** The float64 nearest to [n / d] units. *)
Definition round (n d : Z) : float := to_float (round_units n d).

Definition fsub (a b : float) : float :=
  match a, b with
  | NaN, _ | _, NaN => NaN
  | Fin x, Fin y => round (x - y) 1
  | Fin _, Inf s => Inf (negb s)
  | Inf s, Fin _ => Inf s
  | Inf s, Inf t => if Bool.eqb s t then NaN else Inf s
  end.

Definition fdiv (a b : float) : float :=
  match a, b with
  | NaN, _ | _, NaN => NaN
  | Fin x, Fin y =>
      if y =? 0
      then (if x =? 0 then NaN else Inf (x <? 0))
      else round (x * one * Z.sgn y) (Z.abs y)
  | Fin _, Inf _ => Fin 0
  | Inf s, Fin y => Inf (xorb s (y <? 0))
  | Inf _, Inf _ => NaN
  end.

(** [a <= b] of floats: false as soon as one side is NaN. *)
Definition fle (a b : float) : bool :=
  match a, b with
  | NaN, _ | _, NaN => false
  | Inf true, _ => true
  | _, Inf false => true
  | Fin x, Fin y => x <=? y
  | _, _ => false
  end.

Definition flt (a b : float) : bool := fle a b && negb (fle b a).

Definition isfinite (a : float) : bool :=
  match a with
  | Fin _ => true
  | _ => false
  end.

(** [astype(float64)] of an int64: the nearest float64, the number itself up
    to 2^53. *)
Definition of_int64 (z : Z) : float := round (z * one) 1.

(** The float64 nearest to a rational, as a rational again.  (A magnitude
    beyond the largest float64, about 1.8e308, is an infinity in the
    program; it is rounded here as if the exponent had no bound, the cells
    of the tables that use this being finite.) *)
Definition round64 (q : Q) : Q :=
  Qred (Qmake (round_units (Qnum q * one) (Zpos (Qden q))) (2 ^ 1074)%positive).

End Numpy.

(** ** make_dataset.py *)

Module MakeDataset.

Import Numpy.

(** *** Frames and series *)

Record DataFrame (L V : Type) : Type := mkDataFrame {
  columns : list L;
  rows : list (string * list V)
}.

Arguments mkDataFrame {L V} columns rows.
Arguments columns {L V} d.
Arguments rows {L V} d.

Definition Series (V : Type) : Type := list (string * V).

Definition index {L V : Type} (df : DataFrame L V) : list string :=
  map fst (rows df).

(** [df.apply(f, axis=1)] for an [f] that returns a scalar. *)
Definition apply_rows {L V W : Type} (f : list V -> W) (df : DataFrame L V) : Series W :=
  map (fun r => (fst r, f (snd r))) (rows df).

(** [df[df.columns[n::]]], for a frame whose column labels are distinct (the
    labels read from a csv header are). *)
Definition columns_from {L V : Type} (n : nat) (df : DataFrame L V) : DataFrame L V :=
  mkDataFrame (skipn n (columns df))
              (map (fun r => (fst r, skipn n (snd r))) (rows df)).

(** A cell of a covariate panel or of the assembled dataset: the missing
    value, a finite number, an infinity (what a float division of a non-zero
    number by zero gives), or text. *)
Inductive cell : Type :=
| NaN
| Num (q : Q)
| Inf (negative : bool)
| Str (s : string).

Definition notnull (c : cell) : bool :=
  match c with
  | NaN => false
  | _ => true
  end.

Definition isnull (c : cell) : bool := negb (notnull c).

(** *** Module constants *)

Definition ignore_countries : list string :=
  [ "Others"; "Cruise Ship" ].

Definition cpi_country_mapping : list (string * string) :=
  [ ("United States of America", "US");
    ("China", "Mainland China") ].

Definition wb_country_mapping : list (string * string) :=
  [ ("United States", "US");
    ("Egypt, Arab Rep.", "Egypt");
    ("Hong Kong SAR, China", "Hong Kong");
    ("Iran, Islamic Rep.", "Iran");
    ("China", "Mainland China");
    ("Russian Federation", "Russia");
    ("Slovak Republic", "Slovakia");
    ("Korea, Rep.", "Korea, South") ].

Definition wb_covariates : list (string * string) :=
  [ ("SH.XPD.OOPC.CH.ZS", "healthcare_oop_expenditure");
    ("SH.MED.BEDS.ZS", "hospital_beds");
    ("HD.HCI.OVRL", "hci");
    ("SP.POP.65UP.TO.ZS", "population_perc_over65");
    ("SP.RUR.TOTL.ZS", "population_perc_rural") ].

(** *** _get_most_recent_value *)

(** The inner [_helper(row)]: [row[row.notnull()]], then its last entry
    ([row_nn[-1]]) when it has one and [np.nan] otherwise. *)
Definition _helper (row : list cell) : cell :=
  let row_nn := filter notnull row in
  match length row_nn with
  | O => NaN
  | S _ => last row_nn NaN
  end.

Definition _get_most_recent_value (wb_series : DataFrame string cell) : Series cell :=
  let ts_data := columns_from 3 wb_series in
  apply_rows _helper ts_data.

(** *** _rollup_by_country *)

(** A raw CSSE time series, as [pd.read_csv] gives it: the two text columns
    [Province/State] and [Country/Region], then the columns read as numbers
    ([Lat], [Long] when the file has them, and one column per observation
    date), each with its dtype.  A record holds the cells of those columns,
    [None] for a blank field, which only a float64 column can have; the
    cells of an int64 column are int64 numbers, those of a float64 column
    float64 numbers.  A record whose country field is blank has key
    [None]. *)
Record csse_record : Type := mk_csse_record {
  Province_State : option string;
  Country_Region : option string;
  numeric : list (option Q)
}.

Record csse_frame : Type := mk_csse_frame {
  typed_columns : list (string * dtype);
  records : list csse_record
}.

(** [read_csv] types a column all of whose fields are blank float64: when
    the table has records and none of them has a province,
    [Province/State] is a column of NaN, and one of the numeric columns of
    the frame, before the others. *)
Definition province_is_blank (df : csse_frame) : bool :=
  match records df with
  | [] => false
  | _ :: _ =>
      forallb (fun r => match Province_State r with
                        | None => true
                        | Some _ => false
                        end)
              (records df)
  end.

Definition numeric_columns (df : csse_frame) : list string :=
  if province_is_blank df
  then "Province/State" :: map fst (typed_columns df)
  else map fst (typed_columns df).

Definition numeric_dtypes (df : csse_frame) : list dtype :=
  if province_is_blank df
  then float64 :: map snd (typed_columns df)
  else map snd (typed_columns df).

Definition numeric_cells (df : csse_frame) (r : csse_record) : list (option Q) :=
  if province_is_blank df then None :: numeric r else numeric r.

(** [out[j] += val], which the grouped sum runs for every cell that is not
    NaN: in int64 with wrap-around, in float64 with the sum rounded. *)
Definition add_cell (t : dtype) (out : Q) (val : option Q) : Q :=
  match val with
  | None => out
  | Some x =>
      match t with
      | int64 => inject_Z (wrap64 (Qfloor (out + x)))
      | float64 => round64 (out + x)
      end
  end.

(** One record added to the sums of its group, column by column. *)
Fixpoint skipna_add (dtypes : list dtype) (out : list Q) (values : list (option Q))
  : list Q :=
  match dtypes, out, values with
  | t :: dtypes', o :: out', v :: values' =>
      add_cell t o v :: skipna_add dtypes' out' values'
  | _, _, _ => []
  end.

(** The record is added to the group of its key; the first record of a key
    opens the group, from zeros. *)
Fixpoint group_add (dtypes : list dtype) (k : string) (values : list (option Q))
         (groups : list (string * list Q)) : list (string * list Q) :=
  match groups with
  | [] => [ (k, skipna_add dtypes (repeat 0 (length values)) values) ]
  | g :: groups' =>
      if k =? fst g
      then (fst g, skipna_add dtypes (snd g) values) :: groups'
      else g :: group_add dtypes k values groups'
  end.

Fixpoint insert_by_label {V : Type} (r : string * V) (l : list (string * V))
  : list (string * V) :=
  match l with
  | [] => [ r ]
  | r' :: l' =>
      if (fst r <=? fst r')%string then r :: l else r' :: insert_by_label r l'
  end.

(** Group keys come out sorted ([groupby] has [sort=True]); python compares
    strings by code point, which is the byte order of their UTF-8 form. *)
Definition sort_index {V : Type} (l : list (string * V)) : list (string * V) :=
  fold_right insert_by_label [] l.

(** [df.groupby('Country/Region').sum()]: the numeric columns are summed
    and the text columns are left out (the key becomes the index), records
    without a key are left out of every group, and a missing cell adds
    nothing, so that a group without a number in a column has 0 there.
    (A table without a numeric column, or without a record, is not what
    this describes: pandas has a path of its own for them.) *)
Definition group_record (dtypes : list dtype) (cells : csse_record -> list (option Q))
           (groups : list (string * list Q)) (r : csse_record)
  : list (string * list Q) :=
  match Country_Region r with
  | Some k => group_add dtypes k (cells r) groups
  | None => groups
  end.

Definition groupby_sum (df : csse_frame) : DataFrame string Q :=
  mkDataFrame (numeric_columns df)
    (sort_index
       (fold_left (group_record (numeric_dtypes df) (numeric_cells df))
                  (records df) [])).

(** [df.drop(labels, axis=1, errors='ignore')]. *)
Definition drop_columns {V : Type} (labels : list string) (df : DataFrame string V)
  : DataFrame string V :=
  let keep := fun c : string => negb (existsb (String.eqb c) labels) in
  mkDataFrame
    (filter keep (columns df))
    (map (fun r => (fst r,
                    map snd (filter (fun cv => keep (fst cv))
                                    (combine (columns df) (snd r)))))
         (rows df)).

Section Dates.

(** [datetime.strptime(x, '%m/%d/%y')], of the python library: the day
    number of the date, or [None] where it raises [ValueError]. *)
Variable strptime : string -> option Z.

Definition parse_date (x : string) : result Z :=
  match strptime x with
  | Some d => Ok d
  | None => Raise ValueError
  end.

Definition _convert_cols_to_dt {V : Type} (df : DataFrame string V)
  : result (DataFrame Z V) :=
  idx_as_dt <- traverse parse_date (columns df) ;;
  Ok (mkDataFrame idx_as_dt (rows df)).

Definition _rollup_by_country (df : csse_frame) : result (DataFrame Z Q) :=
  let gb_sum := groupby_sum df in
  let df_rollup := drop_columns [ "Lat"; "Long" ] gb_sum in
  _convert_cols_to_dt df_rollup.

End Dates.

(** *** _clean_country_list *)

Fixpoint dict_get (m : list (string * string)) (k : string) : option string :=
  match m with
  | [] => None
  | kv :: m' => if k =? fst kv then Some (snd kv) else dict_get m' k
  end.

(** [df.rename(mapper, axis=0)]: a label that is a key of the mapper is
    replaced, any other label is kept. *)
Definition rename_label (mapper : list (string * string)) (k : string) : string :=
  match dict_get mapper k with
  | Some k' => k'
  | None => k
  end.

Definition rename_index {L V : Type} (mapper : list (string * string))
           (df : DataFrame L V) : DataFrame L V :=
  mkDataFrame (columns df)
              (map (fun r => (rename_label mapper (fst r), snd r)) (rows df)).

(** [df.drop(labels, axis=0)]: every row that carries one of the labels
    goes.  With [errors='ignore'] a label that is on no row is skipped; the
    other call of the program takes its labels from the index itself. *)
Definition drop_index {L V : Type} (labels : list string) (df : DataFrame L V)
  : DataFrame L V :=
  mkDataFrame (columns df)
              (filter (fun r => negb (existsb (String.eqb (fst r)) labels)) (rows df)).

Definition country_rename : list (string * string) :=
  [ ("Hong Kong SAR", "Hong Kong");
    ("Taiwan*", "Taiwan");
    ("Czechia", "Czech Republic");
    ("Brunei", "Brunei Darussalam");
    ("Iran (Islamic Republic of)", "Iran");
    ("Viet Nam", "Vietnam");
    ("Russian Federation", "Russia");
    ("Republic of Korea", "South Korea");
    ("Republic of Moldova", "Moldova");
    ("China", "Mainland China") ].

Definition _clean_country_list {L V : Type} (df : DataFrame L V) : DataFrame L V :=
  let df := rename_index country_rename df in
  drop_index ignore_countries df.

(** *** _compute_days_since_nth_case *)

(** [df_cases[df_cases >= n]]: a cell below [n] becomes missing. *)
Definition where_ge (n : Q) (df : DataFrame Z Q) : DataFrame Z (option Q) :=
  mkDataFrame (columns df)
    (map (fun r => (fst r, map (fun v => if Qle_bool n v then Some v else None) (snd r)))
         (rows df)).

Definition Qlt_bool (a b : Q) : bool := negb (Qle_bool b a).

(** [idxmin] of one row: the label of the first cell that holds the least
    non-missing value, and the missing label when every cell is missing.
    [best] is the label and value kept so far. *)
Fixpoint idxmin_scan (best : option (Z * Q)) (cells : list (Z * option Q)) : option Z :=
  match cells with
  | [] => option_map fst best
  | (_, None) :: cells' => idxmin_scan best cells'
  | (d, Some v) :: cells' =>
      match best with
      | None => idxmin_scan (Some (d, v)) cells'
      | Some (_, b) =>
          if Qlt_bool v b then idxmin_scan (Some (d, v)) cells'
          else idxmin_scan best cells'
      end
  end.

(** [df.idxmin(axis=1)]; the reduction raises on a frame without columns. *)
Definition idxmin_rows (df : DataFrame Z (option Q)) : result (Series (option Z)) :=
  match columns df with
  | [] => Raise ValueError
  | _ => Ok (apply_rows (fun row => idxmin_scan None (combine (columns df) row)) df)
  end.

(** [index.max()] of a list of dates, [None] for the empty one. *)
Definition index_max (dates : list Z) : option Z :=
  match dates with
  | [] => None
  | d :: ds => Some (fold_left Z.max ds d)
  end.

Definition fillna (z : Z) (s : Series (option Z)) : Series (option Z) :=
  map (fun kv => (fst kv, match snd kv with Some v => Some v | None => Some z end)) s.

Definition _compute_days_since_nth_case (df_cases : DataFrame Z Q) (n : Q)
  : result (Series (option Z)) :=
  date_first_case <- idxmin_rows (where_ge n df_cases) ;;
  match index_max (columns df_cases) with
  | None => Raise ValueError
  | Some columns_max =>
      let days_since_first_case : Series (option Z) :=
        map (fun kx => (fst kx,
                        match snd kx with
                        | None => Some 0%Z
                        | Some x => Some (columns_max - x)%Z
                        end))
            date_first_case in
      let days_since_first_case :=
        if existsb (String.eqb "Mainland China") (map fst days_since_first_case)
        then map (fun kv => if fst kv =? "Mainland China"
                            then (fst kv, option_map (fun v => (v + 30)%Z) (snd kv))
                            else kv)
                 days_since_first_case
        else days_since_first_case in
      Ok (fillna 0%Z days_since_first_case)
  end.

(** *** make_dataset *)

Fixpoint position (c : Z) (cols : list Z) : option nat :=
  match cols with
  | [] => None
  | c' :: cols' => if (c =? c')%Z then Some O else option_map S (position c cols')
  end.

(** [df[label]] on a frame with date columns: the column as a series, or
    [KeyError] when no column has the label.  (A cell is read by position; a
    frame has a cell in every column of every row.) *)
Definition getitem {V : Type} (dflt : V) (df : DataFrame Z V) (label : Z)
  : result (Series V) :=
  match position label (columns df) with
  | None => Raise KeyError
  | Some p => Ok (map (fun r => (fst r, nth p (snd r) dflt)) (rows df))
  end.

(** Lines 68 to 72: the date called today, and the two columns of counts the
    output frame is built from.  On a frame without columns [columns.max()]
    is the missing value, which is the label of no column. *)
Definition todays_date (covid_cases_rollup : DataFrame Z Q) : option Z :=
  index_max (columns covid_cases_rollup).

Definition todays_counts (covid_cases_rollup covid_deaths_rollup : DataFrame Z Q)
  : result (Z * Series Q * Series Q) :=
  match todays_date covid_cases_rollup with
  | None => Raise KeyError
  | Some today =>
      cases <- getitem 0 covid_cases_rollup today ;;
      deaths <- getitem 0 covid_deaths_rollup today ;;
      Ok (today, cases, deaths)
  end.

(** Lines 78 to 80, the observed death rate of a row:
    [row['deaths'] / float(row['cases'])] on numpy numbers, which raises
    nothing on a zero divisor.  A count is missing ([None]) for a country that
    only one of the two tables has. *)
Definition death_rate_observed (deaths cases : option Q) : cell :=
  match deaths, cases with
  | Some d, Some c =>
      if Qeq_bool c 0
      then (if Qeq_bool d 0 then NaN else Inf (Qlt_bool d 0))
      else Num (d / c)
  | _, _ => NaN
  end.

(** Lines 96 to 100: [num_null] counts the missing cells of a row over all
    the columns of [df_out]; the labels of the rows with more than one are
    dropped from the index. *)
Definition num_null (row : list cell) : nat :=
  length (filter isnull row).

Definition drop_lacking_data (df_out : DataFrame string cell) : DataFrame string cell :=
  let to_drop_idx :=
    map fst (filter (fun r => (1 <? num_null (snd r))%nat) (rows df_out)) in
  drop_index to_drop_idx df_out.

(** *** _get_latest_covid_timeseries *)

Definition TIME_SERIES_REPO : string :=
  "https://raw.githubusercontent.com/CSSEGISandData/COVID-19/master/".

Definition TIME_SERIES_DATA_PATH : string :=
  "csse_covid_19_data/csse_covid_19_time_series/".

Definition time_series_statuses : list string :=
  [ "confirmed_US"; "confirmed_global"; "deaths_US"; "deaths_global";
    "recovered_global" ].

Definition time_series_url (status : string) : string :=
  let file_name := ("time_series_covid19_" ++ status ++ ".csv")%string in
  (TIME_SERIES_REPO ++ TIME_SERIES_DATA_PATH ++ file_name)%string.

Section Fetch.

(** [pd.read_csv(url)]: the table behind the url, or the exception that the
    fetch or the parse raises. *)
Variable Table : Type.
Variable read_csv : string -> result Table.

(** The dictionary [all_data], as its (key, table) pairs in the order of
    insertion; the five keys are distinct. *)
Definition _get_latest_covid_timeseries : result (list (string * Table)) :=
  traverse (fun status => t <- read_csv (time_series_url status) ;; Ok (status, t))
           time_series_statuses.

End Fetch.

(** *** Joining a covariate onto the dataset

    The covariate tables come into the functions below as they are once read
    and indexed by their country column ([set_index(..., drop=True)]): the
    index label of a row is its country name, a text, and the columns are the
    other columns of the file, in the order of the file. *)

Fixpoint position_of (c : string) (cols : list string) : option nat :=
  match cols with
  | [] => None
  | c' :: cols' => if c =? c' then Some O else option_map S (position_of c cols')
  end.

(** [df[label]] on a frame with named columns. *)
Definition getitem_label (df : DataFrame string cell) (label : string)
  : result (Series cell) :=
  match position_of label (columns df) with
  | None => Raise KeyError
  | Some p => Ok (map (fun r => (fst r, nth p (snd r) NaN)) (rows df))
  end.

Fixpoint is_unique (labels : list string) : bool :=
  match labels with
  | [] => true
  | k :: labels' => negb (existsb (String.eqb k) labels') && is_unique labels'
  end.

Fixpoint index_equals (a b : list string) : bool :=
  match a, b with
  | [], [] => true
  | x :: a', y :: b' => (x =? y) && index_equals a' b'
  | _, _ => false
  end.

(** The value of a series at a label, the missing value when the series has
    no such label. *)
Definition series_at (value : Series cell) (k : string) : cell :=
  match find (fun kv => fst kv =? k) value with
  | Some kv => snd kv
  | None => NaN
  end.

(** [DataFrame._ensure_valid_index]: a frame without rows takes the index of
    the first non-empty series that is set on it, its own columns missing on
    every row. *)
Definition _ensure_valid_index (df : DataFrame string cell) (value : Series cell)
  : DataFrame string cell :=
  match rows df, value with
  | [], _ :: _ =>
      mkDataFrame (columns df)
                  (map (fun kv => (fst kv, map (fun _ => NaN) (columns df))) value)
  | _, _ => df
  end.

(** The [reindexer] of [DataFrame._sanitize_column]: the values as they are
    when the series has the index of the frame (or the frame has no row),
    else the series reindexed on the index of the frame, which raises when
    the labels of the series are not unique. *)
Definition reindexer (frame_index : list string) (value : Series cell)
  : result (list cell) :=
  if index_equals (map fst value) frame_index || (length frame_index =? 0)%nat
  then Ok (map snd value)
  else if is_unique (map fst value)
       then Ok (map (series_at value) frame_index)
       else Raise ValueError.

Fixpoint set_nth {A : Type} (p : nat) (a : A) (l : list A) : list A :=
  match l, p with
  | [], _ => []
  | _ :: l', O => a :: l'
  | x :: l', S p' => x :: set_nth p' a l'
  end.

(** The column [key] of the frame becomes [values], row by row: in place
    when the frame has the column, as a new last column otherwise. *)
Definition set_column (df : DataFrame string cell) (key : string) (values : list cell)
  : DataFrame string cell :=
  match position_of key (columns df) with
  | Some p =>
      mkDataFrame (columns df)
                  (map (fun rv => (fst (fst rv), set_nth p (snd rv) (snd (fst rv))))
                       (combine (rows df) values))
  | None =>
      mkDataFrame (columns df ++ [ key ])
                  (map (fun rv => (fst (fst rv), snd (fst rv) ++ [ snd rv ]))
                       (combine (rows df) values))
  end.

(** [df[key] = value] for a series [value]. *)
Definition setitem_series (df : DataFrame string cell) (key : string)
           (value : Series cell) : result (DataFrame string cell) :=
  let df := _ensure_valid_index df value in
  values <- reindexer (index df) value ;;
  Ok (set_column df key values).

(** *** _add_cpi_data

    [cpi_data] is the sheet of [CPI2019.xlsx] read and indexed by [Country]
    (lines 201 to 203). *)
Definition _add_cpi_data (cpi_data df_input : DataFrame string cell)
  : result (DataFrame string cell) :=
  let cpi_data := rename_index cpi_country_mapping cpi_data in
  score <- getitem_label cpi_data "CPI score 2019" ;;
  setitem_series df_input "cpi_score_2019" score.

(** *** _add_wb_data

    [wb_data] is [world_bank_data.csv] as read (line 219), its rows labelled
    by their [Country Name], which is what [set_index] makes of each
    selection of it. *)

(** [cell == name] of the selection mask. *)
Definition cell_is (name : string) (c : cell) : bool :=
  match c with
  | Str s => s =? name
  | _ => false
  end.

Definition _add_wb_data (wb_data df_input : DataFrame string cell)
  : result (DataFrame string cell) :=
  fold_left
    (fun acc cov =>
       df_input <- acc ;;
       series_code <- getitem_label wb_data "Series Code" ;;
       let wb_series :=
         mkDataFrame (columns wb_data)
                     (map fst (filter (fun rc => cell_is (fst cov) (snd (snd rc)))
                                      (combine (rows wb_data) series_code))) in
       let wb_series := rename_index wb_country_mapping wb_series in
       setitem_series df_input (snd cov) (_get_most_recent_value wb_series))
    wb_covariates (Ok df_input).

(** *** _add_wb_data_diabetes

    [wb_data] is [world_bank_diabetes.csv] read and indexed by
    [Country Name] (lines 239 to 242). *)
Definition _add_wb_data_diabetes (wb_data df_input : DataFrame string cell)
  : result (DataFrame string cell) :=
  let wb_data := rename_index wb_country_mapping wb_data in
  setitem_series df_input "population_perc_diabetic" (_get_most_recent_value wb_data).

End MakeDataset.

(** ** build_features.py, in exact arithmetic *)

Module BuildFeatures.

(** *** Numbers of a column

    A float64 of a column: a finite number (kept exact), an infinity with its
    sign, or NaN, which is also how a missing entry is stored.  Arithmetic
    follows IEEE 754 on the special values; zero is unsigned, so a division
    of a non-zero number by zero takes the sign of the dividend. *)
Inductive float : Type :=
| Fin (q : Q)
| Inf (negative : bool)
| NaN.

Definition Qlt_bool (a b : Q) : bool := negb (Qle_bool b a).

Definition fadd (a b : float) : float :=
  match a, b with
  | NaN, _ | _, NaN => NaN
  | Fin x, Fin y => Fin (x + y)
  | Fin _, Inf s => Inf s
  | Inf s, Fin _ => Inf s
  | Inf s, Inf t => if Bool.eqb s t then Inf s else NaN
  end.

Definition fsub (a b : float) : float :=
  match a, b with
  | NaN, _ | _, NaN => NaN
  | Fin x, Fin y => Fin (x - y)
  | Fin _, Inf s => Inf (negb s)
  | Inf s, Fin _ => Inf s
  | Inf s, Inf t => if Bool.eqb s t then NaN else Inf s
  end.

Definition fdiv (a b : float) : float :=
  match a, b with
  | NaN, _ | _, NaN => NaN
  | Fin x, Fin y =>
      if Qeq_bool y 0
      then (if Qeq_bool x 0 then NaN else Inf (Qlt_bool x 0))
      else Fin (x / y)
  | Fin _, Inf _ => Fin 0
  | Inf s, Fin y => Inf (xorb s (Qlt_bool y 0))
  | Inf _, Inf _ => NaN
  end.

(** [a <= b] and [a == b] of floats: false as soon as one side is NaN. *)
Definition fle (a b : float) : bool :=
  match a, b with
  | NaN, _ | _, NaN => false
  | Inf true, _ => true
  | _, Inf false => true
  | Fin x, Fin y => Qle_bool x y
  | _, _ => false
  end.

Definition flt (a b : float) : bool := fle a b && negb (fle b a).

Definition feq (a b : float) : bool := fle a b && fle b a.

Definition isnan (a : float) : bool :=
  match a with
  | NaN => true
  | _ => false
  end.

(** *** Reductions of a column, all with [skipna=True] *)

Definition Column : Type := list float.

(** [col.max()]: the greatest entry that is not NaN, NaN when there is none. *)
Fixpoint series_max (col : Column) : float :=
  match col with
  | [] => NaN
  | x :: col' =>
      match x, series_max col' with
      | NaN, m => m
      | _, NaN => x
      | _, m => if fle m x then x else m
      end
  end.

Fixpoint series_min (col : Column) : float :=
  match col with
  | [] => NaN
  | x :: col' =>
      match x, series_min col' with
      | NaN, m => m
      | _, NaN => x
      | _, m => if fle x m then x else m
      end
  end.

Definition present (col : Column) : Column :=
  filter (fun x => negb (isnan x)) col.

Definition count (col : Column) : Q :=
  inject_Z (Z.of_nat (length (present col))).

(** [col.mean()]: NaN for a column without a present entry (0 / 0). *)
Definition series_mean (col : Column) : float :=
  fdiv (fold_left fadd (present col) (Fin 0)) (Fin (count col)).

(** *** The frame: its columns by name, in order *)

Definition DataFrame : Type := list (string * Column).

(** [df[colname]], [KeyError] for a name that is not a column. *)
Fixpoint getitem (df : DataFrame) (colname : string) : result Column :=
  match df with
  | [] => Raise KeyError
  | c :: df' => if colname =? fst c then Ok (snd c) else getitem df' colname
  end.

(** [df[colname] = col]: the column is replaced where it stands, or added
    after the last one. *)
Fixpoint setitem (df : DataFrame) (colname : string) (col : Column) : DataFrame :=
  match df with
  | [] => [ (colname, col) ]
  | c :: df' =>
      if colname =? fst c then (colname, col) :: df'
      else c :: setitem df' colname col
  end.

Section Std.

(** The square root of the floats; it has no exact rational value. *)
Variable sqrt : Q -> Q.

(** [col.std()], with one degree of freedom taken off: NaN for fewer than
    two present entries. *)
Definition series_std (col : Column) : float :=
  let mu := series_mean col in
  let squares :=
    fold_left fadd
              (map (fun x => let d := fsub x mu in
                             match d with
                             | Fin q => Fin (q * q)
                             | Inf _ => Inf false
                             | NaN => NaN
                             end)
                   (present col))
              (Fin 0) in
  if Qle_bool (count col) 1 then NaN
  else match fdiv squares (Fin (count col - 1)) with
       | Fin v => Fin (sqrt v)
       | Inf false => Inf false
       | _ => NaN
       end.

(** *** _normalize_col *)

Definition _normalize_col (df : DataFrame) (colname how : string) : result DataFrame :=
  let colname_new := (colname ++ "_normalized")%string in
  if how =? "mean" then
    col <- getitem df colname ;;
    let mu := series_mean col in
    let sig := series_std col in
    Ok (setitem df colname_new (map (fun x => fdiv (fsub x mu) sig) col))
  else if how =? "upper" then
    col <- getitem df colname ;;
    let maxval := series_max col in
    let minval := series_min col in
    Ok (setitem df colname_new
                (map (fun x => fdiv (fsub x maxval) (fsub maxval minval)) col))
  else if how =? "lower" then
    col <- getitem df colname ;;
    let maxval := series_max col in
    let minval := series_min col in
    Ok (setitem df colname_new
                (map (fun x => fdiv (fsub x minval) (fsub maxval minval)) col))
  else Ok df.

Definition build_features (df : DataFrame) : result DataFrame :=
  df <- _normalize_col df "days_since_first_case" "upper" ;;
  df <- _normalize_col df "cpi_score_2019" "upper" ;;
  df <- _normalize_col df "healthcare_oop_expenditure" "mean" ;;
  df <- _normalize_col df "hospital_beds" "mean" ;;
  df <- _normalize_col df "hci" "mean" ;;
  df <- _normalize_col df "population_perc_over65" "mean" ;;
  df <- _normalize_col df "population_perc_rural" "mean" ;;
  _normalize_col df "population_perc_diabetic" "mean".

End Std.

End BuildFeatures.

(** ** build_features.py, over int64 and float64

    [_normalize_col] once more, its arithmetic as numpy computes it: an int64
    column is subtracted in int64, with wrap-around, and converted to
    float64 for the division; a float64 column is subtracted and divided in
    float64, each result rounded to the nearest float64 or, beyond the
    largest one, to an infinity. *)

Module BuildFeatures64.

Import Numpy.

(** A column of numbers: int64 (no entry is missing), or float64 (NaN is a
    missing entry). *)
Inductive Column : Type :=
| Int64 (values : list Z)
| Float64 (values : list float).

(** What [max()] and [min()] return: a numpy int64, or a float. *)
Inductive scalar : Type :=
| Int (z : Z)
| Float (x : float).

(** *** Reductions of a column, with [skipna=True] *)

(** The greatest entry that is not NaN, NaN when there is none. *)
Fixpoint float_max (xs : list float) : float :=
  match xs with
  | [] => NaN
  | x :: xs' =>
      match x, float_max xs' with
      | NaN, m => m
      | _, NaN => x
      | _, m => if fle m x then x else m
      end
  end.

Fixpoint float_min (xs : list float) : float :=
  match xs with
  | [] => NaN
  | x :: xs' =>
      match x, float_min xs' with
      | NaN, m => m
      | _, NaN => x
      | _, m => if fle x m then x else m
      end
  end.

(** [col.max()] and [col.min()]; of a column without entries, NaN. *)
Definition series_max (col : Column) : scalar :=
  match col with
  | Int64 [] => Float NaN
  | Int64 (x :: xs) => Int (fold_left Z.max xs x)
  | Float64 xs => Float (float_max xs)
  end.

Definition series_min (col : Column) : scalar :=
  match col with
  | Int64 [] => Float NaN
  | Int64 (x :: xs) => Int (fold_left Z.min xs x)
  | Float64 xs => Float (float_min xs)
  end.

(** *** Arithmetic of a column with a scalar *)

(** An int64 takes part in a float64 operation as the nearest float64. *)
Definition as_float (s : scalar) : float :=
  match s with
  | Int z => of_int64 z
  | Float x => x
  end.

Definition astype_float (col : Column) : list float :=
  match col with
  | Int64 xs => map of_int64 xs
  | Float64 xs => xs
  end.

(** [col - s]: in int64 when both are, else in float64. *)
Definition sub (col : Column) (s : scalar) : Column :=
  match col, s with
  | Int64 xs, Int m => Int64 (map (fun x => wrap64 (x - m)) xs)
  | _, _ => Float64 (map (fun x => fsub x (as_float s)) (astype_float col))
  end.

(** [a - b] of two such results. *)
Definition scalar_sub (a b : scalar) : scalar :=
  match a, b with
  | Int x, Int y => Int (wrap64 (x - y))
  | _, _ => Float (fsub (as_float a) (as_float b))
  end.

(** [col / s], a true division: both sides as float64. *)
Definition div (col : Column) (s : scalar) : Column :=
  Float64 (map (fun x => fdiv x (as_float s)) (astype_float col)).

(** *** The frame: its columns by name, in order *)

Definition DataFrame : Type := list (string * Column).

(** [df[colname]], [KeyError] for a name that is not a column. *)
Fixpoint getitem (df : DataFrame) (colname : string) : result Column :=
  match df with
  | [] => Raise KeyError
  | c :: df' => if colname =? fst c then Ok (snd c) else getitem df' colname
  end.

(** [df[colname] = col]: the column is replaced where it stands, or added
    after the last one. *)
Fixpoint setitem (df : DataFrame) (colname : string) (col : Column) : DataFrame :=
  match df with
  | [] => [ (colname, col) ]
  | c :: df' =>
      if colname =? fst c then (colname, col) :: df'
      else c :: setitem df' colname col
  end.

Section Reductions.

(** [col.mean()] and [col.std()], of pandas: the order in which they add the
    entries up, and with it their rounding, is pandas' own. *)
Variable mean : Column -> float.
Variable std : Column -> float.

(** *** _normalize_col *)

Definition _normalize_col (df : DataFrame) (colname how : string) : result DataFrame :=
  let colname_new := (colname ++ "_normalized")%string in
  if how =? "mean" then
    col <- getitem df colname ;;
    let mu := mean col in
    let sig := std col in
    Ok (setitem df colname_new (div (sub col (Float mu)) (Float sig)))
  else if how =? "upper" then
    col <- getitem df colname ;;
    let maxval := series_max col in
    let minval := series_min col in
    Ok (setitem df colname_new (div (sub col maxval) (scalar_sub maxval minval)))
  else if how =? "lower" then
    col <- getitem df colname ;;
    let maxval := series_max col in
    let minval := series_min col in
    Ok (setitem df colname_new (div (sub col minval) (scalar_sub maxval minval)))
  else Ok df.

Definition build_features (df : DataFrame) : result DataFrame :=
  df <- _normalize_col df "days_since_first_case" "upper" ;;
  df <- _normalize_col df "cpi_score_2019" "upper" ;;
  df <- _normalize_col df "healthcare_oop_expenditure" "mean" ;;
  df <- _normalize_col df "hospital_beds" "mean" ;;
  df <- _normalize_col df "hci" "mean" ;;
  df <- _normalize_col df "population_perc_over65" "mean" ;;
  df <- _normalize_col df "population_perc_rural" "mean" ;;
  _normalize_col df "population_perc_diabetic" "mean".

End Reductions.

End BuildFeatures64.

(** * Specification vocabulary *)

Module MakeDatasetSpec.

Import Numpy MakeDataset.

(** ** Most recent value *)

(** Every cell of [row] from column [lo] on is null. *)
Definition all_null_from (lo : nat) (row : list cell) : Prop :=
  forall j, (lo <= j < length row)%nat -> notnull (nth j row NaN) = false.

(** [v] is the value of the last column from [lo] on whose value is not null,
    or the missing value when there is no such column. *)
Definition last_notnull_from (lo : nat) (row : list cell) (v : cell) : Prop :=
  (exists j, (lo <= j < length row)%nat /\ nth j row NaN = v /\
             notnull v = true /\ all_null_from (S j) row)
  \/ (v = NaN /\ all_null_from lo row).

Definition panel_example : DataFrame string cell :=
  mkDataFrame
    [ "Country Code"; "Series Name"; "Series Code"; "2015"; "2016"; "2017"; "2018" ]
    [ ("Italy", [ Str "ITA"; Str "Hospital beds"; Str "SH.MED.BEDS.ZS";
                  Num 5; NaN; Num 3; NaN ]);
      ("Chad",  [ Str "TCD"; Str "Hospital beds"; Str "SH.MED.BEDS.ZS";
                  NaN; NaN; NaN; NaN ]) ].

(** ** Dropout *)

(** The covariates of the assembled dataset: the columns that lines 83 to 93
    of [make_dataset] join onto the counts. *)
Definition covariate_columns : list string :=
  "days_since_first_case" :: "cpi_score_2019" ::
  map snd wb_covariates ++ [ "population_perc_diabetic" ].

Definition is_covariate (c : string) : bool :=
  existsb (String.eqb c) covariate_columns.

Definition missing_covariates (cols : list string) (row : list cell) : nat :=
  length (filter (fun cv => is_covariate (fst cv) && isnull (snd cv))
                 (combine cols row)).

(** The dropout rule in the words of the claim: a row stays when at most one
    of its covariates is missing, and goes when two or more are. *)
Definition dropout_by_missing_covariates (df_out : DataFrame string cell) : Prop :=
  forall r, In r (rows df_out) ->
    ((missing_covariates (columns df_out) (snd r) <= 1)%nat ->
     In r (rows (drop_lacking_data df_out))) /\
    ((2 <= missing_covariates (columns df_out) (snd r))%nat ->
     ~ In r (rows (drop_lacking_data df_out))).

Definition df_out_columns : list string :=
  [ "cases"; "deaths"; "death_rate_observed"; "days_since_first_case";
    "cpi_score_2019"; "healthcare_oop_expenditure"; "hospital_beds"; "hci";
    "population_perc_over65"; "population_perc_rural";
    "population_perc_diabetic" ].

(** A country without a confirmed case yet: its observed death rate is 0 / 0,
    and it has no CPI score; every other covariate is there. *)
Definition df_out_no_cases : DataFrame string cell :=
  mkDataFrame df_out_columns
    [ ("Atlantis", [ Num 0; Num 0; NaN; Num 0;
                     NaN; Num 12; Num 3; Num (7 # 10); Num 20; Num 30; Num 8 ]) ].

Definition df_out_one_missing : DataFrame string cell :=
  mkDataFrame df_out_columns
    [ ("Italy", [ Num 100; Num 5; Num (1 # 20); Num 40;
                  Num 53; Num 23; NaN; Num (8 # 10); Num 23; Num 30; Num 5 ]) ].

(** ** Today *)

Definition shared_dates (cases deaths : DataFrame Z Q) : list Z :=
  filter (fun d => existsb (Z.eqb d) (columns deaths)) (columns cases).

Definition most_recent_shared_date (cases deaths : DataFrame Z Q) : option Z :=
  index_max (shared_dates cases deaths).

(** The claim as it is stated: the date called today is the most recent date
    that both tables have, and the output is built from the counts at that
    date. *)
Definition built_from_most_recent_shared_date (cases deaths : DataFrame Z Q) : Prop :=
  todays_date cases = most_recent_shared_date cases deaths /\
  forall d, most_recent_shared_date cases deaths = Some d ->
    exists c s, todays_counts cases deaths = Ok (d, c, s).

Definition cases_four_days : DataFrame Z Q :=
  mkDataFrame [ 0; 1; 2; 3 ]%Z [ ("A", [ 0; 1; 5; 6 ]%Q); ("B", [ 2; 2; 2; 2 ]%Q) ].

Definition deaths_three_days : DataFrame Z Q :=
  mkDataFrame [ 0; 1; 2 ]%Z [ ("A", [ 0; 0; 1 ]%Q); ("B", [ 0; 0; 0 ]%Q) ].

Definition deaths_four_days : DataFrame Z Q :=
  mkDataFrame [ 0; 1; 2; 3 ]%Z [ ("A", [ 0; 0; 1; 1 ]%Q); ("B", [ 0; 0; 0; 0 ]%Q) ].

(** ** Days since the n-th case *)

(** The leftmost date, in column order, at which the count reaches or exceeds
    the threshold. *)
Fixpoint first_date_reaching (n : Q) (cells : list (Z * Q)) : option Z :=
  match cells with
  | [] => None
  | dv :: cells' =>
      if Qle_bool n (snd dv) then Some (fst dv) else first_date_reaching n cells'
  end.

Definition non_decreasing (row : list Q) : Prop :=
  forall i j, (i <= j < length row)%nat -> nth i row 0 <= nth j row 0.

(** Days since the n-th case in the words of the claim: the latest date of
    the table minus the first date that reaches the threshold, and 0 for a
    row that never reaches it. *)
Definition days_since_threshold (cols : list Z) (n : Q) (row : list Q) : option Z :=
  match index_max cols with
  | None => None
  | Some latest =>
      Some (match first_date_reaching n (combine cols row) with
            | Some d => (latest - d)%Z
            | None => 0%Z
            end)
  end.

(** The claim as it is stated, for every row of a table with a date column
    at least. *)
Definition days_since_on_every_row (df_cases : DataFrame Z Q) (n : Q) : Prop :=
  forall i k row,
    columns df_cases <> [] ->
    nth_error (rows df_cases) i = Some (k, row) ->
    non_decreasing row ->
    exists s d,
      _compute_days_since_nth_case df_cases n = Ok s /\
      days_since_threshold (columns df_cases) n row = Some d /\
      nth_error s i = Some (k, Some d).

(** The raw value of a row, as lines 181 to 183 compute it: before the
    adjustment of line 186. *)
Definition raw_days_since (cols : list Z) (n : Q) (row : list Q) : option Z :=
  match index_max cols with
  | None => None
  | Some columns_max =>
      Some (match idxmin_scan None
                    (combine cols
                       (map (fun v => if Qle_bool n v then Some v else None) row))
            with
            | Some x => (columns_max - x)%Z
            | None => 0%Z
            end)
  end.

Definition cases_with_china : DataFrame Z Q :=
  mkDataFrame [ 0; 1; 2 ]%Z
    [ ("Italy", [ 0; 1; 5 ]%Q);
      ("Mainland China", [ 0; 1; 5 ]%Q);
      ("Chad", [ 0; 0; 0 ]%Q) ].

(** ** Rollup by country *)

Definition has_key (k : string) (r : csse_record) : bool :=
  match Country_Region r with
  | Some k' => k' =? k
  | None => false
  end.

(** The values that are there: the missing ones left out. *)
Fixpoint present_values (vs : list (option Q)) : list Q :=
  match vs with
  | [] => []
  | Some x :: vs' => x :: present_values vs'
  | None :: vs' => present_values vs'
  end.

(** The sub-national values of a key at a column: the cells of column [j] in
    the records that share the key [k], in the order of the records, the
    missing ones left out. *)
Definition subnational_values (df : csse_frame) (k : string) (j : nat) : list Q :=
  present_values (map (fun r => nth j (numeric r) None)
                      (filter (has_key k) (records df))).

(** Their exact sum: a missing entry contributes nothing to it. *)
Definition subnational_sum (df : csse_frame) (k : string) (j : nat) : Q :=
  fold_right Qplus 0 (subnational_values df k j).

Definition is_date_column (c : string) : bool :=
  negb (existsb (String.eqb c) [ "Lat"; "Long" ]).

(** Where column [j] of the columns read as numbers lands in the rolled-up
    table of a raw table with provinces: after the date columns that stand
    before it. *)
Definition date_position (df : csse_frame) (j : nat) : nat :=
  length (filter is_date_column (firstn j (map fst (typed_columns df)))).

(** [Province/State] is a column of text: some record has a province. *)
Definition has_provinces (df : csse_frame) : Prop :=
  exists r, In r (records df) /\ Province_State r <> None.

(** Every record has a cell in every column read as numbers. *)
Definition rectangular (df : csse_frame) : Prop :=
  forall r, In r (records df) -> length (numeric r) = length (typed_columns df).

(** What C6 says of the key [k] and the date column [c], column [j] of the
    columns read as numbers: the rolled-up table has one row for the key,
    and its cell at the date of [c] is exactly the sum of the sub-national
    values. *)
Definition rollup_is_exact_sum (strptime : string -> option Z) (df : csse_frame)
           (k : string) (j : nat) (c : string) : Prop :=
  exists out d vals v,
    _rollup_by_country strptime df = Ok out /\
    strptime c = Some d /\
    nth_error (columns out) (date_position df j) = Some d /\
    In (k, vals) (rows out) /\
    (forall vals', In (k, vals') (rows out) -> vals' = vals) /\
    nth_error vals (date_position df j) = Some v /\
    v == subnational_sum df k j.

(** A whole number. *)
Definition whole (x : Q) : bool := Qeq_bool x (inject_Z (Qfloor x)).

(** The sum of whole numbers, and the sum of their magnitudes. *)
Definition total (xs : list Q) : Z :=
  fold_right Z.add 0%Z (map Qfloor xs).

Definition total_magnitude (xs : list Q) : Z :=
  fold_right Z.add 0%Z (map (fun x => Z.abs (Qfloor x)) xs).

(** The values add up within the arithmetic of their column: they are whole
    numbers, and their sum is an int64 (for an int64 column), or their
    magnitudes add up to less than 2^53, so that no addition is rounded (for
    a float64 column). *)
Definition sums_exactly (t : dtype) (xs : list Q) : bool :=
  forallb whole xs &&
  match t with
  | int64 => (- 2 ^ 63 <=? total xs)%Z && (total xs <? 2 ^ 63)%Z
  | float64 => (total_magnitude xs <? 2 ^ 53)%Z
  end.

(** The group that a list of groups holds for a key. *)
Fixpoint group_of (k : string) (groups : list (string * list Q)) : option (list Q) :=
  match groups with
  | [] => None
  | g :: groups' => if k =? fst g then Some (snd g) else group_of k groups'
  end.

(** A mapper none of whose targets is itself an alternate spelling. *)
Definition targets_are_canonical (m : list (string * string)) : bool :=
  forallb (fun v => match dict_get m v with None => true | Some _ => false end)
          (map snd m).

(** The parser on the labels of the example below (day numbers as
    [date.toordinal] counts them). *)
Definition strptime_sample (x : string) : option Z :=
  if x =? "1/22/20" then Some 737446%Z
  else if x =? "1/23/20" then Some 737447%Z
  else None.

Definition confirmed_sample : csse_frame :=
  mk_csse_frame [ ("Lat", float64); ("Long", float64);
                  ("1/22/20", int64); ("1/23/20", float64) ]
    [ mk_csse_record (Some "Hubei") (Some "China")
                     [ Some (61 # 2); Some (449 # 4); Some 444; Some 444 ];
      mk_csse_record None (Some "Italy")
                     [ Some 43; Some 12; Some 0; Some 2 ];
      mk_csse_record (Some "Beijing") (Some "China")
                     [ Some (161 # 4); Some (233 # 2); Some 14; None ] ].

(** Two provinces whose counts add up to 2^63, one more than the greatest
    int64. *)
Definition confirmed_beyond_int64 : csse_frame :=
  mk_csse_frame [ ("1/22/20", int64) ]
    [ mk_csse_record (Some "Hubei") (Some "China") [ Some (inject_Z (2 ^ 62)) ];
      mk_csse_record (Some "Beijing") (Some "China") [ Some (inject_Z (2 ^ 62)) ] ].

(** A table of countries without provinces: every [Province/State] field is
    blank. *)
Definition confirmed_without_provinces : csse_frame :=
  mk_csse_frame [ ("Lat", float64); ("Long", float64); ("1/22/20", int64) ]
    [ mk_csse_record None (Some "Italy") [ Some 43; Some 12; Some 2 ];
      mk_csse_record None (Some "Chad") [ Some 15; Some 19; Some 0 ] ].

(** ** Vocabulary of the further properties *)

(** The order of the index labels: python's order on strings. *)
Definition label_lt (a b : string) : Prop := (a <? b)%string = true.

Definition label_le (a b : string) : Prop := (a <=? b)%string = true.

(** A raw table with a numeric column that is neither a coordinate nor a
    date. *)
Definition confirmed_with_population : csse_frame :=
  mk_csse_frame [ ("Lat", float64); ("Long", float64);
                  ("Population", int64); ("1/22/20", int64) ]
    [ mk_csse_record (Some "Hubei") (Some "China")
                     [ Some (61 # 2); Some (449 # 4); Some 58500000; Some 444 ] ].

Definition dates_sample : DataFrame string Q :=
  mkDataFrame [ "1/22/20"; "1/23/20" ] [ ("China", [ 458; 444 ]%Q) ].


(** A table with a count that was corrected downwards. *)
Definition cases_with_a_correction : DataFrame Z Q :=
  mkDataFrame [ 0; 1; 2 ]%Z [ ("Italy", [ 5; 1; 7 ]%Q) ].

Definition countries_with_aliases : DataFrame string Q :=
  mkDataFrame [ "cases" ]
    [ ("China", [ 5 ]%Q); ("Italy", [ 3 ]%Q); ("Mainland China", [ 7 ]%Q);
      ("Cruise Ship", [ 1 ]%Q) ].

Definition countries_clean : DataFrame string Q :=
  mkDataFrame [ "cases" ] [ ("Italy", [ 3 ]%Q); ("Mainland China", [ 7 ]%Q) ].

(** [v] is the most recent value that the rows of a covariate table hold for
    the country [k], the names of the table being renamed by [mapper]: the
    last non-null value, after the 3 leading columns, of a row whose name is
    renamed to [k], and the missing value when no row is. *)
Definition most_recent_of (mapper : list (string * string))
           (table : list (string * list cell)) (k : string) (v : cell) : Prop :=
  (forall k0 cells, In (k0, cells) table -> rename_label mapper k0 = k ->
                    last_notnull_from 3 cells v) /\
  ((forall k0 cells, In (k0, cells) table -> rename_label mapper k0 <> k) ->
   v = NaN).

(** The rows of the World Bank table that carry a series code, the code
    standing in column [p]. *)
Definition records_of_series (wb_data : DataFrame string cell) (p : nat)
           (code : string) : list (string * list cell) :=
  filter (fun r => cell_is code (nth p (snd r) NaN)) (rows wb_data).

Definition dataset_sample : DataFrame string cell :=
  mkDataFrame [ "cases"; "deaths" ]
    [ ("Italy", [ Num 100; Num 5 ]);
      ("Mainland China", [ Num 458; Num 17 ]);
      ("US", [ Num 7; Num 0 ]) ].

Definition dataset_without_rows : DataFrame string cell :=
  mkDataFrame [ "cases"; "deaths" ] [].

Definition cpi_sample : DataFrame string cell :=
  mkDataFrame [ "ISO3"; "Region"; "CPI score 2019" ]
    [ ("China", [ Str "CHN"; Str "AP"; Num 41 ]);
      ("United States of America", [ Str "USA"; Str "AME"; Num 69 ]);
      ("Denmark", [ Str "DNK"; Str "WE/EU"; Num 87 ]) ].

Definition cpi_with_two_chinas : DataFrame string cell :=
  mkDataFrame [ "ISO3"; "Region"; "CPI score 2019" ]
    [ ("China", [ Str "CHN"; Str "AP"; Num 41 ]);
      ("Mainland China", [ Str "CHN"; Str "AP"; Num 41 ]) ].

Definition diabetes_sample : DataFrame string cell :=
  mkDataFrame [ "Country Code"; "Indicator Name"; "Indicator Code"; "2010"; "2019" ]
    [ ("China", [ Str "CHN"; Str "Diabetes"; Str "SH.STA.DIAB.ZS"; Num 9; NaN ]);
      ("United States", [ Str "USA"; Str "Diabetes"; Str "SH.STA.DIAB.ZS"; NaN; Num 11 ]) ].

Definition wb_sample : DataFrame string cell :=
  mkDataFrame [ "Country Code"; "Series Name"; "Series Code"; "2017"; "2018" ]
    [ ("Italy", [ Str "ITA"; Str "beds"; Str "SH.MED.BEDS.ZS"; Num 3; NaN ]);
      ("Italy", [ Str "ITA"; Str "hci"; Str "HD.HCI.OVRL"; Num (7 # 10); Num (8 # 10) ]);
      ("United States", [ Str "USA"; Str "rural"; Str "SP.RUR.TOTL.ZS"; NaN; Num 18 ]) ].

Definition fetch_sample (url : string) : result nat :=
  Ok (String.length url).

(** The series that [_add_wb_data] extracts for one covariate: the most
    recent values of the rows that carry its series code, under their renamed
    country names. *)
Definition covariate_series (wb_data : DataFrame string cell) (p : nat)
           (code : string) : Series cell :=
  _get_most_recent_value
    (rename_index wb_country_mapping
       (mkDataFrame (columns wb_data) (records_of_series wb_data p code))).

End MakeDatasetSpec.

Module BuildFeaturesSpec.

Import BuildFeatures.

(** A numeric column: every entry is a finite number, or NaN where the value
    is missing. *)
Definition numeric_column (col : Column) : Prop :=
  forall x, In x col -> match x with Inf _ => False | _ => True end.

(** How a row [x] of a numeric column stands to its normalised value [y]: a
    number goes to a number between [lo] and [hi], to 0 when it is the anchor
    (the maximum for [upper], the minimum for [lower]); a missing value stays
    missing. *)
Definition normalized_within (lo hi : Q) (anchor x y : float) : Prop :=
  match x with
  | Fin q =>
      exists r, y = Fin r /\ lo <= r <= hi /\
                (forall a, anchor = Fin a -> q == a -> r == 0)
  | Inf _ => True
  | NaN => y = NaN
  end.

Definition column_normalized_within (lo hi : Q) (anchor : float)
           (col col' : Column) : Prop :=
  length col' = length col /\
  (forall i, (i < length col)%nat ->
             normalized_within lo hi anchor (nth i col NaN) (nth i col' NaN)) /\
  In anchor col.

Definition all_missing (col : Column) : Prop :=
  forall x, In x col -> x = NaN.

Definition sqrt_sample (q : Q) : Q := q.

Definition df_sample : DataFrame :=
  [ ("days_since_first_case", [ Fin 10; Fin 40; NaN; Fin 25 ]);
    ("cpi_score_2019", [ Fin 53; Fin 53; NaN; Fin 53 ]) ].

(** ** Vocabulary of the further properties *)

Definition normalized_name (colname : string) : string :=
  (colname ++ "_normalized")%string.

Definition known_policy (how : string) : Prop :=
  how = "mean" \/ how = "upper" \/ how = "lower".

(** The covariates that [build_features] normalises, each with the policy of
    its call (lines 6 to 27). *)
Definition features_policy : list (string * string) :=
  [ ("days_since_first_case", "upper");
    ("cpi_score_2019", "upper");
    ("healthcare_oop_expenditure", "mean");
    ("hospital_beds", "mean");
    ("hci", "mean");
    ("population_perc_over65", "mean");
    ("population_perc_rural", "mean");
    ("population_perc_diabetic", "mean") ].

(** The column that [_normalize_col] computes from [col] under a known
    policy. *)
Definition normalized_column (sqrt : Q -> Q) (how : string) (col : Column) : Column :=
  if how =? "mean" then
    map (fun x => fdiv (fsub x (series_mean col)) (series_std sqrt col)) col
  else if how =? "upper" then
    map (fun x => fdiv (fsub x (series_max col))
                       (fsub (series_max col) (series_min col))) col
  else
    map (fun x => fdiv (fsub x (series_min col))
                       (fsub (series_max col) (series_min col))) col.

(** The calls of [build_features], one after the other, for any list of
    columns and policies. *)
Fixpoint normalize_each (sqrt : Q -> Q) (policy : list (string * string))
         (df : DataFrame) : result DataFrame :=
  match policy with
  | [] => Ok df
  | ch :: policy' =>
      df' <- _normalize_col sqrt df (fst ch) (snd ch) ;;
      normalize_each sqrt policy' df'
  end.

(** The sum of the numbers of a column. *)
Fixpoint finite_sum (col : Column) : Q :=
  match col with
  | [] => 0
  | Fin q :: col' => q + finite_sum col'
  | _ :: col' => finite_sum col'
  end.

(** No column that is normalised has the name of a normalised column, and
    every policy is a known one. *)
Definition independent_names (policy : list (string * string)) : bool :=
  forallb (fun ch =>
             forallb (fun ch' => negb (fst ch =? normalized_name (fst ch'))) policy)
          policy.

Definition known_policies (policy : list (string * string)) : bool :=
  forallb (fun ch => (snd ch =? "mean") || (snd ch =? "upper") || (snd ch =? "lower"))
          policy.

(** A square root for the examples: exact on the squares of integers. *)
Definition sqrt_floor (q : Q) : Q :=
  inject_Z (Z.sqrt (Qnum q / Z.pos (Qden q))).

Definition df_one_value : DataFrame :=
  [ ("hospital_beds", [ NaN; Fin 3; NaN ]) ].

Definition df_all_features : DataFrame :=
  [ ("days_since_first_case", [ Fin 10; Fin 40; Fin 25 ]);
    ("cpi_score_2019", [ Fin 53; Fin 41; Fin 80 ]);
    ("healthcare_oop_expenditure", [ Fin 23; Fin 11; Fin 35 ]);
    ("hospital_beds", [ Fin 3; NaN; Fin 8 ]);
    ("hci", [ Fin (8 # 10); Fin (6 # 10); Fin (7 # 10) ]);
    ("population_perc_over65", [ Fin 23; Fin 16; Fin 21 ]);
    ("population_perc_rural", [ Fin 30; Fin 18; Fin 23 ]);
    ("population_perc_diabetic", [ Fin 5; Fin 10; Fin 8 ]) ].

End BuildFeaturesSpec.

Module BuildFeatures64Spec.

Import Numpy BuildFeatures64.

Definition no_infinity (xs : list float) : Prop :=
  forall x, In x xs -> match x with Inf _ => False | _ => True end.

(** A numeric column: whole numbers, or floats none of which is an
    infinity. *)
Definition numeric_column (col : Column) : Prop :=
  match col with
  | Int64 _ => True
  | Float64 xs => no_infinity xs
  end.

(** The exact value of an entry, in units of 2^-1074; [None] for NaN. *)
Definition units (x : float) : option Z :=
  match x with
  | Fin k => Some k
  | _ => None
  end.

(** The entries of a column by their exact value, in units of 2^-1074. *)
Definition entries (col : Column) : list (option Z) :=
  match col with
  | Int64 xs => map (fun z => Some (z * one)%Z) xs
  | Float64 xs => map units xs
  end.

(** The maximum and the minimum of a column, among its numbers. *)
Definition is_maximum (col : Column) (M : Z) : Prop :=
  In (Some M) (entries col) /\
  forall v, In (Some v) (entries col) -> (v <= M)%Z.

Definition is_minimum (col : Column) (m : Z) : Prop :=
  In (Some m) (entries col) /\
  forall v, In (Some v) (entries col) -> (m <= v)%Z.

(** The range [M - m] of the column stays within its arithmetic: it is an
    int64 (for an int64 column), or is not rounded to an infinity (for a
    float64 column). *)
Definition range_fits (col : Column) (m M : Z) : Prop :=
  match col with
  | Int64 _ => (M - m < 2 ^ 63 * one)%Z
  | Float64 _ => isfinite (fsub (Fin M) (Fin m)) = true
  end.

(** How an entry [x] of a numeric column stands to its normalised value [y]:
    a number goes to a number between [lo] and [hi] (in units), to 0 when it
    is the anchor (the maximum for [upper], the minimum for [lower]); a
    missing value stays missing. *)
Definition normalized_within (lo hi anchor : Z) (x : option Z) (y : float) : Prop :=
  match x with
  | Some u => exists r, y = Fin r /\ (lo <= r <= hi)%Z /\ (u = anchor -> r = 0%Z)
  | None => y = NaN
  end.

Definition column_normalized_within (lo hi anchor : Z)
           (col : Column) (col' : list float) : Prop :=
  length col' = length (entries col) /\
  forall i x, nth_error (entries col) i = Some x ->
              exists y, nth_error col' i = Some y /\
                        normalized_within lo hi anchor x y.

(** What C4 says of the column [colname] of a frame, of minimum [m] and
    maximum [M]: [upper] adds a normalised column within [-1, 0] that is 0
    at the maximum, and [lower] one within [0, 1] that is 0 at the minimum,
    the input column left as it was. *)
Definition upper_lower_range (mean std : Column -> float) (df : DataFrame)
           (colname : string) (col : Column) (m M : Z) : Prop :=
  (exists df' col',
     _normalize_col mean std df colname "upper" = Ok df' /\
     getitem df' (colname ++ "_normalized")%string = Ok (Float64 col') /\
     getitem df' colname = Ok col /\
     column_normalized_within (- one) 0 M col col') /\
  (exists df' col',
     _normalize_col mean std df colname "lower" = Ok df' /\
     getitem df' (colname ++ "_normalized")%string = Ok (Float64 col') /\
     getitem df' colname = Ok col /\
     column_normalized_within 0 one m col col').

(** A float64 that is a whole number. *)
Definition of_Z (z : Z) : float := Fin (z * one).

(** A stand-in for [Series.mean] and [Series.std] in the examples of the
    range policies, which call neither. *)
Definition no_reduction (col : Column) : float := NaN.

Definition df_sample64 : DataFrame :=
  [ ("days_since_first_case", Int64 [ 10; 40; 25 ]%Z);
    ("cpi_score_2019", Float64 [ of_Z 53; of_Z 41; NaN; of_Z 80 ]) ].

(** An int64 column whose range, 2^64 - 2, is no int64. *)
Definition int64_extremes : Column :=
  Int64 [ 2 ^ 63 - 1; - (2 ^ 63 - 1); 0 ]%Z.

Definition df_int64_extremes : DataFrame :=
  [ ("days_since_first_case", int64_extremes) ].

(** Two float64 numbers whose difference, 2^1024, is no float64. *)
Definition df_float64_extremes : DataFrame :=
  [ ("hci", Float64 [ of_Z (2 ^ 1023); of_Z (- 2 ^ 1023) ]) ].

End BuildFeatures64Spec.

(** * Properties *)

(** ** The rounding of float64 and the wrap-around of int64 *)

Module NumpyProofs.

Import Numpy.

Local Open Scope Z_scope.

(** ** Rounding to the nearest whole number *)

Lemma rne_floor (n d : Z) : 0 < d -> n / d <= rne n d <= n / d + 1.
Proof.
  intros Hd. unfold rne. cbv zeta.
  destruct (2 * (n mod d) ?= d); try destruct (Z.even (n / d)); lia.
Qed.

Lemma rne_exact (m d : Z) : 0 < d -> rne (m * d) d = m.
Proof.
  intros Hd. unfold rne. cbv zeta.
  rewrite Z.div_mul by lia. rewrite Z.mod_mul by lia.
  assert (H : (2 * 0 ?= d) = Lt) by (apply Z.compare_lt_iff; lia).
  rewrite H. reflexivity.
Qed.

Lemma rne_mono (n1 n2 d : Z) : 0 < d -> n1 <= n2 -> rne n1 d <= rne n2 d.
Proof.
  intros Hd Hn.
  assert (Hq : n1 / d <= n2 / d) by (apply Z.div_le_mono; lia).
  destruct (Z.eq_dec (n1 / d) (n2 / d)) as [Heq|Hne].
  - assert (Hr : n1 mod d <= n2 mod d).
    { rewrite !Z.mod_eq by lia. rewrite Heq. lia. }
    unfold rne. cbv zeta. rewrite Heq.
    destruct (Z.compare_spec (2 * (n1 mod d)) d);
      destruct (Z.compare_spec (2 * (n2 mod d)) d);
      destruct (Z.even (n2 / d)); lia.
  - pose proof (rne_floor n1 d Hd). pose proof (rne_floor n2 d Hd). lia.
Qed.

Lemma rne_le (n m d : Z) : 0 < d -> n <= m * d -> rne n d <= m.
Proof.
  intros Hd Hn. rewrite <- (rne_exact m d Hd). apply rne_mono; assumption.
Qed.

Lemma rne_ge (n m d : Z) : 0 < d -> m * d <= n -> m <= rne n d.
Proof.
  intros Hd Hn. rewrite <- (rne_exact m d Hd). apply rne_mono; assumption.
Qed.

Lemma ulp_exponent_nonneg (n d : Z) : 0 <= ulp_exponent n d.
Proof. unfold ulp_exponent. lia. Qed.

(** A magnitude below one unit rounds to no unit or to one. *)
Lemma round_magnitude_small (n d : Z) :
  0 <= n < d -> 0 <= round_magnitude n d <= 1.
Proof.
  intros Hn. unfold round_magnitude, ulp_exponent. cbv zeta.
  rewrite Z.div_small by lia. simpl. rewrite Z.mul_1_r, Z.mul_1_r.
  pose proof (rne_floor n d ltac:(lia)) as H. rewrite Z.div_small in H by lia. lia.
Qed.

(** The binade of a magnitude of one unit or more holds its rounding. *)
Lemma round_magnitude_binade (n d : Z) :
  0 < d -> d <= n ->
  2 ^ Z.log2 (n / d) <= round_magnitude n d <= 2 ^ (Z.log2 (n / d) + 1).
Proof.
  intros Hd Hn.
  assert (Hq : 1 <= n / d) by (apply Z.div_le_lower_bound; lia).
  set (L := Z.log2 (n / d)).
  assert (HL : 0 <= L) by apply Z.log2_nonneg.
  destruct (Z.log2_spec (n / d) ltac:(lia)) as [Hlo Hhi]. fold L in Hlo, Hhi.
  unfold round_magnitude. cbv zeta. fold L.
  set (e := ulp_exponent n d).
  assert (He : 0 <= e <= L) by (unfold e, ulp_exponent; fold L; lia).
  set (s := 2 ^ e).
  assert (Hs : 0 < s) by (apply Z.pow_pos_nonneg; lia).
  assert (HLs : 2 ^ L = 2 ^ (L - e) * s).
  { unfold s. rewrite <- Z.pow_add_r by lia. f_equal; lia. }
  assert (HLs' : 2 ^ (L + 1) = 2 ^ (L - e + 1) * s).
  { unfold s. rewrite <- Z.pow_add_r by lia. f_equal; lia. }
  assert (Hn1 : 2 ^ L * d <= n).
  { pose proof (Z.mul_div_le n d Hd). nia. }
  assert (Hn2 : n < 2 ^ (L + 1) * d).
  { pose proof (Z.mod_pos_bound n d Hd). pose proof (Z.div_mod n d ltac:(lia)). nia. }
  assert (H1 : 2 ^ (L - e) <= rne n (d * s)).
  { apply rne_ge; [nia|]. rewrite HLs in Hn1. nia. }
  assert (H2 : rne n (d * s) <= 2 ^ (L - e + 1)).
  { apply rne_le; [nia|]. rewrite HLs' in Hn2. nia. }
  rewrite HLs, HLs'. split; apply Z.mul_le_mono_nonneg_r; lia.
Qed.

Lemma round_magnitude_nonneg (n d : Z) : 0 < d -> 0 <= n -> 0 <= round_magnitude n d.
Proof.
  intros Hd Hn. destruct (Z_lt_le_dec n d) as [Hlt|Hle].
  - apply round_magnitude_small; lia.
  - pose proof (round_magnitude_binade n d Hd Hle) as [H _].
    pose proof (Z.pow_pos_nonneg 2 (Z.log2 (n / d)) ltac:(lia) (Z.log2_nonneg _)). lia.
Qed.

Lemma round_magnitude_mono (n1 n2 d : Z) :
  0 < d -> 0 <= n1 <= n2 -> round_magnitude n1 d <= round_magnitude n2 d.
Proof.
  intros Hd [Hn1 Hn].
  assert (Hq : n1 / d <= n2 / d) by (apply Z.div_le_mono; lia).
  assert (Hlog : Z.log2 (n1 / d) <= Z.log2 (n2 / d)) by (apply Z.log2_le_mono; exact Hq).
  destruct (Z.eq_dec (ulp_exponent n1 d) (ulp_exponent n2 d)) as [Heq|Hne].
  - unfold round_magnitude. cbv zeta. rewrite Heq.
    apply Z.mul_le_mono_nonneg_r.
    + apply Z.pow_nonneg; lia.
    + apply rne_mono; [|lia].
      pose proof (Z.pow_pos_nonneg 2 (ulp_exponent n2 d) ltac:(lia)
                                   (ulp_exponent_nonneg n2 d)). nia.
  - assert (Hlt : Z.log2 (n1 / d) < Z.log2 (n2 / d))
      by (unfold ulp_exponent in Hne; lia).
    assert (Hn2 : d <= n2).
    { destruct (Z_lt_le_dec n2 d) as [H|H]; [|exact H].
      rewrite (Z.div_small n2 d) in Hlt by lia. simpl in Hlt.
      pose proof (Z.log2_nonneg (n1 / d)). lia. }
    pose proof (round_magnitude_binade n2 d Hd Hn2) as [Hlo2 _].
    assert (Hpow : 2 ^ (Z.log2 (n1 / d) + 1) <= 2 ^ Z.log2 (n2 / d))
      by (apply Z.pow_le_mono_r; lia).
    destruct (Z_lt_le_dec n1 d) as [Hsmall|Hbig].
    + pose proof (round_magnitude_small n1 d ltac:(lia)).
      pose proof (Z.pow_le_mono_r 2 1 (Z.log2 (n2 / d)) ltac:(lia)
                    ltac:(pose proof (Z.log2_nonneg (n1 / d)); lia)).
      lia.
    + pose proof (round_magnitude_binade n1 d Hd Hbig) as [_ Hhi1]. lia.
Qed.

(** A magnitude that stands on its own grid is not moved. *)
Lemma round_magnitude_on_grid (m n d : Z) :
  0 < d -> n = m * 2 ^ ulp_exponent n d * d -> round_magnitude n d = m * 2 ^ ulp_exponent n d.
Proof.
  intros Hd Hn. unfold round_magnitude. cbv zeta.
  set (s := 2 ^ ulp_exponent n d) in *.
  assert (Hs : 0 < s) by (apply Z.pow_pos_nonneg; [lia | apply ulp_exponent_nonneg]).
  rewrite Hn at 1. replace (m * s * d) with (m * (d * s)) by ring.
  rewrite rne_exact by nia. reflexivity.
Qed.

(** ** Rounded differences and quotients *)

Lemma round_units_zero (d : Z) : round_units 0 d = 0.
Proof. reflexivity. Qed.

Lemma round_units_pos (n d : Z) : 0 < n -> round_units n d = round_magnitude n d.
Proof.
  intros Hn. unfold round_units. rewrite Z.sgn_pos, Z.abs_eq by lia. lia.
Qed.

Lemma round_units_neg (n d : Z) : 0 < n -> round_units (- n) d = - round_magnitude n d.
Proof.
  intros Hn. unfold round_units. rewrite Z.sgn_neg, Z.abs_opp, Z.abs_eq by lia. lia.
Qed.

Lemma to_float_small (k : Z) : Z.abs k < overflow -> to_float k = Fin k.
Proof.
  intros Hk. unfold to_float.
  destruct (Z.leb_spec overflow (Z.abs k)); [lia | reflexivity].
Qed.

Lemma round_magnitude_one (d : Z) : 0 < d -> round_magnitude (d * one) d = one.
Proof.
  intros Hd.
  assert (He : ulp_exponent (d * one) d = 1022).
  { unfold ulp_exponent. rewrite Z.mul_comm, Z.div_mul by lia. reflexivity. }
  rewrite (round_magnitude_on_grid (2 ^ 52) (d * one) d Hd); rewrite He.
  - reflexivity.
  - change one with (2 ^ 52 * 2 ^ 1022). ring.
Qed.

Lemma round_magnitude_pos (n : Z) : 0 < n -> 0 < round_magnitude n 1.
Proof.
  intros Hn. pose proof (round_magnitude_binade n 1 ltac:(lia) ltac:(lia)) as [H _].
  pose proof (Z.pow_pos_nonneg 2 (Z.log2 (n / 1)) ltac:(lia) (Z.log2_nonneg _)). lia.
Qed.

Lemma one_lt_overflow : one < overflow.
Proof. reflexivity. Qed.

(** The quotient of a rounded difference by the rounded range. *)
Lemma quotient_within (u w : Z) :
  0 <= u <= w -> 0 < w -> round_magnitude w 1 < overflow ->
  (exists r, fdiv (round (- u) 1) (round w 1) = Fin r /\
             - one <= r <= 0 /\ (u = 0 -> r = 0)) /\
  (exists r, fdiv (round u 1) (round w 1) = Fin r /\
             0 <= r <= one /\ (u = 0 -> r = 0)).
Proof.
  intros [Hu Huw] Hw Hfin.
  set (B := round_magnitude w 1) in *.
  assert (HB : 0 < B) by (apply round_magnitude_pos; exact Hw).
  assert (Hden : round w 1 = Fin B).
  { unfold round. rewrite round_units_pos by exact Hw. apply to_float_small.
    fold B. lia. }
  rewrite Hden.
  destruct (Z.eq_dec u 0) as [->|Hne].
  - change (round (- 0) 1) with (Fin 0). change (round 0 1) with (Fin 0).
    unfold fdiv. destruct (Z.eqb_spec B 0); [lia|].
    change (0 * one * Z.sgn B) with 0.
    split; exists 0; (split; [reflexivity|]); pose proof one_lt_overflow;
      unfold one in *; lia.
  - set (A := round_magnitude u 1).
    assert (HA : 0 < A <= B).
    { split; [apply round_magnitude_pos; lia|].
      apply round_magnitude_mono; lia. }
    set (R := round_magnitude (A * one) B).
    assert (HR : 0 <= R <= one).
    { split.
      - apply round_magnitude_nonneg; [lia|]. unfold one. nia.
      - rewrite <- (round_magnitude_one B HB). apply round_magnitude_mono; [lia|].
        unfold one. nia. }
    pose proof one_lt_overflow as Hone.
    assert (Hquot : round (A * one) B = Fin R /\ round (- (A * one)) B = Fin (- R)).
    { unfold round. assert (0 < A * one) by (unfold one; nia).
      rewrite round_units_pos, round_units_neg by assumption. fold R.
      split; apply to_float_small; lia. }
    destruct Hquot as [Hpos Hneg].
    split.
    + exists (- R).
      assert (Hnum : round (- u) 1 = Fin (- A)).
      { unfold round. rewrite round_units_neg by lia. apply to_float_small.
        fold A. lia. }
      rewrite Hnum. unfold fdiv. destruct (Z.eqb_spec B 0); [lia|].
      rewrite Z.sgn_pos, Z.abs_eq by lia.
      replace (- A * one * 1) with (- (A * one)) by ring.
      split; [exact Hneg|]. split; [lia | intros; contradiction].
    + exists R.
      assert (Hnum : round u 1 = Fin A).
      { unfold round. rewrite round_units_pos by lia. apply to_float_small.
        fold A. lia. }
      rewrite Hnum. unfold fdiv. destruct (Z.eqb_spec B 0); [lia|].
      rewrite Z.sgn_pos, Z.abs_eq by lia.
      replace (A * one * 1) with (A * one) by ring.
      split; [exact Hpos|]. split; [lia | intros; contradiction].
Qed.

(** The rounding at work: 0.1 is 3602879701896397 * 2^-55 and 1/3 is
    6004799503160661 * 2^-54; 0.1 + 0.2 is the float after 0.3; 2^63 - 1 and
    10^16 + 1 are no float64, and a tie goes to the even significand. *)
Example round_known_values :
  round one 10 = Fin (3602879701896397 * 2 ^ 1019) /\
  round one 3 = Fin (6004799503160661 * 2 ^ 1020) /\
  round (3 * one) 10 = Fin (5404319552844595 * 2 ^ 1020) /\
  fsub (round one 10) (round (- 2 * one) 10) = Fin (5404319552844596 * 2 ^ 1020) /\
  of_int64 (2 ^ 63 - 1) = Fin (2 ^ 63 * one) /\
  of_int64 (10 ^ 16 + 1) = Fin (10 ^ 16 * one) /\
  of_int64 (10 ^ 16 + 3) = Fin ((10 ^ 16 + 4) * one) /\
  round (2 ^ 1024 * one) 1 = Inf false.
Proof. vm_compute. repeat split. Qed.

Example wrap64_known_values :
  wrap64 (2 ^ 62 + 2 ^ 62) = - 2 ^ 63 /\
  wrap64 (2 ^ 63 - 1 - - (2 ^ 63 - 1)) = -2 /\
  wrap64 (40 - 10) = 30.
Proof. vm_compute. repeat split. Qed.

(** ** Whole numbers *)

Lemma wrap64_small (z : Z) : - 2 ^ 63 <= z < 2 ^ 63 -> wrap64 z = z.
Proof.
  intros Hz. unfold wrap64. rewrite Z.mod_small; lia.
Qed.

Lemma wrap64_add (a b : Z) : wrap64 (wrap64 a + b) = wrap64 (a + b).
Proof.
  unfold wrap64. f_equal.
  replace ((a + 2 ^ 63) mod 2 ^ 64 - 2 ^ 63 + b + 2 ^ 63)
    with ((a + 2 ^ 63) mod 2 ^ 64 + b) by ring.
  rewrite Zplus_mod_idemp_l. f_equal. ring.
Qed.

Lemma round_magnitude_whole (z d : Z) :
  0 < d -> 0 < z < 2 ^ 53 -> round_magnitude (z * d * one) d = z * one.
Proof.
  intros Hd Hz.
  assert (Hlog : 0 <= Z.log2 z <= 52).
  { split; [apply Z.log2_nonneg|].
    assert (Z.log2 z < 53) by (apply Z.log2_lt_pow2; lia). lia. }
  assert (He : ulp_exponent (z * d * one) d = Z.log2 z + 1022).
  { unfold ulp_exponent.
    replace (z * d * one) with (z * one * d) by ring.
    rewrite Z.div_mul by lia. unfold one.
    rewrite Z.log2_mul_pow2 by lia. lia. }
  assert (Hp : 2 ^ (52 - Z.log2 z) * 2 ^ (Z.log2 z + 1022) = one).
  { rewrite <- Z.pow_add_r by lia. unfold one. f_equal. lia. }
  rewrite (round_magnitude_on_grid (z * 2 ^ (52 - Z.log2 z)) (z * d * one) d Hd);
    rewrite He.
  - rewrite <- Hp. ring.
  - rewrite <- Hp. ring.
Qed.

Lemma round64_whole (q : Q) (z : Z) :
  q == inject_Z z -> Z.abs z < 2 ^ 53 -> round64 q == inject_Z z.
Proof.
  intros Hq Hz. unfold round64. rewrite Qred_correct.
  assert (Hn : Qnum q = z * Zpos (Qden q)).
  { unfold Qeq in Hq. simpl in Hq. lia. }
  assert (Hr : round_units (Qnum q * one) (Zpos (Qden q)) = z * one).
  { rewrite Hn. unfold round_units.
    assert (Hone : 0 < one) by reflexivity.
    destruct (Z.lt_trichotomy z 0) as [Hneg|[->|Hpos]].
    - rewrite Z.sgn_neg, Z.abs_neq by nia.
      replace (- (z * Zpos (Qden q) * one)) with (- z * Zpos (Qden q) * one) by ring.
      rewrite round_magnitude_whole by lia. ring.
    - reflexivity.
    - rewrite Z.sgn_pos, Z.abs_eq by nia.
      rewrite round_magnitude_whole by lia. ring. }
  rewrite Hr. unfold Qeq. simpl. change (Zpos (2 ^ 1074)) with one. ring.
Qed.

End NumpyProofs.

(** ** make_dataset.py *)

Module MakeDatasetProofs.

Import Numpy NumpyProofs MakeDataset MakeDatasetSpec.

(** ** Most recent value of a covariate panel *)

Lemma filter_notnull_nil (row : list cell) :
  filter notnull row = [] -> all_null_from 0 row.
Proof.
  induction row as [|c row IH]; intros Hf j Hj; simpl in *.
  - lia.
  - destruct (notnull c) eqn:Hc; [discriminate|].
    destruct j as [|j]; [exact Hc|].
    apply IH; [exact Hf | lia].
Qed.

Lemma _helper_cons_later (c : cell) (row : list cell) :
  filter notnull row <> [] -> _helper (c :: row) = _helper row.
Proof.
  unfold _helper; simpl; intros Hne.
  destruct (filter notnull row) as [|d l] eqn:Hf; [congruence|].
  destruct (notnull c); reflexivity.
Qed.

Lemma _helper_cons_first (c : cell) (row : list cell) :
  filter notnull row = [] ->
  _helper (c :: row) = if notnull c then c else NaN.
Proof.
  unfold _helper; simpl; intros ->.
  destruct (notnull c); reflexivity.
Qed.

Lemma _helper_last_notnull (row : list cell) :
  last_notnull_from 0 row (_helper row).
Proof.
  induction row as [|c row IH].
  - right; split; [reflexivity|]. intros j Hj; simpl in Hj; lia.
  - destruct (filter notnull row) as [|d l] eqn:Hf.
    + rewrite _helper_cons_first by exact Hf.
      pose proof (filter_notnull_nil row Hf) as Hnull.
      destruct (notnull c) eqn:Hc.
      * left; exists 0%nat; simpl; repeat split; try lia; try exact Hc.
        intros j Hj; simpl in Hj. destruct j as [|j]; [lia|].
        simpl; apply Hnull; lia.
      * right; split; [reflexivity|].
        intros j Hj; simpl in Hj. destruct j as [|j]; [exact Hc|].
        simpl; apply Hnull; lia.
    + rewrite _helper_cons_later by (rewrite Hf; discriminate).
      destruct IH as [(j & Hj & Hv & Hnn & Hlater) | (Hv & Hall)].
      * left; exists (S j); simpl; repeat split; try lia; try assumption.
        intros j' Hj'; simpl in Hj'. destruct j' as [|j']; [lia|].
        simpl; apply Hlater; lia.
      * exfalso.
        assert (Hin : In d (filter notnull row)) by (rewrite Hf; left; reflexivity).
        apply filter_In in Hin as [Hin Hd].
        apply In_nth with (d := NaN) in Hin as (j & Hj & Hnth).
        specialize (Hall j (conj (Nat.le_0_l j) Hj)).
        rewrite Hnth in Hall; congruence.
Qed.

Lemma last_notnull_skipn (n : nat) (row : list cell) (v : cell) :
  last_notnull_from 0 (skipn n row) v -> last_notnull_from n row v.
Proof.
  assert (Hnth : forall j, nth j (skipn n row) NaN = nth (n + j) row NaN).
  { intros j. revert row; induction n as [|n IH]; intros row; simpl.
    - reflexivity.
    - destruct row as [|c row]; [destruct j; reflexivity | apply IH]. }
  assert (Hlen : length (skipn n row) = (length row - n)%nat) by apply length_skipn.
  intros [(j & Hj & Hv & Hnn & Hlater) | (Hv & Hall)].
  - left; exists (n + j)%nat; repeat split; try lia.
    + rewrite <- Hnth; exact Hv.
    + exact Hnn.
    + intros j' Hj'.
      replace j' with (n + (j' - n))%nat by lia.
      rewrite <- Hnth; apply Hlater; lia.
  - right; split; [exact Hv|].
    intros j Hj.
    replace j with (n + (j - n))%nat by lia.
    rewrite <- Hnth; apply Hall; lia.
Qed.

(** C1. For every row of a covariate panel, [_get_most_recent_value] skips
    the first 3 (metadata) columns and gives, under the row's own index
    label, the value of the last column, in column order, whose value is
    non-null; when every eligible column is null it gives the missing value
    [NaN], which is not the number 0.  The function is total: no row makes
    it raise. *)
Theorem C1_most_recent_value :
  forall (wb_series : DataFrame string cell) (i : nat) (k : string) (row : list cell),
    nth_error (rows wb_series) i = Some (k, row) ->
    exists v : cell,
      nth_error (_get_most_recent_value wb_series) i = Some (k, v) /\
      last_notnull_from 3 row v /\
      (all_null_from 3 row -> v = NaN /\ v <> Num 0).
Proof.
  intros wb_series i k row Hrow.
  exists (_helper (skipn 3 row)).
  assert (Hspec : last_notnull_from 3 row (_helper (skipn 3 row)))
    by (apply last_notnull_skipn, _helper_last_notnull).
  split; [|split].
  - unfold _get_most_recent_value, apply_rows, columns_from; simpl.
    rewrite map_map, nth_error_map, Hrow; reflexivity.
  - exact Hspec.
  - intros Hall.
    destruct Hspec as [(j & Hj & Hv & Hnn & _) | (Hv & _)].
    + rewrite <- Hv in Hnn. rewrite (Hall j Hj) in Hnn; discriminate.
    + rewrite Hv; split; [reflexivity | discriminate].
Qed.

Lemma C1_most_recent_value_witness :
  exists v : cell,
    nth_error (_get_most_recent_value panel_example) 0 = Some ("Italy", v) /\
    last_notnull_from 3
      [ Str "ITA"; Str "Hospital beds"; Str "SH.MED.BEDS.ZS"; Num 5; NaN; Num 3; NaN ] v /\
    (all_null_from 3
       [ Str "ITA"; Str "Hospital beds"; Str "SH.MED.BEDS.ZS"; Num 5; NaN; Num 3; NaN ] ->
     v = NaN /\ v <> Num 0).
Proof.
  apply (C1_most_recent_value panel_example 0 "Italy"); reflexivity.
Defined.

(** The two rows of the example: the last non-null value, not the first one,
    and the missing value for a row of nulls. *)
Example most_recent_value_example :
  _get_most_recent_value panel_example = [ ("Italy", Num 3); ("Chad", NaN) ].
Proof. reflexivity. Qed.

(** ** Country names *)

Lemma dict_get_value (m : list (string * string)) (k v : string) :
  dict_get m k = Some v -> In v (map snd m).
Proof.
  induction m as [|kv m IH]; simpl; [discriminate|].
  destruct (k =? fst kv); intros H.
  - left; congruence.
  - right; auto.
Qed.

Lemma rename_label_idempotent (m : list (string * string)) :
  targets_are_canonical m = true ->
  forall k, rename_label m (rename_label m k) = rename_label m k.
Proof.
  intros Hm k. unfold rename_label at 2 3.
  destruct (dict_get m k) as [v|] eqn:Hk.
  - unfold targets_are_canonical in Hm. rewrite forallb_forall in Hm.
    specialize (Hm v (dict_get_value _ _ _ Hk)).
    unfold rename_label. destruct (dict_get m v); [discriminate | reflexivity].
  - unfold rename_label; rewrite Hk; reflexivity.
Qed.

Lemma filter_map_twice {A : Type} (f : A -> A) (keep : A -> bool) (l : list A) :
  (forall a, f (f a) = f a) ->
  filter keep (map f (filter keep (map f l))) = filter keep (map f l).
Proof.
  intros Hf. induction l as [|a l IH]; simpl; [reflexivity|].
  destruct (keep (f a)) eqn:Hk; simpl.
  - rewrite Hf, Hk, IH; reflexivity.
  - exact IH.
Qed.

(** C5. Cleaning a country-indexed table twice (alternate names renamed to
    the canonical ones, then the excluded names dropped) gives the table that
    cleaning it once gives. *)
Theorem C5_clean_country_list_idempotent :
  forall (L V : Type) (df : DataFrame L V),
    _clean_country_list (_clean_country_list df) = _clean_country_list df.
Proof.
  intros L V df.
  unfold _clean_country_list, drop_index, rename_index; simpl.
  f_equal.
  apply filter_map_twice with
    (f := fun r : string * list V => (rename_label country_rename (fst r), snd r)).
  intros [k row]; simpl.
  rewrite rename_label_idempotent; reflexivity.
Qed.

(** ** Dropout of rows that lack data *)

Lemma missing_covariates_le_num_null (cols : list string) (row : list cell) :
  (missing_covariates cols row <= num_null row)%nat.
Proof.
  unfold missing_covariates, num_null.
  revert cols; induction row as [|c row IH]; intros [|l cols]; simpl; try lia.
  specialize (IH cols).
  destruct (is_covariate l), (isnull c); simpl; lia.
Qed.

Lemma label_not_dropped (labels : list string) (k : string) :
  existsb (String.eqb k) labels = false <-> ~ In k labels.
Proof.
  split.
  - intros Hex Hin.
    assert (existsb (String.eqb k) labels = true).
    { apply existsb_exists; exists k; split; [exact Hin | apply String.eqb_refl]. }
    congruence.
  - intros Hnin. destruct (existsb (String.eqb k) labels) eqn:Hex; [|reflexivity].
    apply existsb_exists in Hex as (k' & Hin & Heq).
    apply String.eqb_eq in Heq; subst; contradiction.
Qed.

Lemma drop_lacking_data_keeps (df_out : DataFrame string cell) (r : string * list cell) :
  In r (rows (drop_lacking_data df_out)) <->
  In r (rows df_out) /\
  forall r', In r' (rows df_out) -> fst r' = fst r -> (num_null (snd r') <= 1)%nat.
Proof.
  unfold drop_lacking_data, drop_index; simpl.
  rewrite filter_In, negb_true_iff, label_not_dropped, in_map_iff.
  split; intros [Hin Hkeep]; (split; [exact Hin|]).
  - intros r' Hin' Hlabel.
    destruct (1 <? num_null (snd r'))%nat eqn:Hn; [|apply Nat.ltb_ge in Hn; exact Hn].
    exfalso; apply Hkeep; exists r'; split; [exact Hlabel|].
    apply filter_In; auto.
  - intros (r' & Hlabel & Hin').
    apply filter_In in Hin' as [Hin' Hn].
    apply Nat.ltb_lt in Hn.
    specialize (Hkeep r' Hin' Hlabel); lia.
Qed.

(** C3, as amended.  The rows that [make_dataset] drops before it returns
    are those whose country key is on a row with two or more missing cells,
    the missing cells being counted over every column of the assembled table
    (the counts and the observed death rate as well as the covariates).  So
    a row with at most one missing cell is retained, unless it shares its key
    with a row that has more, and a row with two or more missing covariates is
    dropped. *)
Theorem C3_dropout_by_missing_cells :
  forall (df_out : DataFrame string cell) (r : string * list cell),
    In r (rows df_out) ->
    (In r (rows (drop_lacking_data df_out)) <->
     forall r', In r' (rows df_out) -> fst r' = fst r -> (num_null (snd r') <= 1)%nat) /\
    ((2 <= num_null (snd r))%nat -> ~ In r (rows (drop_lacking_data df_out))) /\
    ((2 <= missing_covariates (columns df_out) (snd r))%nat ->
     ~ In r (rows (drop_lacking_data df_out))).
Proof.
  intros df_out r Hin.
  assert (Hdrop : (2 <= num_null (snd r))%nat -> ~ In r (rows (drop_lacking_data df_out))).
  { intros Hn Hkept. apply drop_lacking_data_keeps in Hkept as [_ Hkeep].
    specialize (Hkeep r Hin eq_refl); lia. }
  split; [|split].
  - rewrite drop_lacking_data_keeps; tauto.
  - exact Hdrop.
  - intros Hn. apply Hdrop.
    pose proof (missing_covariates_le_num_null (columns df_out) (snd r)); lia.
Qed.

Lemma C3_dropout_by_missing_cells_witness :
  let r := ("Italy", [ Num 100; Num 5; Num (1 # 20); Num 40;
                       Num 53; Num 23; NaN; Num (8 # 10); Num 23; Num 30; Num 5 ]) in
  (In r (rows (drop_lacking_data df_out_one_missing)) <->
   forall r', In r' (rows df_out_one_missing) -> fst r' = fst r ->
              (num_null (snd r') <= 1)%nat) /\
  ((2 <= num_null (snd r))%nat -> ~ In r (rows (drop_lacking_data df_out_one_missing))) /\
  ((2 <= missing_covariates (columns df_out_one_missing) (snd r))%nat ->
   ~ In r (rows (drop_lacking_data df_out_one_missing))).
Proof.
  apply (C3_dropout_by_missing_cells df_out_one_missing).
  simpl; left; reflexivity.
Defined.

(** C3, as stated, fails: the row below misses one covariate only (the CPI
    score), and is dropped all the same, because its observed death rate
    (0 deaths over 0 cases) is missing too. *)
Lemma C3_counterexample_missing_death_rate :
  ~ dropout_by_missing_covariates df_out_no_cases.
Proof.
  intros Hclaim.
  destruct (Hclaim ("Atlantis", [ Num 0; Num 0; NaN; Num 0;
                                  NaN; Num 12; Num 3; Num (7 # 10);
                                  Num 20; Num 30; Num 8 ])) as [Hkeep _].
  - simpl; left; reflexivity.
  - assert (Hone : (missing_covariates (columns df_out_no_cases)
                      [ Num 0; Num 0; NaN; Num 0; NaN; Num 12; Num 3;
                        Num (7 # 10); Num 20; Num 30; Num 8 ] <= 1)%nat)
      by (vm_compute; lia).
    specialize (Hkeep Hone). vm_compute in Hkeep. exact Hkeep.
Qed.

(** A country without a case yet has no observed death rate, and one with
    deaths but no case an infinite one; neither raises. *)
Example death_rate_without_cases :
  death_rate_observed (Some 0) (Some 0) = NaN /\
  death_rate_observed (Some 1) (Some 0) = Inf false /\
  death_rate_observed None (Some 7) = NaN /\
  isnull (death_rate_observed (Some 0) (Some 0)) = true /\
  isnull (death_rate_observed (Some 1) (Some 0)) = false.
Proof. repeat split. Qed.

Example death_rate_one_in_five :
  exists q, death_rate_observed (Some 1) (Some 5) = Num q /\ q == 2 # 10.
Proof. eexists; split; [reflexivity | reflexivity]. Qed.

(** ** The date called today *)

Lemma fold_left_max_spec (ds : list Z) (a : Z) :
  let m := fold_left Z.max ds a in
  (a <= m)%Z /\ (forall d, In d ds -> (d <= m)%Z) /\ (m = a \/ In m ds).
Proof.
  revert a; induction ds as [|d ds IH]; intros a; simpl.
  - repeat split; [lia | intros d [] | left; reflexivity].
  - destruct (IH (Z.max a d)) as (Hge & Hall & Hin).
    split; [lia|]. split.
    + intros d' [<- | Hd']; [lia | apply Hall, Hd'].
    + destruct Hin as [Heq | Hin]; [|right; right; exact Hin].
      destruct (Z.max_spec a d) as [[_ Hm] | [_ Hm]]; rewrite Hm in *.
      * right; left; symmetry; exact Heq.
      * left; exact Heq.
Qed.

Lemma index_max_spec (dates : list Z) (m : Z) :
  index_max dates = Some m <->
  In m dates /\ forall d, In d dates -> (d <= m)%Z.
Proof.
  destruct dates as [|a ds]; simpl.
  - split; [discriminate | intros [[] _]].
  - destruct (fold_left_max_spec ds a) as (Hge & Hall & Hin). split.
    + intros [= <-]. split.
      * destruct Hin as [-> | Hin]; [left; reflexivity | right; exact Hin].
      * intros d [<- | Hd]; [exact Hge | apply Hall, Hd].
    + intros [Hm Hub]. f_equal.
      assert (m <= fold_left Z.max ds a)%Z
        by (destruct Hm as [<- | Hm]; [exact Hge | apply Hall, Hm]).
      assert (fold_left Z.max ds a <= m)%Z.
      { apply Hub. destruct Hin as [-> | Hin]; [left; reflexivity | right; exact Hin]. }
      lia.
Qed.

Lemma position_In (c : Z) (cols : list Z) :
  In c cols -> exists p, position c cols = Some p.
Proof.
  induction cols as [|c' cols IH]; simpl; [intros []|].
  intros Hin. destruct (Z.eqb_spec c c') as [->|Hne]; [eauto|].
  destruct Hin as [->|Hin]; [congruence|].
  destruct (IH Hin) as [p ->]; simpl; eauto.
Qed.

Lemma position_not_In (c : Z) (cols : list Z) :
  ~ In c cols -> position c cols = None.
Proof.
  induction cols as [|c' cols IH]; simpl; [reflexivity|].
  intros Hnin. destruct (Z.eqb_spec c c') as [->|Hne]; [tauto|].
  rewrite IH by tauto; reflexivity.
Qed.

(** C7, as amended.  The date that [make_dataset] calls today is the most
    recent date of the rolled-up cases table alone.  When the deaths table
    has that date too, it is the most recent date the two tables share and
    the output is built from the two columns of that date; when the deaths
    table does not have it, the lookup of the deaths column raises
    [KeyError] and no output is built. *)
Theorem C7_today_is_latest_cases_date :
  forall (cases deaths : DataFrame Z Q) (today : Z),
    todays_date cases = Some today ->
    In today (columns cases) /\
    (forall d, In d (columns cases) -> (d <= today)%Z) /\
    (In today (columns deaths) ->
     most_recent_shared_date cases deaths = Some today /\
     exists c s, todays_counts cases deaths = Ok (today, c, s) /\
                 getitem 0 cases today = Ok c /\ getitem 0 deaths today = Ok s) /\
    (~ In today (columns deaths) -> todays_counts cases deaths = Raise KeyError).
Proof.
  intros cases deaths today Htoday.
  pose proof Htoday as Hmax. unfold todays_date in Hmax.
  apply index_max_spec in Hmax as [Hin Hub].
  split; [exact Hin|]. split; [exact Hub|]. split.
  - intros Hdeaths. split.
    + apply index_max_spec. unfold shared_dates. split.
      * apply filter_In; split; [exact Hin|].
        apply existsb_exists; exists today; split; [exact Hdeaths | apply Z.eqb_refl].
      * intros d Hd. apply filter_In in Hd as [Hd _]. apply Hub, Hd.
    + unfold todays_counts. rewrite Htoday.
      unfold getitem.
      destruct (position_In _ _ Hin) as [p ->].
      destruct (position_In _ _ Hdeaths) as [q ->].
      simpl; eauto.
  - intros Hnone. unfold todays_counts. rewrite Htoday.
    unfold getitem.
    destruct (position_In _ _ Hin) as [p ->].
    rewrite (position_not_In _ _ Hnone); reflexivity.
Qed.

Lemma C7_today_is_latest_cases_date_witness :
  In 3%Z (columns cases_four_days) /\
  (forall d, In d (columns cases_four_days) -> (d <= 3)%Z) /\
  (In 3%Z (columns deaths_four_days) ->
   most_recent_shared_date cases_four_days deaths_four_days = Some 3%Z /\
   exists c s, todays_counts cases_four_days deaths_four_days = Ok (3%Z, c, s) /\
               getitem 0 cases_four_days 3%Z = Ok c /\
               getitem 0 deaths_four_days 3%Z = Ok s) /\
  (~ In 3%Z (columns deaths_four_days) ->
   todays_counts cases_four_days deaths_four_days = Raise KeyError).
Proof.
  apply (C7_today_is_latest_cases_date cases_four_days deaths_four_days 3%Z).
  reflexivity.
Defined.

(** C7, as stated, fails: the cases table below runs one day further than
    the deaths table.  The most recent date they share is day 2, yet today is
    day 3, and the output is not built. *)
Lemma C7_counterexample_cases_one_day_ahead :
  ~ built_from_most_recent_shared_date cases_four_days deaths_three_days.
Proof.
  intros [Htoday _].
  vm_compute in Htoday. discriminate Htoday.
Qed.

Example today_when_cases_run_ahead :
  most_recent_shared_date cases_four_days deaths_three_days = Some 2%Z /\
  todays_date cases_four_days = Some 3%Z /\
  todays_counts cases_four_days deaths_three_days = Raise KeyError.
Proof. repeat split. Qed.

(** ** Days since the n-th case *)

Lemma combine_map_snd {A B C : Type} (f : B -> C) (l : list A) (l' : list B) :
  combine l (map f l') = map (fun ab => (fst ab, f (snd ab))) (combine l l').
Proof.
  revert l'; induction l as [|a l IH]; intros [|b l']; simpl; try reflexivity.
  rewrite IH; reflexivity.
Qed.

(** Once the scan holds a value that nothing later undercuts, it keeps it. *)
Lemma idxmin_scan_keeps (d : Z) (b : Q) (cells : list (Z * option Q)) :
  (forall d' v', In (d', Some v') cells -> b <= v') ->
  idxmin_scan (Some (d, b)) cells = Some d.
Proof.
  induction cells as [|[d' [v'|]] cells IH]; intros Hge; simpl.
  - reflexivity.
  - assert (Hle : b <= v') by (apply (Hge d'); left; reflexivity).
    apply Qle_bool_iff in Hle. unfold Qlt_bool; rewrite Hle; simpl.
    apply IH. intros d'' v'' Hin; apply (Hge d''); right; exact Hin.
  - apply IH. intros d'' v'' Hin; apply (Hge d''); right; exact Hin.
Qed.

Lemma non_decreasing_tail (v : Q) (row : list Q) :
  non_decreasing (v :: row) ->
  non_decreasing row /\ forall x, In x row -> v <= x.
Proof.
  intros Hmono; split.
  - intros i j Hij. apply (Hmono (S i) (S j)); simpl; lia.
  - intros x Hx. apply In_nth with (d := 0) in Hx as (j & Hj & <-).
    apply (Hmono 0%nat (S j)); simpl; lia.
Qed.

(** On a non-decreasing row the column of the least count that reaches the
    threshold is the leftmost column that reaches it. *)
Lemma idxmin_is_first_date_reaching (n : Q) (row : list Q) (cols : list Z) :
  non_decreasing row ->
  idxmin_scan None
    (combine cols (map (fun v => if Qle_bool n v then Some v else None) row))
  = first_date_reaching n (combine cols row).
Proof.
  revert cols; induction row as [|v row IH]; intros cols Hmono.
  - destruct cols; reflexivity.
  - destruct cols as [|d cols]; [reflexivity|].
    apply non_decreasing_tail in Hmono as [Htail Hhead].
    simpl. destruct (Qle_bool n v) eqn:Hn.
    + apply idxmin_scan_keeps.
      intros d' v' Hin. apply in_combine_r in Hin.
      apply in_map_iff in Hin as (x & Hx & Hin).
      destruct (Qle_bool n x); [|discriminate].
      injection Hx as <-. apply Hhead, Hin.
    + apply IH, Htail.
Qed.

Lemma raw_days_since_non_decreasing (cols : list Z) (n : Q) (row : list Q) :
  non_decreasing row ->
  raw_days_since cols n row = days_since_threshold cols n row.
Proof.
  intros Hmono. unfold raw_days_since, days_since_threshold.
  rewrite idxmin_is_first_date_reaching by exact Hmono. reflexivity.
Qed.

(** The series that [_compute_days_since_nth_case] returns, row by row. *)
Lemma _compute_days_since_nth_case_row
      (df_cases : DataFrame Z Q) (n : Q) (i : nat) (k : string) (row : list Q) :
  columns df_cases <> [] ->
  nth_error (rows df_cases) i = Some (k, row) ->
  exists s raw,
    _compute_days_since_nth_case df_cases n = Ok s /\
    raw_days_since (columns df_cases) n row = Some raw /\
    nth_error s i =
      Some (k, Some (if k =? "Mainland China" then (raw + 30)%Z else raw)).
Proof.
  intros Hcols Hrow.
  unfold _compute_days_since_nth_case, idxmin_rows, raw_days_since, where_ge.
  cbn [columns rows].
  destruct (columns df_cases) as [|c cols] eqn:Hc; [congruence|].
  cbn [bind].
  destruct (index_max (c :: cols)) as [columns_max|] eqn:Hmax; [|discriminate].
  eexists; eexists; split; [reflexivity|]. split; [reflexivity|].
  unfold fillna, apply_rows; cbn [columns rows].
  match goal with
  | |- context [if ?b then _ else _] => destruct b eqn:Hchina
  end.
  - rewrite !map_map, nth_error_map, Hrow. cbn [option_map fst snd].
    destruct (k =? "Mainland China"); simpl;
      destruct (idxmin_scan None _); reflexivity.
  - rewrite !map_map, nth_error_map, Hrow. cbn [option_map fst snd].
    destruct (String.eqb_spec k "Mainland China") as [->|Hne].
    + exfalso.
      assert (Hex : existsb (String.eqb "Mainland China")
                      (map fst (map (fun kx : string * option Z =>
                         (fst kx, match snd kx with
                                  | Some x => Some (columns_max - x)%Z
                                  | None => Some 0%Z
                                  end))
                        (map (fun r : string * list (option Q) =>
                                (fst r, idxmin_scan None (combine (c :: cols) (snd r))))
                           (map (fun r : string * list Q =>
                                   (fst r, map (fun v => if Qle_bool n v then Some v else None)
                                               (snd r)))
                                (rows df_cases))))) = true).
      { apply existsb_exists. exists "Mainland China". split; [|reflexivity].
        rewrite !map_map; cbn [fst snd].
        apply in_map_iff. exists ("Mainland China", row). split; [reflexivity|].
        eapply nth_error_In; exact Hrow. }
      congruence.
    + destruct (idxmin_scan None _); reflexivity.
Qed.

(** C9.  The value that [_compute_days_since_nth_case] returns for a row
    keyed [Mainland China] is the raw value computed for that row plus
    exactly 30; the value of a row with any other key is its raw value. *)
Theorem C9_mainland_china_plus_30 :
  forall (df_cases : DataFrame Z Q) (n : Q) (i : nat) (k : string) (row : list Q),
    columns df_cases <> [] ->
    nth_error (rows df_cases) i = Some (k, row) ->
    exists s raw,
      _compute_days_since_nth_case df_cases n = Ok s /\
      raw_days_since (columns df_cases) n row = Some raw /\
      (k = "Mainland China" -> nth_error s i = Some (k, Some (raw + 30)%Z)) /\
      (k <> "Mainland China" -> nth_error s i = Some (k, Some raw)).
Proof.
  intros df_cases n i k row Hcols Hrow.
  destruct (_compute_days_since_nth_case_row df_cases n i k row Hcols Hrow)
    as (s & raw & Hs & Hraw & Hnth).
  exists s, raw. repeat split; try assumption.
  - intros ->. exact Hnth.
  - intros Hne. apply String.eqb_neq in Hne. rewrite Hne in Hnth. exact Hnth.
Qed.

Lemma C9_mainland_china_plus_30_witness :
  exists s raw,
    _compute_days_since_nth_case cases_with_china 1 = Ok s /\
    raw_days_since (columns cases_with_china) 1 [ 0; 1; 5 ]%Q = Some raw /\
    ("Mainland China" = "Mainland China" ->
     nth_error s 1 = Some ("Mainland China", Some (raw + 30)%Z)) /\
    ("Mainland China" <> "Mainland China" ->
     nth_error s 1 = Some ("Mainland China", Some raw)).
Proof.
  apply (C9_mainland_china_plus_30 cases_with_china 1 1 "Mainland China").
  - discriminate.
  - reflexivity.
Defined.

Example days_since_with_china :
  _compute_days_since_nth_case cases_with_china 1
  = Ok [ ("Italy", Some 1%Z); ("Mainland China", Some 31%Z); ("Chad", Some 0%Z) ].
Proof. reflexivity. Qed.

(** C2, as amended.  For every row of a case table (one date column at
    least) whose key is not [Mainland China] and whose counts never decrease
    from one date to the next, [_compute_days_since_nth_case] returns the
    latest date of the table minus the leftmost date at which the count
    reaches or exceeds the threshold, in days; for a row that never reaches
    the threshold it returns 0, which is a number and not the missing
    value. *)
Theorem C2_days_since_nth_case :
  forall (df_cases : DataFrame Z Q) (n : Q) (i : nat) (k : string) (row : list Q),
    columns df_cases <> [] ->
    nth_error (rows df_cases) i = Some (k, row) ->
    non_decreasing row ->
    k <> "Mainland China" ->
    exists s d,
      _compute_days_since_nth_case df_cases n = Ok s /\
      days_since_threshold (columns df_cases) n row = Some d /\
      nth_error s i = Some (k, Some d) /\
      (first_date_reaching n (combine (columns df_cases) row) = None -> d = 0%Z).
Proof.
  intros df_cases n i k row Hcols Hrow Hmono Hk.
  destruct (_compute_days_since_nth_case_row df_cases n i k row Hcols Hrow)
    as (s & raw & Hs & Hraw & Hnth).
  apply String.eqb_neq in Hk. rewrite Hk in Hnth.
  rewrite raw_days_since_non_decreasing in Hraw by exact Hmono.
  exists s, raw. repeat split; try assumption.
  intros Hnever. unfold days_since_threshold in Hraw.
  rewrite Hnever in Hraw.
  destruct (index_max (columns df_cases)); [|discriminate].
  congruence.
Qed.

Lemma non_decreasing_0_1_5 : non_decreasing [ 0; 1; 5 ]%Q.
Proof.
  intros i j Hij; simpl in Hij.
  destruct i as [|[|[|i]]]; destruct j as [|[|[|j]]]; try lia;
    simpl; unfold Qle; simpl; lia.
Qed.

Lemma C2_days_since_nth_case_witness :
  exists s d,
    _compute_days_since_nth_case cases_with_china 1 = Ok s /\
    days_since_threshold (columns cases_with_china) 1 [ 0; 1; 5 ]%Q = Some d /\
    nth_error s 0 = Some ("Italy", Some d) /\
    (first_date_reaching 1 (combine (columns cases_with_china) [ 0; 1; 5 ]%Q) = None ->
     d = 0%Z).
Proof.
  apply (C2_days_since_nth_case cases_with_china 1 0 "Italy").
  - discriminate.
  - reflexivity.
  - exact non_decreasing_0_1_5.
  - discriminate.
Defined.

(** C2, as stated, fails on the row of [Mainland China]: its counts never
    decrease and reach 1 on day 1 of 0..2, one day before the latest date, yet
    the value returned for it is 31. *)
Lemma C2_counterexample_mainland_china :
  ~ days_since_on_every_row cases_with_china 1.
Proof.
  intros Hclaim.
  destruct (Hclaim 1%nat "Mainland China" [ 0; 1; 5 ]%Q)
    as (s & d & Hs & Hd & Hnth).
  - discriminate.
  - reflexivity.
  - exact non_decreasing_0_1_5.
  - vm_compute in Hs. injection Hs as <-.
    vm_compute in Hd. injection Hd as <-.
    vm_compute in Hnth. discriminate Hnth.
Qed.

(** ** Rollup by country *)

Lemma length_skipna_add (ts : list dtype) (out : list Q) (values : list (option Q)) :
  length ts = length out -> length out = length values ->
  length (skipna_add ts out values) = length out.
Proof.
  revert out values; induction ts as [|t ts IH]; intros [|o out] [|v values]; simpl;
    try discriminate; try reflexivity.
  intros [= Ht] [= Hv]. rewrite IH by assumption. reflexivity.
Qed.

Lemma nth_skipna_add (ts : list dtype) (out : list Q) (values : list (option Q))
      (j : nat) (t : dtype) :
  length ts = length out -> length out = length values ->
  nth_error ts j = Some t ->
  nth j (skipna_add ts out values) 0 = add_cell t (nth j out 0) (nth j values None).
Proof.
  revert out values j; induction ts as [|t0 ts IH]; intros [|o out] [|v values] j; simpl;
    try discriminate; try (destruct j; discriminate).
  intros [= Ht] [= Hv] Hj. destruct j as [|j]; simpl in Hj.
  - injection Hj as ->. reflexivity.
  - apply IH; assumption.
Qed.

(** The cell of column [j] after the records [rs] are added to [out], one
    after the other. *)
Lemma nth_fold_skipna_add (cells : csse_record -> list (option Q))
      (rs : list csse_record) (ts : list dtype) (out : list Q) (j : nat) (t : dtype) :
  (forall r, In r rs -> length (cells r) = length out) ->
  length ts = length out ->
  nth_error ts j = Some t ->
  length (fold_left (skipna_add ts) (map cells rs) out) = length out /\
  nth j (fold_left (skipna_add ts) (map cells rs) out) 0
  = fold_left (add_cell t) (map (fun r => nth j (cells r) None) rs) (nth j out 0).
Proof.
  revert out; induction rs as [|r rs IH]; intros out Hlen Hts Hj; simpl.
  - split; reflexivity.
  - assert (Hr : length out = length (cells r))
      by (symmetry; apply Hlen; left; reflexivity).
    pose proof (length_skipna_add ts out (cells r) Hts Hr) as Hout.
    destruct (IH (skipna_add ts out (cells r))) as [IHlen IHnth].
    + intros r' Hr'. rewrite Hout. apply Hlen; right; exact Hr'.
    + congruence.
    + exact Hj.
    + split; [congruence|].
      rewrite IHnth, (nth_skipna_add ts out (cells r) j t) by assumption.
      reflexivity.
Qed.

Lemma group_of_group_add (ts : list dtype) (k k' : string) (values : list (option Q))
      (groups : list (string * list Q)) :
  group_of k' (group_add ts k values groups) =
  if k' =? k
  then Some (skipna_add ts (match group_of k groups with
                            | Some out => out
                            | None => repeat 0 (length values)
                            end) values)
  else group_of k' groups.
Proof.
  induction groups as [|g groups IH]; simpl.
  - destruct (k' =? k); reflexivity.
  - destruct (String.eqb_spec k (fst g)) as [Hk|Hk]; simpl.
    + subst k. destruct (k' =? fst g); reflexivity.
    + rewrite IH.
      destruct (String.eqb_spec k' (fst g)) as [Hk'|Hk']; [|reflexivity].
      subst k'. destruct (String.eqb_spec (fst g) k); [congruence | reflexivity].
Qed.

Lemma keys_group_add (ts : list dtype) (k x : string) (values : list (option Q))
      (groups : list (string * list Q)) :
  In x (map fst (group_add ts k values groups)) -> x = k \/ In x (map fst groups).
Proof.
  induction groups as [|g groups IH]; simpl.
  - intros [<-|[]]; left; reflexivity.
  - destruct (k =? fst g); simpl.
    + intros H; right; exact H.
    + intros [<-|H]; [right; left; reflexivity|].
      destruct (IH H); [left | right; right]; assumption.
Qed.

Lemma NoDup_group_add (ts : list dtype) (k : string) (values : list (option Q))
      (groups : list (string * list Q)) :
  NoDup (map fst groups) -> NoDup (map fst (group_add ts k values groups)).
Proof.
  induction groups as [|g groups IH]; simpl; intros Hnd.
  - constructor; [intros [] | constructor].
  - inversion Hnd as [|x l Hnin Hnd']; subst.
    destruct (String.eqb_spec k (fst g)) as [Hk|Hk]; simpl.
    + constructor; assumption.
    + constructor; [|apply IH; exact Hnd'].
      intros Hin. apply keys_group_add in Hin as [Hin|Hin]; [congruence | contradiction].
Qed.

Lemma NoDup_fold_group_record (ts : list dtype)
      (cells : csse_record -> list (option Q)) (rs : list csse_record)
      (groups : list (string * list Q)) :
  NoDup (map fst groups) ->
  NoDup (map fst (fold_left (group_record ts cells) rs groups)).
Proof.
  revert groups; induction rs as [|r rs IH]; intros groups Hnd; simpl; [exact Hnd|].
  apply IH. unfold group_record.
  destruct (Country_Region r); [apply NoDup_group_add|]; exact Hnd.
Qed.

(** The group of a key after the records [rs]: the group it had (or zeros)
    with the cells of its records added, in the order of the records. *)
Lemma group_of_fold_group_record (ts : list dtype)
      (cells : csse_record -> list (option Q)) (k : string) (n : nat)
      (rs : list csse_record) (groups : list (string * list Q)) :
  (forall r, In r rs -> length (cells r) = n) ->
  group_of k (fold_left (group_record ts cells) rs groups) =
  match group_of k groups, filter (has_key k) rs with
  | None, [] => None
  | Some out, mine => Some (fold_left (skipna_add ts) (map cells mine) out)
  | None, mine => Some (fold_left (skipna_add ts) (map cells mine) (repeat 0 n))
  end.
Proof.
  revert groups; induction rs as [|r rs IH]; intros groups Hlen; simpl.
  - destruct (group_of k groups); reflexivity.
  - rewrite IH by (intros r' Hr'; apply Hlen; right; exact Hr').
    unfold group_record.
    destruct (Country_Region r) as [k'|] eqn:Hkey.
    + assert (Hmine : has_key k r = (k' =? k))
        by (unfold has_key; rewrite Hkey; reflexivity).
      rewrite Hmine, group_of_group_add, (Hlen r (or_introl eq_refl)).
      destruct (String.eqb_spec k k') as [->|Hne].
      * rewrite String.eqb_refl. destruct (group_of k' groups); reflexivity.
      * destruct (String.eqb_spec k' k); [congruence|].
        destruct (group_of k groups); reflexivity.
    + assert (Hmine : has_key k r = false)
        by (unfold has_key; rewrite Hkey; reflexivity).
      rewrite Hmine. destruct (group_of k groups); reflexivity.
Qed.

(** ** Sums that stay within the arithmetic of their column *)

Lemma whole_spec (x : Q) : whole x = true -> x == inject_Z (Qfloor x).
Proof.
  unfold whole. apply Qeq_bool_iff.
Qed.

Lemma sum_of_whole (xs : list Q) :
  forallb whole xs = true -> fold_right Qplus 0 xs == inject_Z (total xs).
Proof.
  unfold total. induction xs as [|x xs IH]; simpl; intros Hall.
  - reflexivity.
  - apply andb_true_iff in Hall as [Hx Hall].
    rewrite (IH Hall), inject_Z_plus, <- (whole_spec x Hx). reflexivity.
Qed.

Lemma Qfloor_plus_whole (acc x : Q) (a : Z) :
  acc == inject_Z a -> whole x = true -> acc + x == inject_Z (a + Qfloor x).
Proof.
  intros Hacc Hx. rewrite inject_Z_plus, <- (whole_spec x Hx), Hacc. reflexivity.
Qed.

(** An int64 column: the sum of the whole numbers, wrapped around. *)
Lemma fold_add_int64 (vs : list (option Q)) (acc : Q) (a p : Z) :
  acc == inject_Z a -> a = p \/ a = wrap64 p ->
  forallb whole (present_values vs) = true ->
  exists a',
    fold_left (add_cell int64) vs acc == inject_Z a' /\
    (a' = (p + total (present_values vs))%Z \/
     a' = wrap64 (p + total (present_values vs))).
Proof.
  revert acc a p; induction vs as [|[x|] vs IH]; intros acc a p Hacc Hap Hall.
  - exists a. split; [exact Hacc|]. unfold total; simpl.
    rewrite Z.add_0_r. exact Hap.
  - cbn [present_values forallb] in Hall. apply andb_true_iff in Hall as [Hx Hall].
    cbn [fold_left add_cell].
    assert (Hfloor : Qfloor (acc + x) = (a + Qfloor x)%Z).
    { rewrite (Qfloor_comp _ _ (Qfloor_plus_whole acc x a Hacc Hx)). apply Qfloor_Z. }
    rewrite Hfloor.
    destruct (IH (inject_Z (wrap64 (a + Qfloor x))) (wrap64 (a + Qfloor x))
                 (p + Qfloor x)%Z) as (a' & Ha' & Hp').
    + reflexivity.
    + right. destruct Hap as [->| ->]; [reflexivity | apply wrap64_add].
    + exact Hall.
    + exists a'. split; [exact Ha'|]. cbn [present_values].
      unfold total in *. cbn [map fold_right].
      rewrite Z.add_assoc. exact Hp'.
  - cbn [fold_left add_cell present_values]. apply (IH acc a p); assumption.
Qed.

Lemma total_magnitude_nonneg (xs : list Q) : (0 <= total_magnitude xs)%Z.
Proof.
  unfold total_magnitude. induction xs as [|x xs IH]; simpl; lia.
Qed.

(** A float64 column of whole numbers whose magnitudes add up to less than
    2^53: no addition is rounded. *)
Lemma fold_add_float64 (vs : list (option Q)) (acc : Q) (a : Z) :
  acc == inject_Z a ->
  forallb whole (present_values vs) = true ->
  (Z.abs a + total_magnitude (present_values vs) < 2 ^ 53)%Z ->
  fold_left (add_cell float64) vs acc == inject_Z (a + total (present_values vs)).
Proof.
  revert acc a; induction vs as [|[x|] vs IH]; intros acc a Hacc Hall Hsmall.
  - unfold total; simpl. rewrite Z.add_0_r. exact Hacc.
  - cbn [present_values forallb] in Hall. apply andb_true_iff in Hall as [Hx Hall].
    cbn [present_values] in Hsmall. unfold total_magnitude in Hsmall.
    cbn [map fold_right] in Hsmall. fold (total_magnitude (present_values vs)) in Hsmall.
    pose proof (total_magnitude_nonneg (present_values vs)) as Hmag.
    cbn [fold_left add_cell].
    rewrite (IH (round64 (acc + x)) (a + Qfloor x)%Z).
    + cbn [present_values]. unfold total. cbn [map fold_right].
      rewrite Z.add_assoc. reflexivity.
    + apply round64_whole; [apply Qfloor_plus_whole; assumption | lia].
    + exact Hall.
    + lia.
  - cbn [fold_left add_cell present_values]. apply IH; assumption.
Qed.

Lemma group_of_In (k : string) (out : list Q) (groups : list (string * list Q)) :
  group_of k groups = Some out -> In (k, out) groups.
Proof.
  induction groups as [|[k' out'] groups IH]; simpl; [discriminate|].
  destruct (String.eqb_spec k k') as [->|Hne].
  - intros [= ->]; left; reflexivity.
  - intros H; right; exact (IH H).
Qed.

Lemma In_group_of (k : string) (out : list Q) (groups : list (string * list Q)) :
  NoDup (map fst groups) -> In (k, out) groups -> group_of k groups = Some out.
Proof.
  induction groups as [|[k' out'] groups IH]; simpl; [intros _ []|].
  intros Hnd Hin. inversion Hnd as [|x l Hnin Hnd']; subst.
  destruct Hin as [[= -> ->]|Hin].
  - rewrite String.eqb_refl; reflexivity.
  - destruct (String.eqb_spec k k') as [->|Hne]; [|exact (IH Hnd' Hin)].
    exfalso; apply Hnin. apply in_map_iff; exists (k', out); auto.
Qed.

Lemma In_insert_by_label {V : Type} (x r : string * V) (l : list (string * V)) :
  In x (insert_by_label r l) <-> x = r \/ In x l.
Proof.
  induction l as [|r' l IH]; simpl.
  - intuition.
  - destruct (fst r <=? fst r')%string; simpl; [intuition|].
    rewrite IH; intuition.
Qed.

Lemma In_sort_index {V : Type} (x : string * V) (l : list (string * V)) :
  In x (sort_index l) <-> In x l.
Proof.
  unfold sort_index. induction l as [|r l IH]; simpl; [tauto|].
  rewrite In_insert_by_label, IH. intuition.
Qed.

(** A kept column, and its cell in a row, after the columns that are not
    kept are dropped. *)
Lemma nth_error_kept_column {V : Type} (keep : string -> bool)
      (cols : list string) (vals : list V) (j : nat) (c : string) (v : V) :
  nth_error cols j = Some c -> keep c = true -> nth_error vals j = Some v ->
  let p := length (filter keep (firstn j cols)) in
  nth_error (filter keep cols) p = Some c /\
  nth_error (map snd (filter (fun cv => keep (fst cv)) (combine cols vals))) p = Some v.
Proof.
  revert j vals; induction cols as [|c0 cols IH]; intros j vals Hc Hkeep Hv.
  - destruct j; discriminate.
  - destruct j as [|j]; simpl in Hc.
    + injection Hc as ->. destruct vals as [|v0 vals]; [discriminate|].
      injection Hv as ->. simpl. rewrite Hkeep. simpl. split; reflexivity.
    + destruct vals as [|v0 vals]; [discriminate|]. simpl in Hv.
      destruct (IH j vals Hc Hkeep Hv) as [IHc IHv].
      simpl. destruct (keep c0); simpl; split; assumption.
Qed.

Lemma traverse_parse_date (strptime : string -> option Z) (l : list string) :
  (forall c, In c l -> strptime c <> None) ->
  exists ds,
    traverse (parse_date strptime) l = Ok ds /\
    forall p c, nth_error l p = Some c ->
                exists d, strptime c = Some d /\ nth_error ds p = Some d.
Proof.
  induction l as [|c0 l IH]; intros Hparse; simpl.
  - exists []; split; [reflexivity|]. intros [|p] c; discriminate.
  - destruct IH as (ds & Hds & Hnth);
      [intros c Hc; apply Hparse; right; exact Hc|].
    unfold parse_date at 1.
    destruct (strptime c0) as [d0|] eqn:Hd0;
      [|exfalso; apply (Hparse c0); [left; reflexivity | exact Hd0]].
    rewrite Hds. exists (d0 :: ds); split; [reflexivity|].
    intros [|p] c; simpl.
    + intros [= <-]; eauto.
    + apply Hnth.
Qed.

Lemma province_is_text (df : csse_frame) :
  has_provinces df -> province_is_blank df = false.
Proof.
  intros (r & Hr & Hp). unfold province_is_blank.
  destruct (records df) as [|r0 rs] eqn:Hrs; [reflexivity|]. rewrite <- Hrs in *.
  destruct (forallb _ (records df)) eqn:Hall; [|reflexivity].
  rewrite forallb_forall in Hall. specialize (Hall r Hr).
  destruct (Province_State r); [discriminate | congruence].
Qed.

(** C6.  On a raw table whose date labels all parse and whose
    [Province/State] column is not blank throughout, [_rollup_by_country]
    returns a table that has, for each country key of the input, exactly one
    row, and in that row, at each date column, exactly the sum of the cells
    of that date over all the records that share the key, a missing cell
    contributing nothing, as long as the sum stays within the arithmetic of
    the column: the cells are whole numbers, and their sum is an int64 (in
    an int64 column) or their magnitudes add up to less than 2^53 (in a
    float64 column, which a column with a missing cell is). *)
Theorem C6_rollup_is_exact_sum :
  forall (strptime : string -> option Z) (df : csse_frame)
         (k : string) (j : nat) (c : string) (t : dtype),
    rectangular df ->
    has_provinces df ->
    (forall c' t', In (c', t') (typed_columns df) -> is_date_column c' = true ->
                   strptime c' <> None) ->
    (exists r, In r (records df) /\ Country_Region r = Some k) ->
    nth_error (typed_columns df) j = Some (c, t) ->
    is_date_column c = true ->
    sums_exactly t (subnational_values df k j) = true ->
    rollup_is_exact_sum strptime df k j c.
Proof.
  intros strptime df k j c t Hrect Hprov Hparse' (r0 & Hr0 & Hk0) Hct Hdate Hexact.
  pose proof (province_is_text df Hprov) as Hblank.
  assert (Hcols : numeric_columns df = map fst (typed_columns df))
    by (unfold numeric_columns; rewrite Hblank; reflexivity).
  assert (Hparse : forall c', In c' (numeric_columns df) -> is_date_column c' = true ->
                              strptime c' <> None).
  { intros c' Hin. rewrite Hcols in Hin. apply in_map_iff in Hin as ([c0 t0] & <- & Hin).
    exact (Hparse' c0 t0 Hin). }
  unfold rollup_is_exact_sum, date_position. rewrite <- Hcols.
  assert (Hts : numeric_dtypes df = map snd (typed_columns df))
    by (unfold numeric_dtypes; rewrite Hblank; reflexivity).
  assert (Hcells : numeric_cells df = numeric).
  { unfold numeric_cells. rewrite Hblank. reflexivity. }
  assert (Hc : nth_error (numeric_columns df) j = Some c)
    by (rewrite Hcols, nth_error_map, Hct; reflexivity).
  assert (Ht : nth_error (numeric_dtypes df) j = Some t)
    by (rewrite Hts, nth_error_map, Hct; reflexivity).
  set (n := length (typed_columns df)).
  set (groups := fold_left (group_record (numeric_dtypes df) (numeric_cells df))
                           (records df) []).
  set (mine := filter (has_key k) (records df)).
  set (total_row := fold_left (skipna_add (numeric_dtypes df))
                              (map (numeric_cells df) mine) (repeat 0 n)).
  assert (Hj : (j < n)%nat) by (apply nth_error_Some; congruence).
  assert (Hnd : NoDup (map fst groups))
    by (apply NoDup_fold_group_record; constructor).
  assert (Hgroup : group_of k groups = Some total_row).
  { unfold groups.
    rewrite (group_of_fold_group_record _ _ k n)
      by (rewrite Hcells; exact Hrect).
    simpl. fold mine.
    assert (Hin : In r0 mine).
    { apply filter_In; split; [exact Hr0|].
      unfold has_key; rewrite Hk0; apply String.eqb_refl. }
    destruct mine; [destruct Hin | reflexivity]. }
  destruct (nth_fold_skipna_add (numeric_cells df) mine (numeric_dtypes df)
                                (repeat 0 n) j t) as [Hlen Hsum].
  { intros r Hr. apply filter_In in Hr as [Hr _].
    rewrite repeat_length, Hcells. apply Hrect, Hr. }
  { rewrite Hts, length_map, repeat_length. reflexivity. }
  { exact Ht. }
  fold total_row in Hlen, Hsum. rewrite repeat_length in Hlen.
  rewrite nth_repeat, Hcells in Hsum.
  assert (Hv : nth_error total_row j = Some (nth j total_row 0))
    by (apply nth_error_nth'; rewrite Hlen; exact Hj).
  destruct (nth_error_kept_column is_date_column (numeric_columns df) total_row j c
              (nth j total_row 0) Hc Hdate Hv) as [Hcol Hcell].
  destruct (traverse_parse_date strptime (filter is_date_column (numeric_columns df)))
    as (ds & Hds & Hnth).
  { intros c' Hc'. apply filter_In in Hc' as [Hc' Hd']. apply Hparse; assumption. }
  destruct (Hnth _ _ Hcol) as (d & Hd & Hdcol).
  set (dropped := fun r : string * list Q =>
         (fst r, map snd (filter (fun cv => is_date_column (fst cv))
                                 (combine (numeric_columns df) (snd r))))).
  assert (Hout : _rollup_by_country strptime df
                 = Ok (mkDataFrame ds (map dropped (sort_index groups)))).
  { unfold _rollup_by_country, _convert_cols_to_dt, drop_columns, groupby_sum.
    cbn [columns rows]. fold is_date_column in Hds.
    change (fun c0 : string => negb (existsb (String.eqb c0) [ "Lat"; "Long" ]))
      with is_date_column.
    rewrite Hds. reflexivity. }
  exists (mkDataFrame ds (map dropped (sort_index groups))), d,
         (snd (dropped (k, total_row))), (nth j total_row 0).
  split; [exact Hout|]. split; [exact Hd|]. split; [exact Hdcol|].
  cbn [columns rows]. split; [|split; [|split]].
  - apply in_map_iff. exists (k, total_row). split; [reflexivity|].
    apply In_sort_index, group_of_In, Hgroup.
  - intros vals' Hin. apply in_map_iff in Hin as ([k1 t1] & Heq & Hin).
    unfold dropped in Heq; simpl in Heq. injection Heq as -> <-.
    apply (proj1 (In_sort_index _ _)) in Hin. apply (In_group_of _ _ _ Hnd) in Hin.
    rewrite Hgroup in Hin. injection Hin as <-. reflexivity.
  - exact Hcell.
  - rewrite Hsum. unfold subnational_sum, subnational_values in *. fold mine in Hexact |- *.
    set (vs := map (fun r => nth j (numeric r) None) mine) in *.
    unfold sums_exactly in Hexact. apply andb_true_iff in Hexact as [Hwhole Hfit].
    rewrite (sum_of_whole _ Hwhole).
    destruct t.
    + apply andb_true_iff in Hfit as [Hlo Hhi].
      apply Z.leb_le in Hlo. apply Z.ltb_lt in Hhi.
      destruct (fold_add_int64 vs 0 0%Z 0%Z) as (a' & Ha' & Hp');
        [reflexivity | left; reflexivity | exact Hwhole|].
      rewrite Ha'. rewrite Z.add_0_l in Hp'.
      destruct Hp' as [->| ->]; [reflexivity|].
      rewrite wrap64_small by lia. reflexivity.
    + apply Z.ltb_lt in Hfit.
      rewrite (fold_add_float64 vs 0 0%Z); [reflexivity | reflexivity | exact Hwhole|].
      simpl. exact Hfit.
Qed.

Lemma C6_rollup_is_exact_sum_witness :
  rollup_is_exact_sum strptime_sample confirmed_sample "China" 3 "1/23/20".
Proof.
  apply (C6_rollup_is_exact_sum strptime_sample confirmed_sample "China" 3 "1/23/20"
                                float64).
  - intros r [<-|[<-|[<-|[]]]]; reflexivity.
  - eexists; split; [left; reflexivity | discriminate].
  - intros c' t' [[= <- <-]|[[= <- <-]|[[= <- <-]|[[= <- <-]|[]]]]]; simpl;
      intros H; discriminate.
  - eexists; split; [left; reflexivity | reflexivity].
  - reflexivity.
  - reflexivity.
  - reflexivity.
Defined.

(** C6, as stated, fails where the sum leaves int64: two provinces with 2^62
    cases each roll up to -2^63, not to 2^63. *)
Lemma C6_counterexample_int64_wrap :
  rectangular confirmed_beyond_int64 /\
  has_provinces confirmed_beyond_int64 /\
  (exists r, In r (records confirmed_beyond_int64) /\ Country_Region r = Some "China") /\
  nth_error (typed_columns confirmed_beyond_int64) 0 = Some ("1/22/20", int64) /\
  strptime_sample "1/22/20" <> None /\
  ~ rollup_is_exact_sum strptime_sample confirmed_beyond_int64 "China" 0 "1/22/20".
Proof.
  split; [intros r [<-|[<-|[]]]; reflexivity|].
  split; [eexists; split; [left; reflexivity | discriminate]|].
  split; [eexists; split; [left; reflexivity | reflexivity]|].
  split; [reflexivity|]. split; [discriminate|].
  intros (out & d & vals & v & Hout & _ & _ & Hin & _ & Hv & Hsum).
  vm_compute in Hout. injection Hout as <-.
  destruct Hin as [[= <-]|[]].
  vm_compute in Hv. injection Hv as <-.
  vm_compute in Hsum. discriminate Hsum.
Qed.

(** The rolled-up sample: countries in order, Lat and Long gone, the missing
    cell of Beijing adding nothing. *)
Example rollup_sample :
  exists out,
    _rollup_by_country strptime_sample confirmed_sample = Ok out /\
    columns out = [ 737446; 737447 ]%Z /\
    map fst (rows out) = [ "China"; "Italy" ] /\
    map snd (rows out) = [ [ 458; 444 ]; [ 0; 2 ] ].
Proof.
  eexists; split; [vm_compute; reflexivity|]. repeat split.
Qed.

Example rollup_beyond_int64 :
  _rollup_by_country strptime_sample confirmed_beyond_int64
  = Ok (mkDataFrame [ 737446%Z ] [ ("China", [ inject_Z (- 2 ^ 63) ]) ]).
Proof. vm_compute. reflexivity. Qed.

(** With every [Province/State] field blank the column is one of numbers,
    the grouped sum keeps it, and its label is no date. *)
Example rollup_without_provinces :
  _rollup_by_country strptime_sample confirmed_without_provinces = Raise ValueError.
Proof. vm_compute. reflexivity. Qed.

End MakeDatasetProofs.

Module BuildFeaturesProofs.

Import BuildFeatures BuildFeaturesSpec.

(** ** The frame *)

Lemma getitem_setitem (df : DataFrame) (colname : string) (col : Column) :
  getitem (setitem df colname col) colname = Ok col.
Proof.
  induction df as [|c df IH]; simpl.
  - rewrite String.eqb_refl; reflexivity.
  - destruct (colname =? fst c) eqn:Hc; simpl.
    + rewrite String.eqb_refl; reflexivity.
    + rewrite Hc; exact IH.
Qed.

Lemma getitem_setitem_other (df : DataFrame) (colname other : string) (col : Column) :
  other <> colname ->
  getitem (setitem df colname col) other = getitem df other.
Proof.
  intros Hne. apply String.eqb_neq in Hne.
  induction df as [|c df IH]; simpl.
  - rewrite Hne; reflexivity.
  - destruct (String.eqb_spec colname (fst c)) as [Hc|Hc]; simpl.
    + subst colname. rewrite Hne; reflexivity.
    + rewrite IH; reflexivity.
Qed.

Lemma string_length_append (a b : string) :
  String.length (a ++ b)%string = (String.length a + String.length b)%nat.
Proof.
  induction a as [|ch a IH]; simpl; [reflexivity | rewrite IH; reflexivity].
Qed.

Lemma normalized_name_differs (colname : string) :
  colname <> (colname ++ "_normalized")%string.
Proof.
  intros Heq. apply (f_equal String.length) in Heq.
  rewrite string_length_append in Heq. simpl in Heq. lia.
Qed.

(** ** Maximum and minimum of a numeric column *)

Lemma numeric_column_cons (x : float) (col : Column) :
  numeric_column (x :: col) ->
  match x with Inf _ => False | _ => True end /\ numeric_column col.
Proof.
  intros Hnum; split.
  - apply Hnum; left; reflexivity.
  - intros y Hy; apply Hnum; right; exact Hy.
Qed.

Lemma series_max_numeric (col : Column) :
  numeric_column col ->
  (series_max col = NaN /\ all_missing col) \/
  (exists M, series_max col = Fin M /\ In (Fin M) col /\
             forall x, In (Fin x) col -> x <= M).
Proof.
  induction col as [|x col IH]; intros Hnum.
  - left; split; [reflexivity | intros x []].
  - apply numeric_column_cons in Hnum as [Hx Hnum].
    specialize (IH Hnum). simpl.
    destruct x as [q|s|]; [|destruct Hx|].
    + right. destruct IH as [[-> Hall] | (M & -> & HM & Hub)].
      * exists q; split; [reflexivity|]. split; [left; reflexivity|].
        intros x [[= <-]|Hin]; [apply Qle_refl|].
        apply Hall in Hin; discriminate.
      * simpl. destruct (Qle_bool M q) eqn:Hle.
        -- apply Qle_bool_iff in Hle.
           exists q; split; [reflexivity|]. split; [left; reflexivity|].
           intros x [[= <-]|Hin]; [apply Qle_refl|].
           apply Qle_trans with M; [apply Hub, Hin | exact Hle].
        -- assert (Hlt : q < M).
           { apply Qnot_le_lt. intros H; apply Qle_bool_iff in H; congruence. }
           exists M; split; [reflexivity|]. split; [right; exact HM|].
           intros x [[= <-]|Hin]; [apply Qlt_le_weak, Hlt | apply Hub, Hin].
    + destruct IH as [[-> Hall] | (M & -> & HM & Hub)].
      * left; split; [reflexivity|]. intros x [<-|Hin]; [reflexivity | apply Hall, Hin].
      * right; exists M; split; [reflexivity|]. split; [right; exact HM|].
        intros x [Hx'|Hin]; [discriminate | apply Hub, Hin].
Qed.

Lemma series_min_numeric (col : Column) :
  numeric_column col ->
  (series_min col = NaN /\ all_missing col) \/
  (exists m, series_min col = Fin m /\ In (Fin m) col /\
             forall x, In (Fin x) col -> m <= x).
Proof.
  induction col as [|x col IH]; intros Hnum.
  - left; split; [reflexivity | intros x []].
  - apply numeric_column_cons in Hnum as [Hx Hnum].
    specialize (IH Hnum). simpl.
    destruct x as [q|s|]; [|destruct Hx|].
    + right. destruct IH as [[-> Hall] | (m & -> & Hm & Hlb)].
      * exists q; split; [reflexivity|]. split; [left; reflexivity|].
        intros x [[= <-]|Hin]; [apply Qle_refl|].
        apply Hall in Hin; discriminate.
      * simpl. destruct (Qle_bool q m) eqn:Hle.
        -- apply Qle_bool_iff in Hle.
           exists q; split; [reflexivity|]. split; [left; reflexivity|].
           intros x [[= <-]|Hin]; [apply Qle_refl|].
           apply Qle_trans with m; [exact Hle | apply Hlb, Hin].
        -- assert (Hlt : m < q).
           { apply Qnot_le_lt. intros H; apply Qle_bool_iff in H; congruence. }
           exists m; split; [reflexivity|]. split; [right; exact Hm|].
           intros x [[= <-]|Hin]; [apply Qlt_le_weak, Hlt | apply Hlb, Hin].
    + destruct IH as [[-> Hall] | (m & -> & Hm & Hlb)].
      * left; split; [reflexivity|]. intros x [<-|Hin]; [reflexivity | apply Hall, Hin].
      * right; exists m; split; [reflexivity|]. split; [right; exact Hm|].
        intros x [Hx'|Hin]; [discriminate | apply Hlb, Hin].
Qed.

Lemma numeric_range (col : Column) :
  numeric_column col ->
  flt (series_min col) (series_max col) = true ->
  exists m M,
    series_min col = Fin m /\ series_max col = Fin M /\ m < M /\
    In (Fin m) col /\ In (Fin M) col /\
    forall x, In (Fin x) col -> m <= x <= M.
Proof.
  intros Hnum Hlt.
  destruct (series_min_numeric col Hnum) as [[Hmin _] | (m & Hmin & Hm & Hlb)];
    rewrite Hmin in Hlt; [discriminate|].
  destruct (series_max_numeric col Hnum) as [[Hmax _] | (M & Hmax & HM & Hub)];
    rewrite Hmax in Hlt; [discriminate|].
  exists m, M. repeat split; auto.
  unfold flt, fle in Hlt. apply andb_true_iff in Hlt as [_ Hlt].
  apply negb_true_iff in Hlt. apply Qnot_le_lt.
  intros H; apply Qle_bool_iff in H; congruence.
Qed.

Lemma Qeq_bool_false_of_pos (d : Q) : 0 < d -> Qeq_bool d 0 = false.
Proof.
  intros Hd. destruct (Qeq_bool d 0) eqn:Heq; [|reflexivity].
  apply Qeq_bool_iff in Heq. rewrite Heq in Hd. exfalso; exact (Qlt_irrefl 0 Hd).
Qed.

(** ** Normalisation *)

Section Normalize.

Variable sqrt : Q -> Q.

Lemma zero_variance_value (x m M : Q) (to_max : bool) :
  m <= x <= M -> M <= m ->
  fdiv (fsub (Fin x) (Fin (if to_max then M else m))) (fsub (Fin M) (Fin m)) = NaN.
Proof.
  intros [Hlo Hhi] HMm. simpl.
  assert (Hd : Qeq_bool (M - m) 0 = true) by (apply Qeq_bool_iff; lra).
  assert (Hn : Qeq_bool (x - (if to_max then M else m)) 0 = true)
    by (apply Qeq_bool_iff; destruct to_max; lra).
  rewrite Hd, Hn. reflexivity.
Qed.

(** C8.  For a numeric column whose maximum equals its minimum,
    [_normalize_col] with [upper] or [lower] raises nothing and adds a
    normalised column that is NaN on every row. *)
Theorem C8_zero_variance_gives_nan :
  forall (df : DataFrame) (colname how : string) (col : Column),
    getitem df colname = Ok col ->
    numeric_column col ->
    feq (series_max col) (series_min col) = true ->
    how = "upper" \/ how = "lower" ->
    exists df' col',
      _normalize_col sqrt df colname how = Ok df' /\
      getitem df' (colname ++ "_normalized")%string = Ok col' /\
      length col' = length col /\
      all_missing col'.
Proof.
  intros df colname how col Hcol Hnum Heq Hhow.
  destruct (series_min_numeric col Hnum) as [[Hmin _] | (m & Hmin & Hm & Hlb)];
    rewrite Hmin in Heq;
    [destruct (series_max col) as [?|[]|]; discriminate|].
  destruct (series_max_numeric col Hnum) as [[Hmax _] | (M & Hmax & HM & Hub)];
    rewrite Hmax in Heq; [discriminate|].
  unfold feq, fle in Heq. apply andb_true_iff in Heq as [HMm _].
  apply Qle_bool_iff in HMm.
  assert (Hnan : forall (to_max : bool) (y : float),
             In y (map (fun x => fdiv (fsub x (Fin (if to_max then M else m)))
                                      (fsub (Fin M) (Fin m))) col) ->
             y = NaN).
  { intros to_max y Hy. apply in_map_iff in Hy as (x & <- & Hx).
    pose proof (Hnum x Hx) as Hfin.
    destruct x as [q| |]; [|destruct Hfin|reflexivity].
    apply zero_variance_value; [split; [apply Hlb | apply Hub]; exact Hx | exact HMm]. }
  unfold _normalize_col.
  destruct Hhow as [-> | ->]; simpl; rewrite Hcol; simpl; rewrite Hmin, Hmax;
    eexists; eexists; (split; [reflexivity|]);
    (split; [apply getitem_setitem|]); (split; [apply length_map|]).
  - exact (Hnan true).
  - exact (Hnan false).
Qed.

(** C10.  With a policy other than [mean], [upper] and [lower],
    [_normalize_col] raises nothing and leaves the frame as it is, whatever
    the frame and the column name: no column is added. *)
Theorem C10_unknown_policy_is_noop :
  forall (df : DataFrame) (colname how : string),
    how <> "mean" -> how <> "upper" -> how <> "lower" ->
    _normalize_col sqrt df colname how = Ok df.
Proof.
  intros df colname how Hmean Hupper Hlower.
  apply String.eqb_neq in Hmean, Hupper, Hlower.
  unfold _normalize_col. rewrite Hmean, Hupper, Hlower. reflexivity.
Qed.

End Normalize.

Lemma numeric_days_sample : numeric_column [ Fin 10; Fin 40; NaN; Fin 25 ].
Proof.
  intros x [<-|[<-|[<-|[<-|[]]]]]; exact I.
Qed.

Lemma numeric_cpi_sample : numeric_column [ Fin 53; Fin 53; NaN; Fin 53 ].
Proof.
  intros x [<-|[<-|[<-|[<-|[]]]]]; exact I.
Qed.

Lemma C8_zero_variance_gives_nan_witness :
  exists df' col',
    _normalize_col sqrt_sample df_sample "cpi_score_2019" "upper" = Ok df' /\
    getitem df' "cpi_score_2019_normalized" = Ok col' /\
    length col' = length [ Fin 53; Fin 53; NaN; Fin 53 ] /\
    all_missing col'.
Proof.
  apply (C8_zero_variance_gives_nan sqrt_sample df_sample "cpi_score_2019" "upper").
  - reflexivity.
  - exact numeric_cpi_sample.
  - reflexivity.
  - left; reflexivity.
Defined.

Lemma C10_unknown_policy_is_noop_witness :
  _normalize_col sqrt_sample df_sample "hci" "median" = Ok df_sample.
Proof.
  apply (C10_unknown_policy_is_noop sqrt_sample df_sample "hci" "median");
    discriminate.
Defined.

Example normalize_upper_sample :
  _normalize_col sqrt_sample df_sample "days_since_first_case" "upper"
  = Ok (df_sample ++
        [ ("days_since_first_case_normalized",
           [ Fin ((10 - 40) / (40 - 10)); Fin ((40 - 40) / (40 - 10)); NaN;
             Fin ((25 - 40) / (40 - 10)) ]) ]).
Proof. reflexivity. Qed.

Example normalize_zero_variance_sample :
  _normalize_col sqrt_sample df_sample "cpi_score_2019" "lower"
  = Ok (df_sample ++ [ ("cpi_score_2019_normalized", [ NaN; NaN; NaN; NaN ]) ]).
Proof. reflexivity. Qed.

(** A column that the frame does not have is an error for the three known
    policies only. *)
Example normalize_missing_column :
  _normalize_col sqrt_sample df_sample "hci" "upper" = Raise KeyError /\
  _normalize_col sqrt_sample df_sample "hci" "median" = Ok df_sample.
Proof. split; reflexivity. Qed.

End BuildFeaturesProofs.

(** * Properties of build_features.py over int64 and float64 *)

Module BuildFeatures64Proofs.

Import Numpy NumpyProofs BuildFeatures64 BuildFeatures64Spec.

Local Open Scope Z_scope.

(** ** Maximum and minimum *)

Lemma fold_max_spec (xs : list Z) (x : Z) :
  In (fold_left Z.max xs x) (x :: xs) /\
  forall y, In y (x :: xs) -> y <= fold_left Z.max xs x.
Proof.
  revert x; induction xs as [|x' xs IH]; intros x; simpl.
  - split; [left; reflexivity | intros y [<-|[]]; lia].
  - destruct (IH (Z.max x x')) as [Hin Hub]. split.
    + destruct Hin as [Hin|Hin]; [|right; right; exact Hin].
      destruct (Z.max_spec x x') as [[_ E]|[_ E]]; rewrite E in *; simpl; auto.
    + intros y Hy.
      pose proof (Hub (Z.max x x') (or_introl eq_refl)) as Hmax.
      destruct Hy as [<-|[<-|Hy]]; [lia | lia | apply Hub; right; exact Hy].
Qed.

Lemma fold_min_spec (xs : list Z) (x : Z) :
  In (fold_left Z.min xs x) (x :: xs) /\
  forall y, In y (x :: xs) -> fold_left Z.min xs x <= y.
Proof.
  revert x; induction xs as [|x' xs IH]; intros x; simpl.
  - split; [left; reflexivity | intros y [<-|[]]; lia].
  - destruct (IH (Z.min x x')) as [Hin Hlb]. split.
    + destruct Hin as [Hin|Hin]; [|right; right; exact Hin].
      destruct (Z.min_spec x x') as [[_ E]|[_ E]]; rewrite E in *; simpl; auto.
    + intros y Hy.
      pose proof (Hlb (Z.min x x') (or_introl eq_refl)) as Hmin.
      destruct Hy as [<-|[<-|Hy]]; [lia | lia | apply Hlb; right; exact Hy].
Qed.

Lemma float_max_numeric (xs : list float) :
  no_infinity xs ->
  (float_max xs = NaN /\ forall x, In x xs -> x = NaN) \/
  (exists M, float_max xs = Fin M /\ In (Fin M) xs /\
             forall x, In (Fin x) xs -> x <= M).
Proof.
  induction xs as [|x xs IH]; intros Hnum.
  - left; split; [reflexivity | intros x []].
  - assert (Hx : match x with Inf _ => False | _ => True end)
      by (apply Hnum; left; reflexivity).
    assert (Hxs : no_infinity xs) by (intros y Hy; apply Hnum; right; exact Hy).
    specialize (IH Hxs). simpl.
    destruct x as [k|s|]; [|destruct Hx|].
    + right. destruct IH as [[-> Hall] | (M & -> & HM & Hub)].
      * exists k; split; [reflexivity|]. split; [left; reflexivity|].
        intros x [[= <-]|Hin]; [lia|]. apply Hall in Hin; discriminate.
      * simpl. destruct (Z.leb_spec M k) as [Hle|Hlt].
        -- exists k; split; [reflexivity|]. split; [left; reflexivity|].
           intros x [[= <-]|Hin]; [lia|]. specialize (Hub x Hin). lia.
        -- exists M; split; [reflexivity|]. split; [right; exact HM|].
           intros x [[= <-]|Hin]; [lia | apply Hub, Hin].
    + destruct IH as [[-> Hall] | (M & -> & HM & Hub)].
      * left; split; [reflexivity|]. intros x [<-|Hin]; [reflexivity | apply Hall, Hin].
      * right; exists M; split; [reflexivity|]. split; [right; exact HM|].
        intros x [Hx'|Hin]; [discriminate | apply Hub, Hin].
Qed.

Lemma float_min_numeric (xs : list float) :
  no_infinity xs ->
  (float_min xs = NaN /\ forall x, In x xs -> x = NaN) \/
  (exists m, float_min xs = Fin m /\ In (Fin m) xs /\
             forall x, In (Fin x) xs -> m <= x).
Proof.
  induction xs as [|x xs IH]; intros Hnum.
  - left; split; [reflexivity | intros x []].
  - assert (Hx : match x with Inf _ => False | _ => True end)
      by (apply Hnum; left; reflexivity).
    assert (Hxs : no_infinity xs) by (intros y Hy; apply Hnum; right; exact Hy).
    specialize (IH Hxs). simpl.
    destruct x as [k|s|]; [|destruct Hx|].
    + right. destruct IH as [[-> Hall] | (m & -> & Hm & Hlb)].
      * exists k; split; [reflexivity|]. split; [left; reflexivity|].
        intros x [[= <-]|Hin]; [lia|]. apply Hall in Hin; discriminate.
      * simpl. destruct (Z.leb_spec k m) as [Hle|Hlt].
        -- exists k; split; [reflexivity|]. split; [left; reflexivity|].
           intros x [[= <-]|Hin]; [lia|]. specialize (Hlb x Hin). lia.
        -- exists m; split; [reflexivity|]. split; [right; exact Hm|].
           intros x [[= <-]|Hin]; [lia | apply Hlb, Hin].
    + destruct IH as [[-> Hall] | (m & -> & Hm & Hlb)].
      * left; split; [reflexivity|]. intros x [<-|Hin]; [reflexivity | apply Hall, Hin].
      * right; exists m; split; [reflexivity|]. split; [right; exact Hm|].
        intros x [Hx'|Hin]; [discriminate | apply Hlb, Hin].
Qed.

(** The maximum and the minimum of a column are what [max()] and [min()]
    return. *)
Lemma int64_ends (xs : list Z) (m M : Z) :
  is_minimum (Int64 xs) m -> is_maximum (Int64 xs) M ->
  exists mz Mz,
    m = mz * one /\ M = Mz * one /\
    series_min (Int64 xs) = Int mz /\ series_max (Int64 xs) = Int Mz /\
    forall x, In x xs -> mz <= x <= Mz.
Proof.
  assert (Hone : 0 < one) by reflexivity.
  intros [Hm Hlb] [HM Hub]. cbn [entries] in *.
  apply in_map_iff in Hm as (mz & [= <-] & Hmz).
  apply in_map_iff in HM as (Mz & [= <-] & HMz).
  assert (Hbounds : forall x, In x xs -> mz <= x <= Mz).
  { intros x Hx.
    assert (Hin : In (Some (x * one)) (map (fun z => Some (z * one)) xs))
      by (apply in_map_iff; exists x; auto).
    specialize (Hlb _ Hin). specialize (Hub _ Hin). nia. }
  exists mz, Mz. split; [reflexivity|]. split; [reflexivity|].
  destruct xs as [|x xs]; [destruct Hmz|]. cbn [series_min series_max].
  destruct (fold_max_spec xs x) as [HinM HubM].
  destruct (fold_min_spec xs x) as [Hinm Hlbm].
  pose proof (Hbounds _ HinM). pose proof (Hbounds _ Hinm).
  pose proof (HubM _ HMz). pose proof (Hlbm _ Hmz).
  split; [f_equal; lia|]. split; [f_equal; lia | exact Hbounds].
Qed.

Lemma In_units (xs : list float) (v : Z) :
  In (Some v) (map units xs) <-> In (Fin v) xs.
Proof.
  rewrite in_map_iff. split.
  - intros (x & Hx & Hin). destruct x; try discriminate.
    injection Hx as <-. exact Hin.
  - intros Hin. exists (Fin v). split; [reflexivity | exact Hin].
Qed.

Lemma float64_ends (xs : list float) (m M : Z) :
  no_infinity xs ->
  is_minimum (Float64 xs) m -> is_maximum (Float64 xs) M ->
  float_min xs = Fin m /\ float_max xs = Fin M /\
  forall x, In (Fin x) xs -> m <= x <= M.
Proof.
  intros Hnum [Hm Hlb] [HM Hub]. cbn [entries] in *.
  apply In_units in Hm, HM.
  assert (Hbounds : forall x, In (Fin x) xs -> m <= x <= M).
  { intros x Hx. apply In_units in Hx. split; [apply Hlb | apply Hub]; exact Hx. }
  destruct (float_min_numeric xs Hnum) as [[_ Hall] | (m' & Hmin & Hm' & Hlb')];
    [apply Hall in Hm; discriminate|].
  destruct (float_max_numeric xs Hnum) as [[_ Hall] | (M' & Hmax & HM' & Hub')];
    [apply Hall in HM; discriminate|].
  pose proof (Hbounds _ Hm'). pose proof (Hbounds _ HM').
  pose proof (Hlb' _ Hm). pose proof (Hub' _ HM).
  split; [rewrite Hmin; f_equal; lia|]. split; [rewrite Hmax; f_equal; lia|].
  exact Hbounds.
Qed.

(** ** One row of a range policy *)

Lemma int64_row (x m M : Z) :
  m <= x <= M -> m < M -> M - m < 2 ^ 63 ->
  (exists r, fdiv (of_int64 (wrap64 (x - M))) (of_int64 (wrap64 (M - m))) = Fin r /\
             - one <= r <= 0 /\ (x = M -> r = 0)) /\
  (exists r, fdiv (of_int64 (wrap64 (x - m))) (of_int64 (wrap64 (M - m))) = Fin r /\
             0 <= r <= one /\ (x = m -> r = 0)).
Proof.
  intros Hx HmM Hfit.
  rewrite !wrap64_small by lia. unfold of_int64.
  assert (Hone : 0 < one) by reflexivity.
  assert (Hfin : round_magnitude ((M - m) * one) 1 < overflow).
  { apply Z.le_lt_trans with (round_magnitude (2 ^ 63 * one) 1).
    - apply round_magnitude_mono; [lia|]. nia.
    - vm_compute. reflexivity. }
  split.
  - destruct (quotient_within ((M - x) * one) ((M - m) * one)) as [(r & Hr & Hb & Hz) _];
      [nia | nia | exact Hfin|].
    exists r. replace ((x - M) * one) with (- ((M - x) * one)) by ring.
    split; [exact Hr|]. split; [exact Hb|]. intros ->. apply Hz. ring.
  - destruct (quotient_within ((x - m) * one) ((M - m) * one)) as [_ (r & Hr & Hb & Hz)];
      [nia | nia | exact Hfin|].
    exists r. split; [exact Hr|]. split; [exact Hb|]. intros ->. apply Hz. ring.
Qed.

Lemma finite_range (w : Z) :
  0 < w -> isfinite (round w 1) = true -> round_magnitude w 1 < overflow.
Proof.
  intros Hw. unfold round, to_float. rewrite round_units_pos by exact Hw.
  pose proof (round_magnitude_pos w Hw).
  destruct (Z.leb_spec overflow (Z.abs (round_magnitude w 1))); [discriminate|].
  intros _. lia.
Qed.

Lemma float64_row (x m M : Z) :
  m <= x <= M -> m < M -> isfinite (fsub (Fin M) (Fin m)) = true ->
  (exists r, fdiv (fsub (Fin x) (Fin M)) (fsub (Fin M) (Fin m)) = Fin r /\
             - one <= r <= 0 /\ (x = M -> r = 0)) /\
  (exists r, fdiv (fsub (Fin x) (Fin m)) (fsub (Fin M) (Fin m)) = Fin r /\
             0 <= r <= one /\ (x = m -> r = 0)).
Proof.
  intros Hx HmM Hfit. cbn [fsub] in *.
  apply finite_range in Hfit; [|lia].
  split.
  - destruct (quotient_within (M - x) (M - m)) as [(r & Hr & Hb & Hz) _];
      [lia | lia | exact Hfit|].
    exists r. replace (x - M) with (- (M - x)) by ring.
    split; [exact Hr|]. split; [exact Hb|]. intros ->. apply Hz. ring.
  - destruct (quotient_within (x - m) (M - m)) as [_ (r & Hr & Hb & Hz)];
      [lia | lia | exact Hfit|].
    exists r. split; [exact Hr|]. split; [exact Hb|]. intros ->. apply Hz. ring.
Qed.

(** ** The frame *)

Lemma frame_get_set (df : DataFrame) (colname : string) (col : Column) :
  getitem (setitem df colname col) colname = Ok col.
Proof.
  induction df as [|c df IH]; simpl.
  - rewrite String.eqb_refl; reflexivity.
  - destruct (colname =? fst c)%string eqn:Hc; simpl.
    + rewrite String.eqb_refl; reflexivity.
    + rewrite Hc; exact IH.
Qed.

Lemma frame_get_set_other (df : DataFrame) (colname other : string) (col : Column) :
  other <> colname ->
  getitem (setitem df colname col) other = getitem df other.
Proof.
  intros Hne. apply String.eqb_neq in Hne.
  induction df as [|c df IH]; simpl.
  - rewrite Hne; reflexivity.
  - destruct (String.eqb_spec colname (fst c)) as [Hc|Hc]; simpl.
    + subst colname. rewrite Hne; reflexivity.
    + rewrite IH; reflexivity.
Qed.

Lemma normalized_differs (colname : string) :
  colname <> (colname ++ "_normalized")%string.
Proof.
  intros Heq. apply (f_equal String.length) in Heq.
  assert (Hlen : forall a b, String.length (a ++ b)%string
                             = (String.length a + String.length b)%nat).
  { intros a b; induction a as [|ch a IH]; simpl; [reflexivity | rewrite IH; reflexivity]. }
  rewrite Hlen in Heq. simpl in Heq. lia.
Qed.

Section Normalize64.

Variable mean std : Column -> float.

Lemma _normalize_col_range_policies (df : DataFrame) (colname : string) (col : Column) :
  getitem df colname = Ok col ->
  _normalize_col mean std df colname "upper"
  = Ok (setitem df (colname ++ "_normalized")%string
                (div (sub col (series_max col))
                     (scalar_sub (series_max col) (series_min col)))) /\
  _normalize_col mean std df colname "lower"
  = Ok (setitem df (colname ++ "_normalized")%string
                (div (sub col (series_min col))
                     (scalar_sub (series_max col) (series_min col)))).
Proof.
  intros Hcol. unfold _normalize_col. cbn [String.eqb Ascii.eqb Bool.eqb].
  rewrite Hcol. split; reflexivity.
Qed.

(** C4.  For a numeric column (int64, or float64 with NaN for a missing
    entry) whose maximum [M] is strictly greater than its minimum [m] and
    whose range [M - m] stays within the arithmetic of the column (it is an
    int64, or is not rounded to an infinity), [_normalize_col] with [upper]
    adds a normalised column in which the maximum of the input is mapped to
    exactly 0 and every value lies in [-1, 0], and with [lower] one in which
    the minimum is mapped to exactly 0 and every value lies in [0, 1].  A
    missing entry stays missing, and the input column is left as it was. *)
Theorem C4_upper_lower_range :
  forall (df : DataFrame) (colname : string) (col : Column) (m M : Z),
    getitem df colname = Ok col ->
    numeric_column col ->
    is_minimum col m ->
    is_maximum col M ->
    m < M ->
    range_fits col m M ->
    upper_lower_range mean std df colname col m M.
Proof.
  intros df colname col m M Hcol Hnum Hmin Hmax HmM Hfit.
  assert (Hone : 0 < one) by reflexivity.
  destruct (_normalize_col_range_policies df colname col Hcol) as [Hupper Hlower].
  unfold upper_lower_range. rewrite Hupper, Hlower.
  destruct col as [xs|xs].
  - destruct (int64_ends xs m M Hmin Hmax) as (mz & Mz & -> & -> & Hsmin & Hsmax & Hrange).
    cbn [range_fits] in Hfit. rewrite Hsmin, Hsmax.
    assert (HmMz : mz < Mz) by nia.
    assert (Hfitz : Mz - mz < 2 ^ 63) by nia.
    cbn [sub scalar_sub div astype_float as_float].
    split; eexists; eexists; (split; [reflexivity|]);
      (split; [apply frame_get_set|]);
      (split; [rewrite frame_get_set_other by apply normalized_differs; exact Hcol|]);
      unfold column_normalized_within; cbn [astype_float entries];
      (split; [rewrite !length_map; reflexivity|]);
      intros i u Hu; rewrite nth_error_map in Hu;
      destruct (nth_error xs i) as [x|] eqn:Hx; [|discriminate| |discriminate];
      injection Hu as <-; rewrite !nth_error_map, Hx; cbn [option_map];
      eexists; (split; [reflexivity|]); cbn [normalized_within];
      apply nth_error_In in Hx;
      destruct (int64_row x mz Mz (Hrange x Hx) HmMz Hfitz)
        as [(r & Hr & Hb & Hz) (r' & Hr' & Hb' & Hz')].
    + exists r. split; [exact Hr|]. split; [exact Hb|].
      intros Heq. apply Hz. nia.
    + exists r'. split; [exact Hr'|]. split; [exact Hb'|].
      intros Heq. apply Hz'. nia.
  - cbn [numeric_column] in Hnum.
    destruct (float64_ends xs m M Hnum Hmin Hmax) as (Hfmin & Hfmax & Hrange).
    cbn [range_fits] in Hfit. cbn [series_max series_min]. rewrite Hfmin, Hfmax.
    cbn [sub scalar_sub div astype_float as_float].
    split; eexists; eexists; (split; [reflexivity|]);
      (split; [apply frame_get_set|]);
      (split; [rewrite frame_get_set_other by apply normalized_differs; exact Hcol|]);
      unfold column_normalized_within; cbn [astype_float entries units];
      (split; [rewrite !length_map; reflexivity|]);
      intros i u Hu; rewrite nth_error_map in Hu;
      destruct (nth_error xs i) as [x|] eqn:Hx; [|discriminate| |discriminate];
      injection Hu as <-; rewrite !nth_error_map, Hx; cbn [option_map];
      eexists; (split; [reflexivity|]);
      apply nth_error_In in Hx;
      (destruct x as [k|s|]; [|destruct (Hnum _ Hx)|reflexivity]);
      cbn [units normalized_within];
      destruct (float64_row k m M (Hrange k Hx) HmM Hfit)
        as [(r & Hr & Hb & Hz) (r' & Hr' & Hb' & Hz')].
    + exists r. split; [exact Hr|]. split; [exact Hb|]. exact Hz.
    + exists r'. split; [exact Hr'|]. split; [exact Hb'|]. exact Hz'.
Qed.

End Normalize64.

Lemma C4_upper_lower_range_witness :
  upper_lower_range no_reduction no_reduction df_sample64 "cpi_score_2019"
                    (Float64 [ of_Z 53; of_Z 41; NaN; of_Z 80 ])
                    (41 * one) (80 * one).
Proof.
  apply (C4_upper_lower_range no_reduction no_reduction df_sample64 "cpi_score_2019").
  - reflexivity.
  - intros x [<-|[<-|[<-|[<-|[]]]]]; exact I.
  - split; [right; left; reflexivity|].
    intros v [[= <-]|[[= <-]|[Hv|[[= <-]|[]]]]]; [| |discriminate Hv|];
      vm_compute; discriminate.
  - split; [right; right; right; left; reflexivity|].
    intros v [[= <-]|[[= <-]|[Hv|[[= <-]|[]]]]]; [| |discriminate Hv|];
      vm_compute; discriminate.
  - reflexivity.
  - vm_compute. reflexivity.
Defined.

(** C4, as stated, fails where the range of the column leaves its
    arithmetic: in the int64 column 2^63 - 1, -(2^63 - 1), 0 the maximum is
    greater than the minimum, [max - min] wraps around to -2, and [upper]
    sends the row that holds 0 to 2^62. *)
Lemma C4_counterexample_int64_wrap :
  getitem df_int64_extremes "days_since_first_case" = Ok int64_extremes /\
  numeric_column int64_extremes /\
  is_minimum int64_extremes (- (2 ^ 63 - 1) * one) /\
  is_maximum int64_extremes ((2 ^ 63 - 1) * one) /\
  - (2 ^ 63 - 1) * one < (2 ^ 63 - 1) * one /\
  ~ upper_lower_range no_reduction no_reduction df_int64_extremes
                      "days_since_first_case" int64_extremes
                      (- (2 ^ 63 - 1) * one) ((2 ^ 63 - 1) * one).
Proof.
  split; [reflexivity|]. split; [exact I|].
  split.
  { split; [right; left; reflexivity|].
    intros v [[= <-]|[[= <-]|[[= <-]|[]]]]; vm_compute; discriminate. }
  split.
  { split; [left; reflexivity|].
    intros v [[= <-]|[[= <-]|[[= <-]|[]]]]; vm_compute; discriminate. }
  split; [reflexivity|].
  intros [(df' & col' & Hdf & Hcol & _ & _ & Hrows) _].
  vm_compute in Hdf. injection Hdf as <-.
  vm_compute in Hcol. injection Hcol as <-.
  destruct (Hrows 2%nat (Some 0%Z) eq_refl) as (y & Hy & r & Hr & [_ Hhi] & _).
  vm_compute in Hy. injection Hy as <-. injection Hr as <-.
  vm_compute in Hhi. apply Hhi. reflexivity.
Qed.

Example upper_on_int64_extremes :
  _normalize_col no_reduction no_reduction df_int64_extremes
                 "days_since_first_case" "upper"
  = Ok (df_int64_extremes ++
        [ ("days_since_first_case_normalized",
           Float64 [ Fin 0; of_Z (-1); of_Z (2 ^ 62) ]) ]).
Proof. vm_compute. reflexivity. Qed.

(** In float64 the range 2^1023 - (-2^1023) is rounded to an infinity, and so
    is the distance of the minimum to the maximum: the row of the minimum is
    NaN. *)
Example upper_on_float64_extremes :
  _normalize_col no_reduction no_reduction df_float64_extremes "hci" "upper"
  = Ok (df_float64_extremes ++ [ ("hci_normalized", Float64 [ Fin 0; NaN ]) ]).
Proof. vm_compute. reflexivity. Qed.

(** 10, 40 and 25 days: -1, 0 and the float64 nearest to -1/2, which is
    -1/2. *)
Example upper_on_days :
  _normalize_col no_reduction no_reduction df_sample64 "days_since_first_case" "upper"
  = Ok (df_sample64 ++
        [ ("days_since_first_case_normalized",
           Float64 [ of_Z (-1); Fin 0; Fin (- 2 ^ 1073) ]) ]).
Proof. vm_compute. reflexivity. Qed.

End BuildFeatures64Proofs.

(** * Further properties of make_dataset.py *)

Module MakeDatasetCoverage.

Import Numpy MakeDataset MakeDatasetSpec MakeDatasetProofs.

(** ** The rolled-up table *)

Lemma leb_false_flip (a b : string) :
  (a <=? b)%string = false -> (b <=? a)%string = true.
Proof.
  intros H. destruct (String.leb_total a b) as [Hab|Hba]; congruence.
Qed.

Lemma insert_by_label_head {V : Type} (r : string * V) (l : list (string * V))
      (a : string * V) :
  label_le (fst a) (fst r) ->
  HdRel (fun x y => label_le (fst x) (fst y)) a l ->
  HdRel (fun x y => label_le (fst x) (fst y)) a (insert_by_label r l).
Proof.
  intros Har Hal. destruct l as [|r' l]; simpl.
  - constructor; exact Har.
  - destruct (fst r <=? fst r')%string; constructor; [exact Har|].
    inversion Hal; assumption.
Qed.

Lemma insert_by_label_sorted {V : Type} (r : string * V) (l : list (string * V)) :
  Sorted (fun x y => label_le (fst x) (fst y)) l ->
  Sorted (fun x y => label_le (fst x) (fst y)) (insert_by_label r l).
Proof.
  induction l as [|r' l IH]; intros Hs; simpl.
  - repeat constructor.
  - inversion Hs as [|x l' Hs' Hhd]; subst.
    destruct (fst r <=? fst r')%string eqn:Hle.
    + constructor; [exact Hs|]. constructor; exact Hle.
    + constructor; [apply IH; exact Hs'|].
      apply insert_by_label_head; [apply leb_false_flip; exact Hle | exact Hhd].
Qed.

Lemma sort_index_sorted {V : Type} (l : list (string * V)) :
  Sorted (fun x y => label_le (fst x) (fst y)) (sort_index l).
Proof.
  unfold sort_index. induction l as [|r l IH]; simpl.
  - constructor.
  - apply insert_by_label_sorted; exact IH.
Qed.

Lemma insert_by_label_perm {V : Type} (r : string * V) (l : list (string * V)) :
  Permutation (insert_by_label r l) (r :: l).
Proof.
  induction l as [|r' l IH]; simpl.
  - apply Permutation_refl.
  - destruct (fst r <=? fst r')%string.
    + apply Permutation_refl.
    + apply perm_trans with (r' :: r :: l); [apply perm_skip; exact IH | apply perm_swap].
Qed.

Lemma sort_index_perm {V : Type} (l : list (string * V)) :
  Permutation (sort_index l) l.
Proof.
  unfold sort_index. induction l as [|r l IH]; simpl.
  - apply perm_nil.
  - apply perm_trans with (r :: fold_right insert_by_label [] l);
      [apply insert_by_label_perm | apply perm_skip; exact IH].
Qed.

Lemma label_lt_trans (a b c : string) : label_lt a b -> label_lt b c -> label_lt a c.
Proof.
  unfold label_lt, String.ltb. intros Hab Hbc.
  destruct (String.compare a b) eqn:Eab; try discriminate.
  destruct (String.compare b c) eqn:Ebc; try discriminate.
  apply String_as_OT.cmp_lt in Eab, Ebc.
  assert (Eac : String_as_OT.cmp a c = Lt)
    by (apply String_as_OT.cmp_lt; eapply String_as_OT.lt_trans; eassumption).
  unfold String_as_OT.cmp in Eac. rewrite Eac. reflexivity.
Qed.

Lemma label_le_neq_lt (a b : string) : label_le a b -> a <> b -> label_lt a b.
Proof.
  unfold label_le, label_lt, String.leb, String.ltb. intros Hle Hne.
  destruct (String.compare a b) eqn:E; try discriminate; [|reflexivity].
  apply String.compare_eq_iff in E. contradiction.
Qed.

Lemma label_lt_irrefl (a : string) : ~ label_lt a a.
Proof.
  unfold label_lt, String.ltb. intros H.
  assert (E : String.compare a a = Eq) by (apply String_as_OT.cmp_eq; reflexivity).
  rewrite E in H. discriminate.
Qed.

(** A list sorted for [<=] without two equal labels is sorted for [<], any
    two positions compared. *)
Lemma sorted_keys_strict {V : Type} (l : list (string * V)) :
  Sorted (fun x y => label_le (fst x) (fst y)) l ->
  NoDup (map fst l) ->
  StronglySorted label_lt (map fst l).
Proof.
  intros Hs Hnd. apply Sorted_StronglySorted.
  - intros a b c; apply label_lt_trans.
  - induction l as [|r l IH]; simpl; [constructor|].
    inversion Hs as [|x l' Hs' Hhd]; subst.
    inversion Hnd as [|x l' Hnin Hnd']; subst.
    constructor; [apply IH; assumption|].
    destruct l as [|r' l]; simpl; constructor.
    inversion Hhd; subst. apply label_le_neq_lt; [assumption|].
    intros Heq. apply Hnin. left. symmetry; exact Heq.
Qed.

(** What [_rollup_by_country] returns, when it returns. *)
Lemma _rollup_by_country_returns (strptime : string -> option Z) (df : csse_frame)
      (out : DataFrame Z Q) :
  _rollup_by_country strptime df = Ok out ->
  traverse (parse_date strptime) (filter is_date_column (numeric_columns df))
  = Ok (columns out) /\
  rows out
  = map (fun r : string * list Q =>
           (fst r, map snd (filter (fun cv => is_date_column (fst cv))
                                   (combine (numeric_columns df) (snd r)))))
        (sort_index (fold_left (group_record (numeric_dtypes df) (numeric_cells df)) (records df) [])).
Proof.
  unfold _rollup_by_country, _convert_cols_to_dt, drop_columns, groupby_sum.
  cbn [columns rows].
  change (fun c0 : string => negb (existsb (String.eqb c0) [ "Lat"; "Long" ]))
    with is_date_column.
  destruct (traverse (parse_date strptime) _) as [ds|e]; simpl; [|discriminate].
  intros [= <-]. split; reflexivity.
Qed.

Lemma index_of_rollup (strptime : string -> option Z) (df : csse_frame)
      (out : DataFrame Z Q) :
  _rollup_by_country strptime df = Ok out ->
  index out = map fst (sort_index (fold_left (group_record (numeric_dtypes df) (numeric_cells df)) (records df) [])).
Proof.
  intros Hout. apply _rollup_by_country_returns in Hout as [_ Hrows].
  unfold index. rewrite Hrows, map_map. reflexivity.
Qed.

(** X1.  The index of a rolled-up table is strictly increasing: the country
    keys come out in the order of python's strings, and no key is on two
    rows. *)
Theorem rollup_index_strictly_increasing :
  forall (strptime : string -> option Z) (df : csse_frame) (out : DataFrame Z Q),
    _rollup_by_country strptime df = Ok out ->
    StronglySorted label_lt (index out) /\ NoDup (index out).
Proof.
  intros strptime df out Hout.
  rewrite (index_of_rollup _ _ _ Hout).
  assert (Hnd : NoDup (map fst (sort_index (fold_left (group_record (numeric_dtypes df) (numeric_cells df)) (records df) [])))).
  { eapply Permutation_NoDup.
    - apply Permutation_map, Permutation_sym, sort_index_perm.
    - apply NoDup_fold_group_record; constructor. }
  split; [|exact Hnd].
  apply sorted_keys_strict; [apply sort_index_sorted | exact Hnd].
Qed.

Lemma rollup_index_strictly_increasing_witness :
  exists out,
    _rollup_by_country strptime_sample confirmed_sample = Ok out /\
    StronglySorted label_lt (index out) /\ NoDup (index out).
Proof.
  eexists. split; [reflexivity|].
  apply (rollup_index_strictly_increasing strptime_sample confirmed_sample).
  reflexivity.
Defined.

Lemma keys_of_group_add (ts : list dtype) (k x : string) (values : list (option Q))
      (groups : list (string * list Q)) :
  In x (map fst (group_add ts k values groups)) <-> x = k \/ In x (map fst groups).
Proof.
  split; [apply keys_group_add|].
  induction groups as [|g groups IH]; simpl.
  - intros [->|[]]; left; reflexivity.
  - destruct (String.eqb_spec k (fst g)) as [Hk|Hk]; simpl.
    + intros [->|H]; [left; symmetry; exact Hk | exact H].
    + intros [->|[H|H]]; [right; apply IH; left; reflexivity | left; exact H|].
      right; apply IH; right; exact H.
Qed.

Lemma keys_of_fold_group_record (ts : list dtype)
      (cells : csse_record -> list (option Q)) (x : string) (rs : list csse_record)
      (groups : list (string * list Q)) :
  In x (map fst (fold_left (group_record ts cells) rs groups)) <->
  In x (map fst groups) \/ exists r, In r rs /\ Country_Region r = Some x.
Proof.
  revert groups; induction rs as [|r rs IH]; intros groups; simpl.
  - split; [auto | intros [H|(r & [] & _)]; exact H].
  - rewrite IH. unfold group_record at 1.
    destruct (Country_Region r) as [k|] eqn:Hk.
    + rewrite keys_of_group_add. split.
      * intros [[->|H]|(r' & Hr' & Hx)]; eauto.
      * intros [H|(r' & [<-|Hr'] & Hx)]; eauto.
        left; left. congruence.
    + split.
      * intros [H|(r' & Hr' & Hx)]; eauto.
      * intros [H|(r' & [<-|Hr'] & Hx)]; eauto. congruence.
Qed.

(** X2.  The rolled-up table has a row for a key exactly when some record of
    the raw table has that key in its country column: a record without a
    country goes to no row, and no row comes from nowhere. *)
Theorem rollup_index_is_the_countries :
  forall (strptime : string -> option Z) (df : csse_frame) (out : DataFrame Z Q)
         (k : string),
    _rollup_by_country strptime df = Ok out ->
    (In k (index out) <-> exists r, In r (records df) /\ Country_Region r = Some k).
Proof.
  intros strptime df out k Hout.
  rewrite (index_of_rollup _ _ _ Hout).
  assert (Hperm : Permutation
                    (map fst (sort_index (fold_left (group_record (numeric_dtypes df) (numeric_cells df)) (records df) [])))
                    (map fst (fold_left (group_record (numeric_dtypes df) (numeric_cells df)) (records df) [])))
    by apply Permutation_map, sort_index_perm.
  split.
  - intros Hin. apply (Permutation_in _ Hperm) in Hin.
    apply keys_of_fold_group_record in Hin as [[]|H]; exact H.
  - intros H. apply (Permutation_in _ (Permutation_sym Hperm)).
    apply keys_of_fold_group_record. right; exact H.
Qed.

Lemma rollup_index_is_the_countries_witness :
  exists out,
    _rollup_by_country strptime_sample confirmed_sample = Ok out /\
    (In "Italy" (index out) <->
     exists r, In r (records confirmed_sample) /\ Country_Region r = Some "Italy").
Proof.
  eexists. split; [reflexivity|].
  apply (rollup_index_is_the_countries strptime_sample confirmed_sample).
  reflexivity.
Defined.

Lemma traverse_parse_date_Ok (strptime : string -> option Z)
      (l : list string) (ds : list Z) :
  traverse (parse_date strptime) l = Ok ds <->
  Forall2 (fun c d => strptime c = Some d) l ds.
Proof.
  revert ds; induction l as [|c l IH]; intros ds; simpl.
  - split; [intros [= <-]; constructor | intros H; inversion H; reflexivity].
  - unfold parse_date at 1. destruct (strptime c) as [d|] eqn:Hc; simpl.
    + destruct (traverse (parse_date strptime) l) as [ds'|e] eqn:Hl; simpl.
      * split.
        -- intros [= <-]. constructor; [exact Hc | apply IH; reflexivity].
        -- intros H. inversion H as [|c' d' l' ds'' Hd Htl]; subst.
           apply IH in Htl. congruence.
      * split; [discriminate|].
        intros H. inversion H as [|c' d' l' ds'' Hd Htl]; subst.
        apply IH in Htl. discriminate.
    + split; [discriminate|].
      intros H. inversion H; subst. congruence.
Qed.

Lemma traverse_parse_date_Raise (strptime : string -> option Z)
      (l : list string) (e : exn) :
  traverse (parse_date strptime) l = Raise e <->
  e = ValueError /\ exists c, In c l /\ strptime c = None.
Proof.
  induction l as [|c l IH]; simpl.
  - split; [discriminate | intros [_ (c & [] & _)]].
  - unfold parse_date at 1. destruct (strptime c) as [d|] eqn:Hc; simpl.
    + destruct (traverse (parse_date strptime) l) as [ds'|e'] eqn:Hl; simpl.
      * split; [discriminate|].
        intros [He (c' & [<-|Hin] & Hnone)]; [congruence|].
        assert (Hbad : Ok ds' = Raise e) by (apply IH; eauto).
        discriminate Hbad.
      * split.
        -- intros [= <-]. destruct IH as [IH _].
           destruct (IH eq_refl) as [He (c' & Hin & Hnone)]. eauto.
        -- intros [He (c' & [<-|Hin] & Hnone)]; [congruence|].
           apply IH; eauto.
    + split.
      * intros [= <-]. split; [reflexivity|]. exists c; auto.
      * intros [-> _]. reflexivity.
Qed.

(** X3.  [_convert_cols_to_dt] returns a frame exactly when every column
    label parses as a date, and the frame it returns has the rows of the
    input, untouched, under the parsed labels in the order of the input.  It
    raises [ValueError], and nothing else, exactly when some label does not
    parse. *)
Theorem convert_cols_to_dt_characterised :
  forall (strptime : string -> option Z) (V : Type) (df : DataFrame string V),
    (forall df' : DataFrame Z V,
        _convert_cols_to_dt strptime df = Ok df' <->
        rows df' = rows df /\
        Forall2 (fun c d => strptime c = Some d) (columns df) (columns df')) /\
    (forall e : exn,
        _convert_cols_to_dt strptime df = Raise e <->
        e = ValueError /\ exists c, In c (columns df) /\ strptime c = None).
Proof.
  intros strptime V df. unfold _convert_cols_to_dt. split.
  - intros [cols' rows']; cbn [columns rows].
    rewrite <- traverse_parse_date_Ok.
    destruct (traverse (parse_date strptime) (columns df)) as [ds|e]; simpl.
    + split; [intros [= <- <-]; auto | intros [-> [= ->]]; reflexivity].
    + split; [discriminate | intros [_ H]; discriminate].
  - intros e. rewrite <- traverse_parse_date_Raise.
    destruct (traverse (parse_date strptime) (columns df)) as [ds|e']; simpl;
      split; congruence.
Qed.

Example convert_cols_to_dt_sample :
  _convert_cols_to_dt strptime_sample dates_sample
  = Ok (mkDataFrame [ 737446; 737447 ]%Z [ ("China", [ 458; 444 ]%Q) ]) /\
  _convert_cols_to_dt strptime_sample
    (mkDataFrame [ "1/22/20"; "Population" ] [ ("China", [ 458; 444 ]%Q) ])
  = Raise ValueError.
Proof. split; reflexivity. Qed.

(** X4.  On a raw table with a record and a column read as numbers,
    [_rollup_by_country] raises exactly when the label of a column that the
    grouped sum keeps, other than [Lat] and [Long], is not a date, and what
    it raises then is [ValueError].  The sum keeps the columns read as
    numbers, so that a table that carries a population column, say, cannot
    be rolled up; and it keeps [Province/State] when every field of that
    column is blank, the column being one of numbers then, so that a table
    of countries without provinces cannot be rolled up either. *)
Theorem rollup_raises_on_a_column_that_is_no_date :
  forall (strptime : string -> option Z) (df : csse_frame),
    records df <> [] ->
    typed_columns df <> [] ->
    (forall e : exn,
        _rollup_by_country strptime df = Raise e <->
        e = ValueError /\
        exists c,
          (In c (map fst (typed_columns df)) \/
           c = "Province/State" /\
           forall r, In r (records df) -> Province_State r = None) /\
          is_date_column c = true /\ strptime c = None) /\
    ((forall r, In r (records df) -> Province_State r = None) ->
     strptime "Province/State" = None ->
     _rollup_by_country strptime df = Raise ValueError).
Proof.
  intros strptime df Hrecords _.
  assert (Hcolumns : forall c,
             In c (numeric_columns df) <->
             In c (map fst (typed_columns df)) \/
             c = "Province/State" /\
             forall r, In r (records df) -> Province_State r = None).
  { intros c. unfold numeric_columns, province_is_blank.
    destruct (records df) as [|r0 rs] eqn:Hrs; [congruence|]. rewrite <- Hrs in *.
    destruct (forallb _ (records df)) eqn:Hall.
    - rewrite forallb_forall in Hall.
      assert (Hblank : forall r, In r (records df) -> Province_State r = None).
      { intros r Hr. specialize (Hall r Hr).
        destruct (Province_State r); [discriminate | reflexivity]. }
      simpl. split.
      + intros [<-|Hin]; [right; split; [reflexivity | exact Hblank] | left; exact Hin].
      + intros [Hin|[-> _]]; [right; exact Hin | left; reflexivity].
    - split; [intros Hin; left; exact Hin|].
      intros [Hin|[_ Hblank]]; [exact Hin|].
      assert (Htrue : forallb (fun r => match Province_State r with
                                        | None => true
                                        | Some _ => false
                                        end) (records df) = true).
      { apply forallb_forall. intros r Hr. rewrite (Hblank r Hr). reflexivity. }
      congruence. }
  assert (Hraise : forall e : exn,
             _rollup_by_country strptime df = Raise e <->
             e = ValueError /\
             exists c, In c (numeric_columns df) /\ is_date_column c = true /\
                       strptime c = None).
  { intros e.
    unfold _rollup_by_country, _convert_cols_to_dt, drop_columns, groupby_sum.
    cbn [columns rows].
    change (fun c0 : string => negb (existsb (String.eqb c0) [ "Lat"; "Long" ]))
      with is_date_column.
    transitivity (traverse (parse_date strptime)
                           (filter is_date_column (numeric_columns df)) = Raise e).
    - destruct (traverse (parse_date strptime) _) as [ds|e']; simpl; split; congruence.
    - rewrite traverse_parse_date_Raise. split.
      + intros [He (c & Hin & Hnone)]. apply filter_In in Hin as [Hin Hdate]. eauto.
      + intros [He (c & Hin & Hdate & Hnone)]. split; [exact He|].
        exists c. split; [apply filter_In; auto | exact Hnone]. }
  split.
  - intros e. rewrite Hraise. split.
    + intros [He (c & Hin & Hdate & Hnone)]. split; [exact He|].
      exists c. split; [apply Hcolumns; exact Hin | split; assumption].
    + intros [He (c & Hin & Hdate & Hnone)]. split; [exact He|].
      exists c. split; [apply Hcolumns; exact Hin | split; assumption].
  - intros Hblank Hnone. apply Hraise. split; [reflexivity|].
    exists "Province/State". split; [|split; [reflexivity | exact Hnone]].
    apply Hcolumns. right. split; [reflexivity | exact Hblank].
Qed.

Lemma rollup_raises_on_a_column_that_is_no_date_witness :
  (forall e : exn,
      _rollup_by_country strptime_sample confirmed_without_provinces = Raise e <->
      e = ValueError /\
      exists c,
        (In c (map fst (typed_columns confirmed_without_provinces)) \/
         c = "Province/State" /\
         forall r, In r (records confirmed_without_provinces) ->
                   Province_State r = None) /\
        is_date_column c = true /\ strptime_sample c = None) /\
  ((forall r, In r (records confirmed_without_provinces) -> Province_State r = None) ->
   strptime_sample "Province/State" = None ->
   _rollup_by_country strptime_sample confirmed_without_provinces = Raise ValueError).
Proof.
  apply (rollup_raises_on_a_column_that_is_no_date strptime_sample
           confirmed_without_provinces); discriminate.
Defined.

Example rollup_with_population_column :
  _rollup_by_country strptime_sample confirmed_with_population = Raise ValueError.
Proof. vm_compute. reflexivity. Qed.

Lemma group_lengths_group_add (ts : list dtype) (n : nat) (k : string)
      (values : list (option Q)) (groups : list (string * list Q)) :
  length ts = n ->
  length values = n ->
  (forall g, In g groups -> length (snd g) = n) ->
  forall g, In g (group_add ts k values groups) -> length (snd g) = n.
Proof.
  intros Hts Hv. induction groups as [|g0 groups IH]; simpl; intros Hall g.
  - intros [<-|[]]. simpl.
    rewrite length_skipna_add; rewrite repeat_length; congruence.
  - destruct (k =? fst g0); simpl.
    + intros [<-|Hin]; [|apply Hall; right; exact Hin]. simpl.
      assert (Hg0 : length (snd g0) = n) by (apply Hall; left; reflexivity).
      rewrite length_skipna_add; congruence.
    + intros [<-|Hin]; [apply Hall; left; reflexivity|].
      apply IH; [|exact Hin]. intros g' Hg'; apply Hall; right; exact Hg'.
Qed.

Lemma group_lengths_fold (ts : list dtype) (cells : csse_record -> list (option Q))
      (n : nat) (rs : list csse_record) (groups : list (string * list Q)) :
  length ts = n ->
  (forall r, In r rs -> length (cells r) = n) ->
  (forall g, In g groups -> length (snd g) = n) ->
  forall g, In g (fold_left (group_record ts cells) rs groups) -> length (snd g) = n.
Proof.
  intros Hts. revert groups; induction rs as [|r rs IH]; intros groups Hrs Hall; simpl;
    [exact Hall|].
  apply IH; [intros r' Hr'; apply Hrs; right; exact Hr'|].
  unfold group_record. destruct (Country_Region r); [|exact Hall].
  apply group_lengths_group_add; [exact Hts | apply Hrs; left; reflexivity | exact Hall].
Qed.

(** The numeric columns, their dtypes and the cells of a record go
    together, with [Province/State] or without. *)
Lemma numeric_lengths (df : csse_frame) :
  rectangular df ->
  length (numeric_dtypes df) = length (numeric_columns df) /\
  forall r, In r (records df) ->
            length (numeric_cells df r) = length (numeric_columns df).
Proof.
  intros Hrect. unfold numeric_dtypes, numeric_columns, numeric_cells.
  destruct (province_is_blank df); simpl; rewrite !length_map; split;
    try reflexivity; intros r Hr; rewrite (Hrect r Hr); reflexivity.
Qed.

Lemma length_kept_columns {V : Type} (keep : string -> bool)
      (cols : list string) (vals : list V) :
  length vals = length cols ->
  length (map snd (filter (fun cv => keep (fst cv)) (combine cols vals)))
  = length (filter keep cols).
Proof.
  revert vals; induction cols as [|c cols IH]; intros [|v vals]; simpl;
    try discriminate; try reflexivity.
  intros [= Hlen]. destruct (keep c); simpl; rewrite IH by exact Hlen; reflexivity.
Qed.

(** X5.  The rolled-up table of a raw table in which every record has a cell
    in every numeric column has one date column for each numeric column
    other than [Lat] and [Long], in the order of the raw table (so the
    coordinates are gone, whether the raw table had them or not), and every
    row of it has exactly one cell per date column. *)
Theorem rollup_shape :
  forall (strptime : string -> option Z) (df : csse_frame) (out : DataFrame Z Q),
    rectangular df ->
    _rollup_by_country strptime df = Ok out ->
    Forall2 (fun c d => strptime c = Some d)
            (filter is_date_column (numeric_columns df)) (columns out) /\
    forall r, In r (rows out) -> length (snd r) = length (columns out).
Proof.
  intros strptime df out Hrect Hout.
  apply _rollup_by_country_returns in Hout as [Hcols Hrows].
  apply traverse_parse_date_Ok in Hcols. split; [exact Hcols|].
  intros r Hr. rewrite Hrows in Hr.
  apply in_map_iff in Hr as (g & <- & Hg). simpl.
  apply (Permutation_in _ (sort_index_perm _)) in Hg.
  destruct (numeric_lengths df Hrect) as [Hts Hcells].
  apply (group_lengths_fold _ _ (length (numeric_columns df))) in Hg;
    [|exact Hts | exact Hcells | intros g' []].
  rewrite length_kept_columns by exact Hg.
  eapply Forall2_length; exact Hcols.
Qed.

Lemma rollup_shape_witness :
  exists out,
    _rollup_by_country strptime_sample confirmed_sample = Ok out /\
    Forall2 (fun c d => strptime_sample c = Some d)
            (filter is_date_column (numeric_columns confirmed_sample)) (columns out) /\
    forall r, In r (rows out) -> length (snd r) = length (columns out).
Proof.
  eexists. split; [reflexivity|].
  apply (rollup_shape strptime_sample confirmed_sample).
  - intros r [<-|[<-|[<-|[]]]]; reflexivity.
  - reflexivity.
Defined.

(** ** Country names *)

Lemma dict_get_In (m : list (string * string)) (k v : string) :
  dict_get m k = Some v -> In (k, v) m.
Proof.
  induction m as [|[k' v'] m IH]; simpl; [discriminate|].
  destruct (String.eqb_spec k k') as [->|Hne].
  - intros [= ->]; left; reflexivity.
  - intros H; right; exact (IH H).
Qed.

Lemma renamed_label_is_canonical (m : list (string * string)) (k : string) :
  targets_are_canonical m = true -> dict_get m (rename_label m k) = None.
Proof.
  intros Hm. unfold rename_label.
  destruct (dict_get m k) as [v|] eqn:Hk; [|exact Hk].
  unfold targets_are_canonical in Hm. rewrite forallb_forall in Hm.
  specialize (Hm v (dict_get_value _ _ _ Hk)).
  destruct (dict_get m v); [discriminate | reflexivity].
Qed.

(** X6.  After [_clean_country_list] no row is labelled by an alternate
    spelling (a key of the renaming table) nor by an excluded name
    ([Others], [Cruise Ship]). *)
Theorem clean_country_list_leaves_canonical_names :
  forall (L V : Type) (df : DataFrame L V) (k : string),
    In k (index (_clean_country_list df)) ->
    dict_get country_rename k = None /\ ~ In k ignore_countries.
Proof.
  intros L V df k Hin.
  unfold index, _clean_country_list, drop_index, rename_index in Hin.
  cbn [rows] in Hin.
  apply in_map_iff in Hin as (r & <- & Hr).
  apply filter_In in Hr as [Hr Hkeep].
  apply in_map_iff in Hr as (r0 & <- & _). cbn [fst snd] in *.
  split.
  - apply renamed_label_is_canonical. reflexivity.
  - apply label_not_dropped. apply negb_true_iff. exact Hkeep.
Qed.

Lemma clean_country_list_leaves_canonical_names_witness :
  dict_get country_rename "Mainland China" = None /\
  ~ In "Mainland China" ignore_countries.
Proof.
  apply (clean_country_list_leaves_canonical_names _ _ countries_with_aliases).
  simpl. left; reflexivity.
Defined.

(** X7.  A table none of whose labels is an alternate spelling or an
    excluded name comes out of [_clean_country_list] as it went in. *)
Theorem clean_country_list_keeps_a_clean_table :
  forall (L V : Type) (df : DataFrame L V),
    (forall k, In k (index df) ->
               dict_get country_rename k = None /\ ~ In k ignore_countries) ->
    _clean_country_list df = df.
Proof.
  intros L V [cols rws] Hclean.
  unfold _clean_country_list, drop_index, rename_index, index in *.
  cbn [columns rows] in *. f_equal.
  induction rws as [|[k row] rws IH]; [reflexivity|].
  destruct (Hclean k (or_introl eq_refl)) as [Hk Hnot].
  assert (Hsame : rename_label country_rename k = k)
    by (unfold rename_label; rewrite Hk; reflexivity).
  apply label_not_dropped in Hnot.
  cbn [map filter fst snd]. rewrite Hsame, Hnot. cbn [negb].
  f_equal. apply IH. intros k' Hk'. apply Hclean. right; exact Hk'.
Qed.

Lemma clean_country_list_keeps_a_clean_table_witness :
  _clean_country_list countries_clean = countries_clean.
Proof.
  apply (clean_country_list_keeps_a_clean_table _ _ countries_clean).
  intros k [<-|[<-|[]]]; (split; [reflexivity|]);
    intros [H|[H|[]]]; discriminate H.
Defined.

Lemma two_positions {A : Type} (l : list A) (i j : nat) (a b : A) :
  (i < j)%nat -> nth_error l i = Some a -> nth_error l j = Some b ->
  exists l1 l2 l3, l = l1 ++ a :: l2 ++ b :: l3.
Proof.
  intros Hij Hi Hj.
  apply nth_error_split in Hi as (l1 & l' & -> & Hlen).
  rewrite nth_error_app2 in Hj by lia.
  replace (j - length l1)%nat with (S (j - length l1 - 1)) in Hj by lia.
  simpl in Hj.
  apply nth_error_split in Hj as (l2 & l3 & -> & _).
  exists l1, l2, l3. reflexivity.
Qed.

Lemma duplicate_after_filter {A : Type} (g : A -> string) (keep : A -> bool)
      (l1 l2 l3 : list A) (a b : A) :
  keep a = true -> keep b = true -> g a = g b ->
  ~ NoDup (map g (filter keep (l1 ++ a :: l2 ++ b :: l3))).
Proof.
  intros Ha Hb Hsame Hnd.
  rewrite filter_app in Hnd. simpl in Hnd. rewrite Ha in Hnd.
  rewrite filter_app in Hnd. simpl in Hnd. rewrite Hb in Hnd.
  rewrite map_app in Hnd. simpl in Hnd.
  apply NoDup_remove_2 in Hnd. apply Hnd.
  apply in_or_app. right. rewrite map_app. apply in_or_app. right.
  simpl. left. symmetry; exact Hsame.
Qed.

Lemma duplicate_label_after_clean {L V : Type} (rws : list (string * list V))
      (a b : string * list V) (l1 l2 l3 : list (string * list V)) :
  rws = l1 ++ a :: l2 ++ b :: l3 ->
  rename_label country_rename (fst a) = rename_label country_rename (fst b) ->
  ~ In (rename_label country_rename (fst a)) ignore_countries ->
  ~ NoDup (index (_clean_country_list (mkDataFrame (L := L) [] rws))).
Proof.
  intros -> Hsame Hkept.
  pose proof Hkept as Hkept'. rewrite Hsame in Hkept'.
  apply label_not_dropped in Hkept, Hkept'.
  unfold index, _clean_country_list, drop_index, rename_index.
  cbn [rows].
  rewrite map_app. cbn [map]. rewrite map_app. cbn [map].
  apply duplicate_after_filter; cbn [fst snd].
  - rewrite Hkept; reflexivity.
  - rewrite Hkept'; reflexivity.
  - exact Hsame.
Qed.

(** X8.  [_clean_country_list] does not keep the index free of duplicates:
    when two rows of the table have labels that the renaming sends to the
    same name, and that name is not excluded, the cleaned table has that name
    on two rows.  A table with a row for [China] and one for
    [Mainland China] is such a table. *)
Theorem clean_country_list_can_duplicate_a_key :
  forall (L V : Type) (df : DataFrame L V) (i j : nat)
         (k1 k2 : string) (row1 row2 : list V),
    i <> j ->
    nth_error (rows df) i = Some (k1, row1) ->
    nth_error (rows df) j = Some (k2, row2) ->
    rename_label country_rename k1 = rename_label country_rename k2 ->
    ~ In (rename_label country_rename k1) ignore_countries ->
    ~ NoDup (index (_clean_country_list df)).
Proof.
  intros L V df i j k1 k2 row1 row2 Hij Hi Hj Hsame Hkept.
  assert (Hindex : index (_clean_country_list df)
                   = index (_clean_country_list (mkDataFrame (L := L) [] (rows df))))
    by reflexivity.
  rewrite Hindex.
  destruct (Nat.lt_ge_cases i j) as [Hlt|Hge].
  - destruct (two_positions _ _ _ _ _ Hlt Hi Hj) as (l1 & l2 & l3 & Hsplit).
    apply (duplicate_label_after_clean _ (k1, row1) (k2, row2) l1 l2 l3 Hsplit);
      assumption.
  - assert (Hlt : (j < i)%nat) by lia.
    destruct (two_positions _ _ _ _ _ Hlt Hj Hi) as (l1 & l2 & l3 & Hsplit).
    apply (duplicate_label_after_clean _ (k2, row2) (k1, row1) l1 l2 l3 Hsplit).
    + symmetry; exact Hsame.
    + simpl. rewrite <- Hsame. exact Hkept.
Qed.

Lemma clean_country_list_can_duplicate_a_key_witness :
  ~ NoDup (index (_clean_country_list countries_with_aliases)).
Proof.
  apply (clean_country_list_can_duplicate_a_key _ _ countries_with_aliases 0 2
           "China" "Mainland China" [ 5 ]%Q [ 7 ]%Q).
  - discriminate.
  - reflexivity.
  - reflexivity.
  - reflexivity.
  - intros [H|[H|[]]]; discriminate H.
Defined.

Example clean_country_list_sample :
  _clean_country_list countries_with_aliases
  = mkDataFrame [ "cases" ]
      [ ("Mainland China", [ 5 ]%Q); ("Italy", [ 3 ]%Q); ("Mainland China", [ 7 ]%Q) ].
Proof. reflexivity. Qed.

Lemma excluded_name_is_not_renamed (k : string) :
  existsb (String.eqb (rename_label country_rename k)) ignore_countries
  = existsb (String.eqb k) ignore_countries.
Proof.
  unfold rename_label.
  destruct (dict_get country_rename k) as [v|] eqn:Hk; [|reflexivity].
  apply dict_get_In in Hk. simpl in Hk.
  repeat (destruct Hk as [Hk|Hk]; [injection Hk as <- <-; reflexivity|]).
  destruct Hk.
Qed.

(** X9.  The two steps of [_clean_country_list] do not interfere: no
    alternate spelling is renamed to an excluded name and no excluded name is
    renamed, so dropping the excluded names first and renaming afterwards
    gives the same table. *)
Theorem clean_country_list_steps_commute :
  forall (L V : Type) (df : DataFrame L V),
    _clean_country_list df
    = rename_index country_rename (drop_index ignore_countries df).
Proof.
  intros L V df.
  unfold _clean_country_list, drop_index, rename_index. cbn [columns rows].
  f_equal.
  induction (rows df) as [|[k row] rws IH]; [reflexivity|].
  cbn [map filter fst snd].
  rewrite excluded_name_is_not_renamed.
  destruct (existsb (String.eqb k) ignore_countries); cbn [negb map fst snd];
    rewrite IH; reflexivity.
Qed.

(** ** Days since the n-th case, on any table *)

Lemma no_china_in_index {V : Type} (rws : list (string * V)) (r : string * V) :
  existsb (String.eqb "Mainland China") (map fst rws) = false ->
  In r rws -> (fst r =? "Mainland China") = false.
Proof.
  intros Hex Hin.
  destruct (String.eqb_spec (fst r) "Mainland China") as [Heq|]; [|reflexivity].
  assert (Htrue : existsb (String.eqb "Mainland China") (map fst rws) = true).
  { apply existsb_exists. exists (fst r). split; [apply in_map; exact Hin|].
    rewrite Heq. reflexivity. }
  congruence.
Qed.

(** The series that [_compute_days_since_nth_case] returns on a table with a
    date column at least, in one piece. *)
Lemma _compute_days_since_nth_case_returns (df_cases : DataFrame Z Q) (n : Q)
      (columns_max : Z) :
  index_max (columns df_cases) = Some columns_max ->
  _compute_days_since_nth_case df_cases n
  = Ok (map (fun r : string * list Q =>
               (fst r,
                Some (let raw :=
                        match idxmin_scan None
                                (combine (columns df_cases)
                                   (map (fun v => if Qle_bool n v then Some v else None)
                                        (snd r)))
                        with
                        | Some x => (columns_max - x)%Z
                        | None => 0%Z
                        end in
                      if fst r =? "Mainland China" then (raw + 30)%Z else raw)))
            (rows df_cases)).
Proof.
  intros Hmax.
  unfold _compute_days_since_nth_case, idxmin_rows, where_ge.
  cbn [columns rows].
  destruct (columns df_cases) as [|c cols] eqn:Hc; [discriminate|].
  cbn [bind]. rewrite Hmax. f_equal.
  unfold fillna, apply_rows; cbn [columns rows].
  match goal with
  | |- context [if ?b then _ else _] => destruct b eqn:Hchina
  end.
  - rewrite !map_map. apply map_ext. intros r. cbn [fst snd].
    destruct (fst r =? "Mainland China"); cbn [fst snd option_map];
      destruct (idxmin_scan None _); reflexivity.
  - rewrite !map_map in Hchina. cbn [fst snd] in Hchina.
    rewrite !map_map. apply map_ext_in. intros r Hr. cbn [fst snd].
    assert (Hno : (fst r =? "Mainland China") = false).
    { apply (no_china_in_index (rows df_cases)); [exact Hchina | exact Hr]. }
    rewrite Hno. destruct (idxmin_scan None _); reflexivity.
Qed.

Lemma index_max_nonempty (dates : list Z) :
  dates <> [] -> exists m, index_max dates = Some m.
Proof.
  destruct dates as [|d ds]; [congruence|]. intros _. simpl. eauto.
Qed.

(** X10.  [_compute_days_since_nth_case] raises [ValueError] on a table
    without a date column; on any other table it returns a series that has
    the index of the table, label for label, and no missing value. *)
Theorem days_since_keeps_the_index :
  forall (df_cases : DataFrame Z Q) (n : Q),
    (columns df_cases = [] ->
     _compute_days_since_nth_case df_cases n = Raise ValueError) /\
    (columns df_cases <> [] ->
     exists s, _compute_days_since_nth_case df_cases n = Ok s /\
               map fst s = index df_cases /\
               forall kv, In kv s -> snd kv <> None).
Proof.
  intros df_cases n. split.
  - intros Hnone. unfold _compute_days_since_nth_case, idxmin_rows, where_ge.
    cbn [columns]. rewrite Hnone. reflexivity.
  - intros Hsome. destruct (index_max_nonempty _ Hsome) as [m Hm].
    rewrite (_compute_days_since_nth_case_returns _ _ _ Hm).
    eexists. split; [reflexivity|]. split.
    + rewrite map_map. reflexivity.
    + intros kv Hkv. apply in_map_iff in Hkv as (r & <- & _). discriminate.
Qed.

Lemma idxmin_scan_is_a_label (best : option (Z * Q)) (cells : list (Z * option Q))
      (d : Z) :
  idxmin_scan best cells = Some d ->
  (exists b, best = Some (d, b)) \/ In d (map fst cells).
Proof.
  revert best; induction cells as [|[d' [v'|]] cells IH]; intros best; simpl.
  - destruct best as [[d0 b]|]; simpl; [intros [= ->]; eauto | discriminate].
  - destruct best as [[d0 b]|].
    + destruct (Qlt_bool v' b); intros H; apply IH in H as [(b' & Hb)|H]; eauto;
        injection Hb as -> _; auto.
    + intros H; apply IH in H as [(b' & Hb)|H]; auto.
      injection Hb as -> _. auto.
  - intros H; apply IH in H as [H|H]; auto.
Qed.

(** X11.  Every value that [_compute_days_since_nth_case] returns is a number
    of days between 0 and the span of the dates of the table (latest minus
    earliest), or, for a row labelled [Mainland China], between 30 and that
    span plus 30: it is never negative and never missing. *)
Theorem days_since_bounds :
  forall (df_cases : DataFrame Z Q) (n : Q) (s : Series (option Z))
         (latest earliest : Z) (k : string) (v : option Z),
    _compute_days_since_nth_case df_cases n = Ok s ->
    index_max (columns df_cases) = Some latest ->
    (forall d, In d (columns df_cases) -> (earliest <= d)%Z) ->
    In (k, v) s ->
    exists z, v = Some z /\
      let shift := if k =? "Mainland China" then 30%Z else 0%Z in
      (shift <= z <= latest - earliest + shift)%Z.
Proof.
  intros df_cases n s latest earliest k v Hs Hmax Hmin Hin.
  rewrite (_compute_days_since_nth_case_returns _ _ _ Hmax) in Hs.
  injection Hs as <-.
  apply in_map_iff in Hin as (r & [= <- <-] & Hr).
  eexists. split; [reflexivity|]. cbn zeta.
  pose proof Hmax as Hspec. apply index_max_spec in Hspec as [Hlatest Hub].
  assert (Hspan : (0 <= latest - earliest)%Z)
    by (specialize (Hmin latest Hlatest); lia).
  destruct (idxmin_scan None _) as [x|] eqn:Hx.
  - apply idxmin_scan_is_a_label in Hx as [(b & Hb)|Hx]; [discriminate|].
    assert (Hcol : In x (columns df_cases)).
    { apply in_map_iff in Hx as ([x' c] & <- & Hx). simpl.
      apply in_combine_l in Hx. exact Hx. }
    pose proof (Hub x Hcol). pose proof (Hmin x Hcol).
    destruct (fst r =? "Mainland China"); lia.
  - destruct (fst r =? "Mainland China"); lia.
Qed.

Lemma days_since_bounds_witness :
  exists z, Some 31%Z = Some z /\
    let shift := if "Mainland China" =? "Mainland China" then 30%Z else 0%Z in
    (shift <= z <= 2 - 0 + shift)%Z.
Proof.
  apply (days_since_bounds cases_with_china 1
           [ ("Italy", Some 1%Z); ("Mainland China", Some 31%Z); ("Chad", Some 0%Z) ]
           2%Z 0%Z "Mainland China" (Some 31%Z)).
  - reflexivity.
  - reflexivity.
  - intros d [<-|[<-|[<-|[]]]]; lia.
  - simpl. right; left; reflexivity.
Defined.






(** The count reaches 1 on day 0 already, two days before the latest date;
    the value returned counts from day 1, where the count is least. *)
Example days_since_after_a_correction :
  _compute_days_since_nth_case cases_with_a_correction 1 = Ok [ ("Italy", Some 1%Z) ] /\
  days_since_threshold (columns cases_with_a_correction) 1 [ 5; 1; 7 ]%Q = Some 2%Z.
Proof. split; reflexivity. Qed.

(** ** The observed death rate and the dropout *)

(** X13.  The observed death rate of a row is missing exactly when one of its
    two counts is missing or both are zero; it is an infinity when there are
    deaths and no case; in every other case it is the number deaths / cases,
    which lies between 0 and 1 when the deaths are no more than the cases. *)
Theorem death_rate_observed_cases :
  forall deaths cases : option Q,
    (isnull (death_rate_observed deaths cases) = true <->
     deaths = None \/ cases = None \/
     exists d c, deaths = Some d /\ cases = Some c /\ c == 0 /\ d == 0) /\
    (forall d c, deaths = Some d -> cases = Some c -> c == 0 -> ~ d == 0 ->
                 exists s, death_rate_observed deaths cases = Inf s) /\
    (forall d c, deaths = Some d -> cases = Some c -> ~ c == 0 ->
                 exists q, death_rate_observed deaths cases = Num q /\ q == d / c /\
                           (0 <= d <= c -> 0 <= q <= 1)).
Proof.
  intros [d|] [c|]; simpl.
  - destruct (Qeq_bool c 0) eqn:Hc; [destruct (Qeq_bool d 0) eqn:Hd|].
    + apply Qeq_bool_iff in Hc, Hd. split; [|split].
      * split; [intros _; right; right; exists d, c; auto | reflexivity].
      * intros d' c' [= <-] [= <-] _ Hnz; contradiction.
      * intros d' c' [= <-] [= <-] Hnz; contradiction.
    + apply Qeq_bool_iff in Hc. apply Qeq_bool_neq in Hd. split; [|split].
      * split; [discriminate|].
        intros [H|[H|(d' & c' & [= <-] & [= <-] & _ & Hz)]];
          try discriminate; contradiction.
      * intros d' c' _ _ _ _. eauto.
      * intros d' c' [= <-] [= <-] Hnz; contradiction.
    + apply Qeq_bool_neq in Hc. split; [|split].
      * split; [discriminate|].
        intros [H|[H|(d' & c' & [= <-] & [= <-] & Hz & _)]];
          try discriminate; contradiction.
      * intros d' c' [= <-] [= <-] Hz; contradiction.
      * intros d' c' [= <-] [= <-] _. exists (d / c).
        split; [reflexivity|]. split; [reflexivity|].
        intros [Hd0 Hdc].
        assert (Hpos : 0 < c).
        { apply Qle_lt_or_eq in Hd0 as [Hd0|Hd0].
          - eapply Qlt_le_trans; eassumption.
          - apply Qnot_le_lt. intros Hle. apply Hc.
            apply Qle_antisym; [exact Hle|]. rewrite Hd0. exact Hdc. }
        split.
        -- apply Qle_shift_div_l; [exact Hpos | lra].
        -- apply Qle_shift_div_r; [exact Hpos | lra].
  - split; [split; auto|]. split; intros; discriminate.
  - split; [split; auto|]. split; intros; discriminate.
  - split; [split; auto|]. split; intros; discriminate.
Qed.

Lemma filter_nothing {A : Type} (f : A -> bool) (l : list A) :
  (forall a, In a l -> f a = false) -> filter f l = [].
Proof.
  induction l as [|a l IH]; intros Hall; simpl; [reflexivity|].
  rewrite (Hall a (or_introl eq_refl)). apply IH.
  intros a' Ha'; apply Hall; right; exact Ha'.
Qed.

Lemma drop_index_nothing {L V : Type} (df : DataFrame L V) :
  drop_index [] df = df.
Proof.
  destruct df as [cols rws]. unfold drop_index; cbn [columns rows]. f_equal.
  induction rws as [|r rws IH]; [reflexivity|].
  cbn [filter existsb negb]. f_equal. exact IH.
Qed.

(** X14.  After the dropout of [make_dataset] no row is left with more than
    one missing cell, so a second dropout changes nothing; and a table in
    which no row has more than one missing cell goes through the dropout
    unchanged. *)
Theorem dropout_is_idempotent :
  forall df_out : DataFrame string cell,
    (forall r, In r (rows (drop_lacking_data df_out)) -> (num_null (snd r) <= 1)%nat) /\
    drop_lacking_data (drop_lacking_data df_out) = drop_lacking_data df_out /\
    ((forall r, In r (rows df_out) -> (num_null (snd r) <= 1)%nat) ->
     drop_lacking_data df_out = df_out).
Proof.
  intros df_out.
  assert (Hfine : forall df : DataFrame string cell,
             (forall r, In r (rows df) -> (num_null (snd r) <= 1)%nat) ->
             drop_lacking_data df = df).
  { intros df Hall. unfold drop_lacking_data.
    rewrite filter_nothing; [apply drop_index_nothing|].
    intros r Hr. apply Nat.ltb_ge. apply Hall, Hr. }
  assert (Hleft : forall r, In r (rows (drop_lacking_data df_out)) ->
                            (num_null (snd r) <= 1)%nat).
  { intros r Hr. apply drop_lacking_data_keeps in Hr as [Hin Hkeep].
    apply (Hkeep r Hin eq_refl). }
  split; [exact Hleft|]. split; [apply Hfine; exact Hleft | apply Hfine].
Qed.

(** ** Fetching the time series *)

Section FetchMore.

Variable Table : Type.
Variable read_csv : string -> result Table.

Lemma traverse_fetch_Ok (l : list string) (d : list (string * Table)) :
  traverse (fun status => t <- read_csv (time_series_url status) ;; Ok (status, t)) l
  = Ok d ->
  map fst d = l /\
  (forall status t, In (status, t) d -> read_csv (time_series_url status) = Ok t) /\
  (forall status, In status l -> exists t, read_csv (time_series_url status) = Ok t).
Proof.
  revert d; induction l as [|s0 l IH]; intros d; simpl.
  - intros [= <-]. repeat split; [intros ? ? [] | intros ? []].
  - destruct (read_csv (time_series_url s0)) as [t0|e] eqn:H0; simpl; [|discriminate].
    destruct (traverse _ l) as [d'|e] eqn:Hl; simpl; [|discriminate].
    intros [= <-]. destruct (IH d' eq_refl) as (Hkeys & Hvals & Hall).
    simpl. split; [rewrite Hkeys; reflexivity|]. split.
    + intros status t [[= <- <-]|Hin]; [exact H0 | apply Hvals, Hin].
    + intros status [<-|Hin]; [eauto | apply Hall, Hin].
Qed.

Lemma traverse_fetch_all (l : list string) :
  (forall status, In status l -> exists t, read_csv (time_series_url status) = Ok t) ->
  exists d,
    traverse (fun status => t <- read_csv (time_series_url status) ;; Ok (status, t)) l
    = Ok d.
Proof.
  induction l as [|s0 l IH]; intros Hall; simpl; [eauto|].
  destruct (Hall s0 (or_introl eq_refl)) as [t0 ->]. simpl.
  destruct IH as [d ->]; [intros s Hs; apply Hall; right; exact Hs|].
  simpl. eauto.
Qed.

(** X15.  [_get_latest_covid_timeseries] returns a dictionary exactly when
    all five tables can be read, the three that [make_dataset] never looks at
    included, so that one failed fetch fails the run; the dictionary has the
    five status names as its keys, each with the table read from the url of
    that status. *)
Theorem latest_timeseries_needs_all_five_tables :
  ((exists all_data, _get_latest_covid_timeseries Table read_csv = Ok all_data) <->
   forall status, In status time_series_statuses ->
                  exists t, read_csv (time_series_url status) = Ok t) /\
  (forall all_data,
      _get_latest_covid_timeseries Table read_csv = Ok all_data ->
      map fst all_data = time_series_statuses /\
      forall status t, In (status, t) all_data ->
                       read_csv (time_series_url status) = Ok t).
Proof.
  unfold _get_latest_covid_timeseries. split; [split|].
  - intros (d & Hd). apply traverse_fetch_Ok in Hd as (_ & _ & Hall). exact Hall.
  - apply traverse_fetch_all.
  - intros d Hd. apply traverse_fetch_Ok in Hd as (Hkeys & Hvals & _). auto.
Qed.

End FetchMore.

Example url_of_the_confirmed_cases :
  time_series_url "confirmed_global"
  = "https://raw.githubusercontent.com/CSSEGISandData/COVID-19/master/csse_covid_19_data/csse_covid_19_time_series/time_series_covid19_confirmed_global.csv".
Proof. reflexivity. Qed.

Example one_failed_fetch_fails_the_run :
  _get_latest_covid_timeseries nat
    (fun url => if url =? time_series_url "recovered_global"
                then Raise ValueError else Ok O)
  = Raise ValueError.
Proof. reflexivity. Qed.

(** ** Joining the covariates *)

Lemma index_equals_eq (a b : list string) : index_equals a b = true <-> a = b.
Proof.
  revert b; induction a as [|x a IH]; intros [|y b]; simpl;
    try (split; [discriminate | discriminate]); [tauto|].
  rewrite andb_true_iff, String.eqb_eq, IH.
  split; [intros [-> ->]; reflexivity | intros [= -> ->]; auto].
Qed.

Lemma is_unique_NoDup (labels : list string) : is_unique labels = true <-> NoDup labels.
Proof.
  induction labels as [|k labels IH]; simpl.
  - split; [constructor | reflexivity].
  - rewrite andb_true_iff, negb_true_iff, label_not_dropped, IH.
    split; [intros [Hk Hnd]; constructor; assumption|].
    intros Hnd; inversion Hnd; auto.
Qed.

Lemma series_at_In (value : Series cell) (k : string) (v : cell) :
  NoDup (map fst value) -> In (k, v) value -> series_at value k = v.
Proof.
  unfold series_at.
  induction value as [|[k' v'] value IH]; simpl; [intros _ []|].
  intros Hnd Hin. inversion Hnd as [|x l Hfresh Hnd']; subst.
  destruct Hin as [[= -> ->]|Hin].
  - rewrite String.eqb_refl. reflexivity.
  - destruct (String.eqb_spec k' k) as [->|Hne]; [|exact (IH Hnd' Hin)].
    exfalso. apply Hfresh. apply in_map_iff. exists (k, v). auto.
Qed.

Lemma series_at_absent (value : Series cell) (k : string) :
  ~ In k (map fst value) -> series_at value k = NaN.
Proof.
  unfold series_at.
  induction value as [|[k' v'] value IH]; simpl; [reflexivity|].
  intros Hnot. destruct (String.eqb_spec k' k) as [->|Hne]; [tauto|].
  apply IH. tauto.
Qed.

Lemma series_at_own_index (value : Series cell) :
  NoDup (map fst value) -> map (series_at value) (map fst value) = map snd value.
Proof.
  intros Hnd. rewrite map_map. apply map_ext_in. intros [k v] Hin.
  apply series_at_In; assumption.
Qed.

Lemma reindexer_on_unique_labels (frame_index : list string) (value : Series cell) :
  frame_index <> [] -> NoDup (map fst value) ->
  reindexer frame_index value = Ok (map (series_at value) frame_index).
Proof.
  intros Hrows Hnd. unfold reindexer.
  destruct (index_equals (map fst value) frame_index) eqn:Heq; simpl.
  - apply index_equals_eq in Heq. rewrite <- Heq.
    rewrite series_at_own_index by exact Hnd. reflexivity.
  - destruct frame_index; [congruence|]. simpl.
    apply is_unique_NoDup in Hnd. rewrite Hnd. reflexivity.
Qed.

Lemma append_column (rws : list (string * list cell)) (f : string -> cell) :
  map (fun rv : string * list cell * cell => (fst (fst rv), snd (fst rv) ++ [ snd rv ]))
      (combine rws (map f (map fst rws)))
  = map (fun r => (fst r, snd r ++ [ f (fst r) ])) rws.
Proof.
  induction rws as [|r rws IH]; simpl; [reflexivity | rewrite IH; reflexivity].
Qed.

(** [df[key] = value] on a frame with rows, for a new column and a series
    with unique labels: a left join on the index. *)
Lemma setitem_series_joins (df : DataFrame string cell) (key : string)
      (value : Series cell) :
  rows df <> [] -> NoDup (map fst value) -> position_of key (columns df) = None ->
  setitem_series df key value
  = Ok (mkDataFrame (columns df ++ [ key ])
                    (map (fun r => (fst r, snd r ++ [ series_at value (fst r) ]))
                         (rows df))).
Proof.
  intros Hrows Hnd Hnew. unfold setitem_series, _ensure_valid_index.
  destruct (rows df) as [|r rws] eqn:Hr; [congruence|].
  rewrite reindexer_on_unique_labels;
    [|unfold index; rewrite Hr; discriminate | exact Hnd].
  cbn [bind]. unfold set_column. rewrite Hnew. unfold index.
  rewrite append_column, Hr. reflexivity.
Qed.

Lemma most_recent_value_of_renamed (mapper : list (string * string))
      (cols : list string) (table : list (string * list cell)) :
  let value := _get_most_recent_value (rename_index mapper (mkDataFrame cols table)) in
  map fst value = map (rename_label mapper) (map fst table) /\
  (NoDup (map fst value) -> forall k, most_recent_of mapper table k (series_at value k)).
Proof.
  cbn zeta.
  assert (Hvalue : _get_most_recent_value (rename_index mapper (mkDataFrame cols table))
                   = map (fun r => (rename_label mapper (fst r), _helper (skipn 3 (snd r))))
                         table).
  { unfold _get_most_recent_value, apply_rows, columns_from, rename_index.
    cbn [rows columns]. rewrite !map_map. reflexivity. }
  rewrite Hvalue. split; [rewrite !map_map; reflexivity|].
  intros Hnd k. split.
  - intros k0 cells Hin Hk.
    rewrite (series_at_In _ k (_helper (skipn 3 cells)) Hnd).
    + apply last_notnull_skipn, _helper_last_notnull.
    + apply in_map_iff. exists (k0, cells). rewrite <- Hk. auto.
  - intros Hnone. apply series_at_absent.
    intros Hin. apply in_map_iff in Hin as ([k' v'] & Hk' & Hin).
    apply in_map_iff in Hin as ([k0 cells] & [= <- <-] & Hin).
    apply (Hnone k0 cells Hin). exact Hk'.
Qed.

(** X16.  [_add_wb_data_diabetes] is a left join on the country key: on a
    dataset with rows, and a diabetes table in which no two rows get the
    same name once renamed, it adds one column, [population_perc_diabetic],
    after the columns of the dataset, keeps every row and its cells, and
    gives a row the most recent value of the table row whose renamed name is
    the key of the row, or the missing value when the table has no such
    row. *)
Theorem add_wb_data_diabetes_is_a_left_join :
  forall (wb_data df_input : DataFrame string cell),
    rows df_input <> [] ->
    NoDup (map (rename_label wb_country_mapping) (index wb_data)) ->
    position_of "population_perc_diabetic" (columns df_input) = None ->
    exists df',
      _add_wb_data_diabetes wb_data df_input = Ok df' /\
      columns df' = columns df_input ++ [ "population_perc_diabetic" ] /\
      length (rows df') = length (rows df_input) /\
      forall i k row, nth_error (rows df_input) i = Some (k, row) ->
        exists v, nth_error (rows df') i = Some (k, row ++ [ v ]) /\
                  most_recent_of wb_country_mapping (rows wb_data) k v.
Proof.
  intros [cols table] df_input Hrows Hnd Hnew.
  destruct (most_recent_value_of_renamed wb_country_mapping cols table) as [Hidx Hval].
  unfold index in Hnd. cbn [rows] in Hnd. rewrite <- Hidx in Hnd.
  unfold _add_wb_data_diabetes.
  rewrite setitem_series_joins by assumption.
  eexists. split; [reflexivity|]. cbn [columns rows].
  split; [reflexivity|]. split; [apply length_map|].
  intros i k row Hrow. eexists.
  rewrite nth_error_map, Hrow. split; [reflexivity|].
  cbn [fst]. apply Hval. exact Hnd.
Qed.

Lemma add_wb_data_diabetes_is_a_left_join_witness :
  exists df',
    _add_wb_data_diabetes diabetes_sample dataset_sample = Ok df' /\
    columns df' = columns dataset_sample ++ [ "population_perc_diabetic" ] /\
    length (rows df') = length (rows dataset_sample) /\
    forall i k row, nth_error (rows dataset_sample) i = Some (k, row) ->
      exists v, nth_error (rows df') i = Some (k, row ++ [ v ]) /\
                most_recent_of wb_country_mapping (rows diabetes_sample) k v.
Proof.
  apply (add_wb_data_diabetes_is_a_left_join diabetes_sample dataset_sample).
  - discriminate.
  - repeat (constructor; [intros H; simpl in H;
                          repeat (destruct H as [H|H]; [discriminate H|]); exact H|]).
    constructor.
  - reflexivity.
Defined.

Example add_wb_data_diabetes_sample :
  _add_wb_data_diabetes diabetes_sample dataset_sample
  = Ok (mkDataFrame [ "cases"; "deaths"; "population_perc_diabetic" ]
          [ ("Italy", [ Num 100; Num 5; NaN ]);
            ("Mainland China", [ Num 458; Num 17; Num 9 ]);
            ("US", [ Num 7; Num 0; Num 11 ]) ]).
Proof. reflexivity. Qed.

Lemma getitem_label_at (df : DataFrame string cell) (label : string) (p : nat) :
  position_of label (columns df) = Some p ->
  getitem_label df label = Ok (map (fun r => (fst r, nth p (snd r) NaN)) (rows df)).
Proof.
  intros Hp. unfold getitem_label. rewrite Hp. reflexivity.
Qed.

(** X17.  [_add_cpi_data] is a left join on the country key: on a dataset
    with rows, and a sheet that has the score column and in which no two rows
    get the same name once renamed, it adds one column, [cpi_score_2019],
    after the columns of the dataset, keeps every row and its cells, and
    gives a row the score of the sheet row whose renamed name is the key of
    the row ([US] has the score of [United States of America]), or the
    missing value when the sheet has no such row. *)
Theorem add_cpi_data_is_a_left_join :
  forall (cpi_data df_input : DataFrame string cell) (p : nat),
    rows df_input <> [] ->
    position_of "CPI score 2019" (columns cpi_data) = Some p ->
    NoDup (map (rename_label cpi_country_mapping) (index cpi_data)) ->
    position_of "cpi_score_2019" (columns df_input) = None ->
    exists df',
      _add_cpi_data cpi_data df_input = Ok df' /\
      columns df' = columns df_input ++ [ "cpi_score_2019" ] /\
      length (rows df') = length (rows df_input) /\
      forall i k row, nth_error (rows df_input) i = Some (k, row) ->
        exists v,
          nth_error (rows df') i = Some (k, row ++ [ v ]) /\
          (forall k0 cells, In (k0, cells) (rows cpi_data) ->
                            rename_label cpi_country_mapping k0 = k ->
                            v = nth p cells NaN) /\
          ((forall k0 cells, In (k0, cells) (rows cpi_data) ->
                             rename_label cpi_country_mapping k0 <> k) ->
           v = NaN).
Proof.
  intros cpi_data df_input p Hrows Hp Hnd Hnew.
  set (score := map (fun r : string * list cell =>
                       (rename_label cpi_country_mapping (fst r), nth p (snd r) NaN))
                    (rows cpi_data)).
  assert (Hscore : getitem_label (rename_index cpi_country_mapping cpi_data)
                                 "CPI score 2019" = Ok score).
  { rewrite (getitem_label_at _ _ p) by exact Hp.
    unfold rename_index, score. cbn [rows]. rewrite map_map. reflexivity. }
  assert (Hunique : NoDup (map fst score)).
  { unfold score. rewrite map_map. cbn [fst].
    unfold index in Hnd. rewrite map_map in Hnd. exact Hnd. }
  unfold _add_cpi_data. rewrite Hscore. cbn [bind].
  rewrite setitem_series_joins by assumption.
  eexists. split; [reflexivity|]. cbn [columns rows].
  split; [reflexivity|]. split; [apply length_map|].
  intros i k row Hrow. eexists.
  rewrite nth_error_map, Hrow. split; [reflexivity|]. cbn [fst]. split.
  - intros k0 cells Hin Hk. apply series_at_In; [exact Hunique|].
    apply in_map_iff. exists (k0, cells). rewrite <- Hk. auto.
  - intros Hnone. apply series_at_absent.
    intros Hin. apply in_map_iff in Hin as ([k' v'] & Hk' & Hin).
    apply in_map_iff in Hin as ([k0 cells] & [= <- <-] & Hin).
    apply (Hnone k0 cells Hin). exact Hk'.
Qed.

Lemma add_cpi_data_is_a_left_join_witness :
  exists df',
    _add_cpi_data cpi_sample dataset_sample = Ok df' /\
    columns df' = columns dataset_sample ++ [ "cpi_score_2019" ] /\
    length (rows df') = length (rows dataset_sample) /\
    forall i k row, nth_error (rows dataset_sample) i = Some (k, row) ->
      exists v,
        nth_error (rows df') i = Some (k, row ++ [ v ]) /\
        (forall k0 cells, In (k0, cells) (rows cpi_sample) ->
                          rename_label cpi_country_mapping k0 = k ->
                          v = nth 2 cells NaN) /\
        ((forall k0 cells, In (k0, cells) (rows cpi_sample) ->
                           rename_label cpi_country_mapping k0 <> k) ->
         v = NaN).
Proof.
  apply (add_cpi_data_is_a_left_join cpi_sample dataset_sample 2).
  - discriminate.
  - reflexivity.
  - repeat (constructor; [intros H; simpl in H;
                          repeat (destruct H as [H|H]; [discriminate H|]); exact H|]).
    constructor.
  - reflexivity.
Defined.

Example add_cpi_data_sample :
  _add_cpi_data cpi_sample dataset_sample
  = Ok (mkDataFrame [ "cases"; "deaths"; "cpi_score_2019" ]
          [ ("Italy", [ Num 100; Num 5; NaN ]);
            ("Mainland China", [ Num 458; Num 17; Num 41 ]);
            ("US", [ Num 7; Num 0; Num 69 ]) ]).
Proof. reflexivity. Qed.

Lemma reindexer_on_duplicate_labels (frame_index : list string) (value : Series cell) :
  frame_index <> [] -> ~ NoDup (map fst value) -> map fst value <> frame_index ->
  reindexer frame_index value = Raise ValueError.
Proof.
  intros Hrows Hdup Hne. unfold reindexer.
  destruct (index_equals (map fst value) frame_index) eqn:Heq;
    [apply index_equals_eq in Heq; contradiction|].
  destruct frame_index; [congruence|]. simpl.
  destruct (is_unique (map fst value)) eqn:Hu; [|reflexivity].
  apply is_unique_NoDup in Hu. contradiction.
Qed.

(** X18.  [_add_cpi_data] raises [KeyError] when the sheet has no column
    [CPI score 2019].  On a dataset with rows it raises [ValueError] when two
    rows of the sheet get the same name once renamed (a sheet that lists both
    [China] and [Mainland China], say), unless the renamed names are the
    index of the dataset, label for label. *)
Theorem add_cpi_data_errors :
  forall (cpi_data df_input : DataFrame string cell),
    (position_of "CPI score 2019" (columns cpi_data) = None ->
     _add_cpi_data cpi_data df_input = Raise KeyError) /\
    (forall p,
        position_of "CPI score 2019" (columns cpi_data) = Some p ->
        rows df_input <> [] ->
        ~ NoDup (map (rename_label cpi_country_mapping) (index cpi_data)) ->
        map (rename_label cpi_country_mapping) (index cpi_data) <> index df_input ->
        _add_cpi_data cpi_data df_input = Raise ValueError).
Proof.
  intros cpi_data df_input. split.
  - intros Hnone. unfold _add_cpi_data, getitem_label.
    cbn [rename_index columns]. rewrite Hnone. reflexivity.
  - intros p Hp Hrows Hdup Hne.
    unfold _add_cpi_data. rewrite (getitem_label_at _ _ p) by exact Hp.
    cbn [bind].
    assert (Hidx : map fst (map (fun r : string * list cell =>
                                   (fst r, nth p (snd r) NaN))
                                (rows (rename_index cpi_country_mapping cpi_data)))
                   = map (rename_label cpi_country_mapping) (index cpi_data)).
    { unfold rename_index, index. cbn [rows]. rewrite !map_map. reflexivity. }
    unfold setitem_series, _ensure_valid_index.
    destruct (rows df_input) as [|r rws] eqn:Hr; [congruence|].
    rewrite reindexer_on_duplicate_labels; [reflexivity| | |].
    + unfold index. rewrite Hr. discriminate.
    + rewrite Hidx. exact Hdup.
    + rewrite Hidx. exact Hne.
Qed.

Example add_cpi_data_with_two_chinas :
  _add_cpi_data cpi_with_two_chinas dataset_sample = Raise ValueError /\
  _add_cpi_data diabetes_sample dataset_sample = Raise KeyError.
Proof. split; reflexivity. Qed.

Lemma selection_by_series_code (rws : list (string * list cell)) (p : nat)
      (code : string) :
  map fst (filter (fun rc : string * list cell * (string * cell) =>
                     cell_is code (snd (snd rc)))
                  (combine rws (map (fun r => (fst r, nth p (snd r) NaN)) rws)))
  = filter (fun r => cell_is code (nth p (snd r) NaN)) rws.
Proof.
  induction rws as [|r rws IH]; [reflexivity|].
  cbn [map combine filter fst snd].
  destruct (cell_is code (nth p (snd r) NaN)); cbn [map fst]; rewrite IH; reflexivity.
Qed.

Lemma fold_left_ext {A B : Type} (f g : A -> B -> A) (l : list B) (a : A) :
  (forall x y, f x y = g x y) -> fold_left f l a = fold_left g l a.
Proof.
  intros Hfg. revert a; induction l as [|b l IH]; intros a; simpl; [reflexivity|].
  rewrite Hfg. apply IH.
Qed.

Lemma _add_wb_data_steps (wb_data df_input : DataFrame string cell) (p : nat) :
  position_of "Series Code" (columns wb_data) = Some p ->
  _add_wb_data wb_data df_input
  = fold_left (fun acc cov =>
                 df <- acc ;;
                 setitem_series df (snd cov) (covariate_series wb_data p (fst cov)))
              wb_covariates (Ok df_input).
Proof.
  intros Hp. unfold _add_wb_data. apply fold_left_ext.
  intros [df|e] cov; cbn [bind]; [|reflexivity].
  rewrite (getitem_label_at _ _ p) by exact Hp. cbn [bind].
  rewrite selection_by_series_code. reflexivity.
Qed.

Lemma position_of_app_new (c x : string) (cols : list string) :
  position_of c cols = None -> c <> x -> position_of c (cols ++ [ x ]) = None.
Proof.
  intros Hnone Hne. induction cols as [|c' cols IH]; simpl in *.
  - apply String.eqb_neq in Hne. rewrite Hne. reflexivity.
  - destruct (c =? c'); [discriminate|].
    destruct (position_of c cols); [discriminate|].
    rewrite IH by reflexivity. reflexivity.
Qed.

(** The joins of a list of covariates, one after the other. *)
Lemma joins_in_a_row (series_of : string -> Series cell)
      (todo : list (string * string)) (df : DataFrame string cell) :
  rows df <> [] ->
  NoDup (map snd todo) ->
  (forall cov, In cov todo -> position_of (snd cov) (columns df) = None) ->
  (forall cov, In cov todo -> NoDup (map fst (series_of (fst cov)))) ->
  fold_left (fun acc cov =>
               df <- acc ;; setitem_series df (snd cov) (series_of (fst cov)))
            todo (Ok df)
  = Ok (mkDataFrame
          (columns df ++ map snd todo)
          (map (fun r => (fst r,
                          snd r ++ map (fun cov => series_at (series_of (fst cov)) (fst r))
                                       todo))
               (rows df))).
Proof.
  revert df; induction todo as [|cov todo IH]; intros df Hrows Hnames Hnew Hunique.
  - cbn [fold_left map]. destruct df as [cols rws]. cbn [columns rows].
    rewrite app_nil_r. f_equal. f_equal.
    rewrite <- (map_id rws) at 1. apply map_ext.
    intros [k row]. cbn [fst snd]. rewrite app_nil_r. reflexivity.
  - cbn [fold_left bind].
    rewrite setitem_series_joins;
      [|exact Hrows | apply Hunique; left; reflexivity | apply Hnew; left; reflexivity].
    inversion Hnames as [|x l Hfresh Hnames']; subst.
    rewrite IH; cbn [columns rows].
    + rewrite <- app_assoc. cbn [app map]. f_equal. f_equal.
      rewrite map_map. apply map_ext. intros r. cbn [fst snd].
      rewrite <- app_assoc. reflexivity.
    + destruct (rows df); [congruence | discriminate].
    + exact Hnames'.
    + intros cov' Hin'. apply position_of_app_new; [apply Hnew; right; exact Hin'|].
      intros Heq. apply Hfresh. rewrite <- Heq. apply in_map. exact Hin'.
    + intros cov' Hin'. apply Hunique. right; exact Hin'.
Qed.

Lemma Forall2_map_right {A B : Type} (P : A -> B -> Prop) (f : A -> B) (l : list A) :
  (forall a, In a l -> P a (f a)) -> Forall2 P l (map f l).
Proof.
  induction l as [|a l IH]; intros Hall; simpl; constructor.
  - apply Hall. left; reflexivity.
  - apply IH. intros a' Ha'. apply Hall. right; exact Ha'.
Qed.

(** X19.  [_add_wb_data] joins the five World Bank covariates in the order
    of the list: on a dataset with rows, and a table with a [Series Code]
    column in which, for each of the five codes, no two rows of that code get
    the same name once renamed, it adds the five columns after the columns of
    the dataset, keeps every row and its cells, and gives a row, for each
    covariate, the most recent value of the table row that has the code of
    the covariate and whose renamed name is the key of the row, or the
    missing value when there is no such row. *)
Theorem add_wb_data_joins_the_five_covariates :
  forall (wb_data df_input : DataFrame string cell) (p : nat),
    rows df_input <> [] ->
    position_of "Series Code" (columns wb_data) = Some p ->
    (forall cov, In cov wb_covariates ->
       NoDup (map (rename_label wb_country_mapping)
                  (map fst (records_of_series wb_data p (fst cov))))) ->
    (forall cov, In cov wb_covariates ->
       position_of (snd cov) (columns df_input) = None) ->
    exists df',
      _add_wb_data wb_data df_input = Ok df' /\
      columns df' = columns df_input ++ map snd wb_covariates /\
      length (rows df') = length (rows df_input) /\
      forall i k row, nth_error (rows df_input) i = Some (k, row) ->
        exists vs,
          nth_error (rows df') i = Some (k, row ++ vs) /\
          Forall2 (fun cov v =>
                     most_recent_of wb_country_mapping
                                    (records_of_series wb_data p (fst cov)) k v)
                  wb_covariates vs.
Proof.
  intros wb_data df_input p Hrows Hp Hunique Hnew.
  assert (Hseries : forall cov, In cov wb_covariates ->
                      NoDup (map fst (covariate_series wb_data p (fst cov)))).
  { intros cov Hin. unfold covariate_series.
    destruct (most_recent_value_of_renamed wb_country_mapping (columns wb_data)
                (records_of_series wb_data p (fst cov))) as [Hidx _].
    rewrite Hidx. apply Hunique. exact Hin. }
  rewrite (_add_wb_data_steps _ _ p Hp).
  rewrite (joins_in_a_row (covariate_series wb_data p));
    [|exact Hrows
     |repeat (constructor; [intros H; simpl in H;
                            repeat (destruct H as [H|H]; [discriminate H|]);
                            exact H|]); constructor
     |exact Hnew | exact Hseries].
  eexists. split; [reflexivity|]. cbn [columns rows].
  split; [reflexivity|]. split; [apply length_map|].
  intros i k row Hrow. eexists.
  rewrite nth_error_map, Hrow. split; [reflexivity|]. cbn [fst].
  apply Forall2_map_right. intros cov Hin.
  unfold covariate_series.
  destruct (most_recent_value_of_renamed wb_country_mapping (columns wb_data)
              (records_of_series wb_data p (fst cov))) as [_ Hval].
  apply Hval. apply (Hseries cov Hin).
Qed.

Lemma add_wb_data_joins_the_five_covariates_witness :
  exists df',
    _add_wb_data wb_sample dataset_sample = Ok df' /\
    columns df' = columns dataset_sample ++ map snd wb_covariates /\
    length (rows df') = length (rows dataset_sample) /\
    forall i k row, nth_error (rows dataset_sample) i = Some (k, row) ->
      exists vs,
        nth_error (rows df') i = Some (k, row ++ vs) /\
        Forall2 (fun cov v =>
                   most_recent_of wb_country_mapping
                                  (records_of_series wb_sample 2 (fst cov)) k v)
                wb_covariates vs.
Proof.
  apply (add_wb_data_joins_the_five_covariates wb_sample dataset_sample 2).
  - discriminate.
  - reflexivity.
  - intros cov Hin. simpl in Hin.
    repeat (destruct Hin as [<-|Hin];
            [vm_compute;
             repeat (constructor; [intros H; simpl in H;
                                   repeat (destruct H as [H|H]; [discriminate H|]);
                                   exact H|]);
             constructor|]).
    destruct Hin.
  - intros cov Hin. simpl in Hin.
    repeat (destruct Hin as [<-|Hin]; [reflexivity|]). destruct Hin.
Defined.

Example add_wb_data_sample :
  _add_wb_data wb_sample dataset_sample
  = Ok (mkDataFrame
          [ "cases"; "deaths"; "healthcare_oop_expenditure"; "hospital_beds"; "hci";
            "population_perc_over65"; "population_perc_rural" ]
          [ ("Italy", [ Num 100; Num 5; NaN; Num 3; Num (8 # 10); NaN; NaN ]);
            ("Mainland China", [ Num 458; Num 17; NaN; NaN; NaN; NaN; NaN ]);
            ("US", [ Num 7; Num 0; NaN; NaN; NaN; NaN; Num 18 ]) ]).
Proof. reflexivity. Qed.

(** X20.  [_add_wb_data] raises [KeyError] on a table without a
    [Series Code] column, whatever the dataset: the selection of the first
    covariate fails before any column is added. *)
Theorem add_wb_data_needs_the_series_code :
  forall (wb_data df_input : DataFrame string cell),
    position_of "Series Code" (columns wb_data) = None ->
    _add_wb_data wb_data df_input = Raise KeyError.
Proof.
  intros wb_data df_input Hnone. unfold _add_wb_data, wb_covariates.
  cbn [fold_left]. cbn [bind]. unfold getitem_label at 1. rewrite Hnone. cbn [bind].
  reflexivity.
Qed.

Lemma add_wb_data_needs_the_series_code_witness :
  _add_wb_data cpi_sample dataset_sample = Raise KeyError.
Proof.
  apply (add_wb_data_needs_the_series_code cpi_sample dataset_sample). reflexivity.
Defined.

End MakeDatasetCoverage.

(** * Further properties of build_features.py *)

Module BuildFeaturesCoverage.

Import BuildFeatures BuildFeaturesSpec BuildFeaturesProofs.

Lemma getitem_raises_KeyError (df : DataFrame) (colname : string) (e : exn) :
  getitem df colname = Raise e -> e = KeyError.
Proof.
  induction df as [|c df IH]; simpl.
  - intros [= <-]; reflexivity.
  - destruct (colname =? fst c); [discriminate | exact IH].
Qed.

Lemma setitem_twice (df : DataFrame) (colname : string) (col col' : Column) :
  setitem (setitem df colname col) colname col' = setitem df colname col'.
Proof.
  induction df as [|c df IH]; simpl.
  - rewrite String.eqb_refl. reflexivity.
  - destruct (colname =? fst c) eqn:Hc; simpl.
    + rewrite String.eqb_refl. reflexivity.
    + rewrite Hc, IH. reflexivity.
Qed.

Lemma names_after_setitem (df : DataFrame) (colname : string) (col : Column) :
  map fst (setitem df colname col)
  = if existsb (String.eqb colname) (map fst df)
    then map fst df
    else map fst df ++ [ colname ].
Proof.
  induction df as [|c df IH]; simpl; [reflexivity|].
  destruct (String.eqb_spec colname (fst c)) as [->|Hne]; simpl; [reflexivity|].
  rewrite IH. destruct (existsb (String.eqb colname) (map fst df)); reflexivity.
Qed.

Section NormalizeMore.

Variable sqrt : Q -> Q.

Lemma _normalize_col_known (df : DataFrame) (colname how : string) :
  known_policy how ->
  _normalize_col sqrt df colname how
  = (col <- getitem df colname ;;
     Ok (setitem df (normalized_name colname) (normalized_column sqrt how col))).
Proof.
  unfold _normalize_col, normalized_column, normalized_name.
  intros [ -> | [ -> | -> ] ]; simpl; destruct (getitem df colname); reflexivity.
Qed.

Lemma _normalize_col_unknown (df : DataFrame) (colname how : string) :
  ~ known_policy how -> _normalize_col sqrt df colname how = Ok df.
Proof.
  unfold known_policy. intros Hunknown.
  unfold _normalize_col.
  destruct (String.eqb_spec how "mean"); [tauto|].
  destruct (String.eqb_spec how "upper"); [tauto|].
  destruct (String.eqb_spec how "lower"); [tauto|].
  reflexivity.
Qed.

Lemma known_policy_dec (how : string) : known_policy how \/ ~ known_policy how.
Proof.
  unfold known_policy.
  destruct (String.eqb_spec how "mean"); [auto|].
  destruct (String.eqb_spec how "upper"); [auto|].
  destruct (String.eqb_spec how "lower"); [auto|].
  right; tauto.
Qed.

(** X21.  [_normalize_col] raises exactly when the policy is one of [mean],
    [upper] and [lower] and the frame has no column of the given name, and
    what it raises then is [KeyError]. *)
Theorem normalize_col_raises_on_a_missing_column :
  forall (df : DataFrame) (colname how : string) (e : exn),
    _normalize_col sqrt df colname how = Raise e <->
    e = KeyError /\ known_policy how /\ getitem df colname = Raise KeyError.
Proof.
  intros df colname how e.
  destruct (known_policy_dec how) as [Hknown|Hunknown].
  - rewrite _normalize_col_known by exact Hknown.
    destruct (getitem df colname) as [col|e'] eqn:Hcol; simpl.
    + split; [discriminate | intros (_ & _ & H); discriminate].
    + pose proof (getitem_raises_KeyError _ _ _ Hcol) as ->.
      split; [intros [= <-]; auto | intros (-> & _); reflexivity].
  - rewrite _normalize_col_unknown by exact Hunknown.
    split; [discriminate | intros (_ & H & _); contradiction].
Qed.

(** X22.  When [_normalize_col] returns, every column of the frame other
    than [colname_normalized] is what it was, the column [colname] included;
    under a known policy the frame has a column [colname_normalized] as long
    as [colname], which stands where a column of that name stood before or
    else after the last column. *)
Theorem normalize_col_touches_one_column :
  forall (df df' : DataFrame) (colname how : string),
    _normalize_col sqrt df colname how = Ok df' ->
    (forall other, other <> normalized_name colname ->
                   getitem df' other = getitem df other) /\
    (known_policy how ->
     exists col col',
       getitem df colname = Ok col /\
       getitem df' (normalized_name colname) = Ok col' /\
       length col' = length col /\
       map fst df'
       = if existsb (String.eqb (normalized_name colname)) (map fst df)
         then map fst df
         else map fst df ++ [ normalized_name colname ]).
Proof.
  intros df df' colname how Hok.
  destruct (known_policy_dec how) as [Hknown|Hunknown].
  - rewrite _normalize_col_known in Hok by exact Hknown.
    destruct (getitem df colname) as [col|e] eqn:Hcol; simpl in Hok; [|discriminate].
    injection Hok as <-. split.
    + intros other Hother. apply getitem_setitem_other. exact Hother.
    + intros _. exists col, (normalized_column sqrt how col).
      split; [reflexivity|]. split; [apply getitem_setitem|].
      split; [|apply names_after_setitem].
      unfold normalized_column.
      destruct (how =? "mean"); [|destruct (how =? "upper")]; apply length_map.
  - rewrite _normalize_col_unknown in Hok by exact Hunknown.
    injection Hok as <-. split; [reflexivity | intros H; contradiction].
Qed.

(** X23.  Normalising the same column under the same policy a second time
    changes nothing: the first call leaves [colname] as it was, and the
    second writes the same values over [colname_normalized]. *)
Theorem normalize_col_is_idempotent :
  forall (df df' : DataFrame) (colname how : string),
    _normalize_col sqrt df colname how = Ok df' ->
    _normalize_col sqrt df' colname how = Ok df'.
Proof.
  intros df df' colname how Hok.
  destruct (known_policy_dec how) as [Hknown|Hunknown].
  - rewrite _normalize_col_known in * by exact Hknown.
    destruct (getitem df colname) as [col|e] eqn:Hcol; simpl in Hok; [|discriminate].
    injection Hok as <-.
    rewrite getitem_setitem_other by apply normalized_name_differs.
    rewrite Hcol. simpl. rewrite setitem_twice. reflexivity.
  - rewrite _normalize_col_unknown in * by exact Hunknown.
    injection Hok as <-. reflexivity.
Qed.

Lemma normalized_column_of (df df' : DataFrame) (colname how : string) (col : Column) :
  known_policy how ->
  getitem df colname = Ok col ->
  _normalize_col sqrt df colname how = Ok df' ->
  getitem df' (normalized_name colname) = Ok (normalized_column sqrt how col).
Proof.
  intros Hknown Hcol Hok.
  rewrite _normalize_col_known, Hcol in Hok by exact Hknown.
  simpl in Hok. injection Hok as <-. apply getitem_setitem.
Qed.

Lemma normalize_returns (df : DataFrame) (colname how : string) (col : Column) :
  known_policy how ->
  getitem df colname = Ok col ->
  _normalize_col sqrt df colname how
  = Ok (setitem df (normalized_name colname) (normalized_column sqrt how col)).
Proof.
  intros Hknown Hcol. rewrite _normalize_col_known, Hcol by exact Hknown.
  reflexivity.
Qed.

Lemma upper_cell (col : Column) (m M x : Q) (i : nat) :
  series_min col = Fin m -> series_max col = Fin M -> m < M ->
  nth_error col i = Some (Fin x) ->
  nth_error (normalized_column sqrt "upper" col) i
  = Some (Fin ((x - M) / (M - m))).
Proof.
  intros Hmin Hmax HmM Hx. unfold normalized_column. simpl.
  rewrite nth_error_map, Hx, Hmin, Hmax. simpl.
  rewrite Qeq_bool_false_of_pos by lra. reflexivity.
Qed.

Lemma lower_cell (col : Column) (m M x : Q) (i : nat) :
  series_min col = Fin m -> series_max col = Fin M -> m < M ->
  nth_error col i = Some (Fin x) ->
  nth_error (normalized_column sqrt "lower" col) i
  = Some (Fin ((x - m) / (M - m))).
Proof.
  intros Hmin Hmax HmM Hx. unfold normalized_column. simpl.
  rewrite nth_error_map, Hx, Hmin, Hmax. simpl.
  rewrite Qeq_bool_false_of_pos by lra. reflexivity.
Qed.

(** X24.  On a numeric column whose maximum is greater than its minimum the
    two range policies differ by a shift of one: on every row that holds a
    number, the value under [lower] is the value under [upper] plus 1. *)
Theorem lower_is_upper_plus_one :
  forall (df : DataFrame) (colname : string) (col : Column),
    getitem df colname = Ok col ->
    numeric_column col ->
    flt (series_min col) (series_max col) = true ->
    exists dfu dfl colu coll,
      _normalize_col sqrt df colname "upper" = Ok dfu /\
      _normalize_col sqrt df colname "lower" = Ok dfl /\
      getitem dfu (normalized_name colname) = Ok colu /\
      getitem dfl (normalized_name colname) = Ok coll /\
      forall i x, nth_error col i = Some (Fin x) ->
        exists u l, nth_error colu i = Some (Fin u) /\
                    nth_error coll i = Some (Fin l) /\ l == u + 1.
Proof.
  intros df colname col Hcol Hnum Hlt.
  destruct (numeric_range col Hnum Hlt)
    as (m & M & Hmin & Hmax & HmM & _ & _ & _).
  assert (Hu : known_policy "upper") by (right; left; reflexivity).
  assert (Hl : known_policy "lower") by (right; right; reflexivity).
  do 4 eexists.
  split; [apply (normalize_returns _ _ _ _ Hu Hcol)|].
  split; [apply (normalize_returns _ _ _ _ Hl Hcol)|].
  split; [apply getitem_setitem|]. split; [apply getitem_setitem|].
  intros i x Hx. do 2 eexists.
  split; [apply (upper_cell _ _ _ _ _ Hmin Hmax HmM Hx)|].
  split; [apply (lower_cell _ _ _ _ _ Hmin Hmax HmM Hx)|].
  field. lra.
Qed.

(** X25.  In exact arithmetic the range policies keep the order of the
    rows: of two numbers of a numeric column whose maximum is greater than
    its minimum, the greater one has the greater normalised value, under
    [upper] and under [lower], and equal numbers have equal values.  (The
    rounding of float64 can make two close values equal, and an overflow or
    a wrap-around of [max - min] undoes the order; [BuildFeatures] has
    neither.) *)
Theorem range_policies_keep_the_order :
  forall (df : DataFrame) (colname how : string) (col : Column),
    getitem df colname = Ok col ->
    numeric_column col ->
    flt (series_min col) (series_max col) = true ->
    how = "upper" \/ how = "lower" ->
    exists df' col',
      _normalize_col sqrt df colname how = Ok df' /\
      getitem df' (normalized_name colname) = Ok col' /\
      forall i j x y,
        nth_error col i = Some (Fin x) -> nth_error col j = Some (Fin y) ->
        exists a b, nth_error col' i = Some (Fin a) /\
                    nth_error col' j = Some (Fin b) /\
                    (x <= y -> a <= b) /\ (x < y -> a < b).
Proof.
  intros df colname how col Hcol Hnum Hlt Hhow.
  destruct (numeric_range col Hnum Hlt)
    as (m & M & Hmin & Hmax & HmM & _ & _ & _).
  assert (Hd : 0 < M - m) by lra.
  assert (Hknown : known_policy how) by (destruct Hhow; [right; left | right; right]; assumption).
  do 2 eexists.
  split; [apply (normalize_returns _ _ _ _ Hknown Hcol)|].
  split; [apply getitem_setitem|].
  intros i j x y Hx Hy.
  destruct Hhow as [-> | ->].
  - do 2 eexists.
    split; [apply (upper_cell _ _ _ _ _ Hmin Hmax HmM Hx)|].
    split; [apply (upper_cell _ _ _ _ _ Hmin Hmax HmM Hy)|].
    split; intros Hxy.
    + apply Qle_shift_div_l; [exact Hd|].
      unfold Qdiv. rewrite <- Qmult_assoc, (Qmult_comm (/ (M - m))).
      rewrite Qmult_inv_r by lra. lra.
    + apply Qlt_shift_div_l; [exact Hd|].
      unfold Qdiv. rewrite <- Qmult_assoc, (Qmult_comm (/ (M - m))).
      rewrite Qmult_inv_r by lra. lra.
  - do 2 eexists.
    split; [apply (lower_cell _ _ _ _ _ Hmin Hmax HmM Hx)|].
    split; [apply (lower_cell _ _ _ _ _ Hmin Hmax HmM Hy)|].
    split; intros Hxy.
    + apply Qle_shift_div_l; [exact Hd|].
      unfold Qdiv. rewrite <- Qmult_assoc, (Qmult_comm (/ (M - m))).
      rewrite Qmult_inv_r by lra. lra.
    + apply Qlt_shift_div_l; [exact Hd|].
      unfold Qdiv. rewrite <- Qmult_assoc, (Qmult_comm (/ (M - m))).
      rewrite Qmult_inv_r by lra. lra.
Qed.

(** X26.  In exact arithmetic both ends of the range are reached: on a
    numeric column whose maximum is greater than its minimum, [upper] sends
    the minimum of the column to exactly -1 and [lower] sends its maximum to
    exactly 1.  (Where [max - min] overflows or wraps around, the program
    gives another value; [BuildFeatures] has neither.) *)
Theorem range_policies_reach_the_far_end :
  forall (df : DataFrame) (colname : string) (col : Column),
    getitem df colname = Ok col ->
    numeric_column col ->
    flt (series_min col) (series_max col) = true ->
    exists dfu dfl colu coll,
      _normalize_col sqrt df colname "upper" = Ok dfu /\
      _normalize_col sqrt df colname "lower" = Ok dfl /\
      getitem dfu (normalized_name colname) = Ok colu /\
      getitem dfl (normalized_name colname) = Ok coll /\
      In (series_min col) col /\ In (series_max col) col /\
      (forall i, nth_error col i = Some (series_min col) ->
                 exists u, nth_error colu i = Some (Fin u) /\ u == -1) /\
      (forall i, nth_error col i = Some (series_max col) ->
                 exists l, nth_error coll i = Some (Fin l) /\ l == 1).
Proof.
  intros df colname col Hcol Hnum Hlt.
  destruct (numeric_range col Hnum Hlt)
    as (m & M & Hmin & Hmax & HmM & Hm & HM & _).
  assert (Hu : known_policy "upper") by (right; left; reflexivity).
  assert (Hl : known_policy "lower") by (right; right; reflexivity).
  do 4 eexists.
  split; [apply (normalize_returns _ _ _ _ Hu Hcol)|].
  split; [apply (normalize_returns _ _ _ _ Hl Hcol)|].
  split; [apply getitem_setitem|]. split; [apply getitem_setitem|].
  rewrite Hmin, Hmax. split; [exact Hm|]. split; [exact HM|]. split.
  - intros i Hi. eexists.
    split; [apply (upper_cell _ _ _ _ _ Hmin Hmax HmM Hi)|]. field. lra.
  - intros i Hi. eexists.
    split; [apply (lower_cell _ _ _ _ _ Hmin Hmax HmM Hi)|]. field. lra.
Qed.

Lemma fdiv_by_nan (a : float) : fdiv a NaN = NaN.
Proof. destruct a; reflexivity. Qed.

(** X27.  Under [mean] a column with fewer than two present values has no
    standard deviation, and its normalised column is NaN on every row. *)
Theorem mean_policy_needs_two_values :
  forall (df : DataFrame) (colname : string) (col : Column),
    getitem df colname = Ok col ->
    (length (present col) <= 1)%nat ->
    exists df' col',
      _normalize_col sqrt df colname "mean" = Ok df' /\
      getitem df' (normalized_name colname) = Ok col' /\
      length col' = length col /\
      all_missing col'.
Proof.
  intros df colname col Hcol Hfew.
  assert (Hm : known_policy "mean") by (left; reflexivity).
  do 2 eexists.
  split; [apply (normalize_returns _ _ _ _ Hm Hcol)|].
  split; [apply getitem_setitem|].
  unfold normalized_column. simpl. split; [apply length_map|].
  assert (Hstd : series_std sqrt col = NaN).
  { unfold series_std.
    assert (Hle : Qle_bool (count col) 1 = true).
    { apply Qle_bool_iff. unfold count.
      change 1 with (inject_Z 1). rewrite <- Zle_Qle. lia. }
    rewrite Hle. reflexivity. }
  intros y Hy. apply in_map_iff in Hy as (x & <- & _).
  rewrite Hstd. apply fdiv_by_nan.
Qed.

(** *** The mean policy centres the column *)

Lemma present_of_numeric (col : Column) :
  numeric_column col -> forall x, In x (present col) -> exists q, x = Fin q.
Proof.
  intros Hnum x Hx. apply filter_In in Hx as [Hx Hnn].
  specialize (Hnum x Hx). destruct x as [q| |]; [eauto | destruct Hnum | discriminate].
Qed.

Lemma fold_fadd_numbers (l : Column) (a : Q) :
  (forall x, In x l -> exists q, x = Fin q) ->
  exists s, fold_left fadd l (Fin a) = Fin s /\ s == a + finite_sum l.
Proof.
  revert a; induction l as [|x l IH]; intros a Hall; simpl.
  - exists a. split; [reflexivity | ring].
  - destruct (Hall x (or_introl eq_refl)) as [q ->]. simpl.
    destruct (IH (a + q)) as (s & Hs & Heq);
      [intros y Hy; apply Hall; right; exact Hy|].
    exists s. split; [exact Hs|]. rewrite Heq. ring.
Qed.

Lemma inject_length_succ (k : nat) :
  inject_Z (Z.of_nat (S k)) == inject_Z (Z.of_nat k) + 1.
Proof.
  rewrite Nat2Z.inj_succ. unfold Z.succ. rewrite inject_Z_plus. reflexivity.
Qed.

Lemma finite_sum_centred (l : Column) (mu sig : Q) :
  ~ sig == 0 ->
  (forall x, In x l -> exists q, x = Fin q) ->
  finite_sum (map (fun x => fdiv (fsub x (Fin mu)) (Fin sig)) l)
  == (finite_sum l - inject_Z (Z.of_nat (length l)) * mu) / sig.
Proof.
  intros Hsig. induction l as [|x l IH]; intros Hall.
  - simpl. field. exact Hsig.
  - destruct (Hall x (or_introl eq_refl)) as [q ->].
    cbn [map length]. rewrite inject_length_succ.
    assert (Hcell : fdiv (fsub (Fin q) (Fin mu)) (Fin sig) = Fin ((q - mu) / sig)).
    { simpl. destruct (Qeq_bool sig 0) eqn:Hz; [|reflexivity].
      apply Qeq_bool_iff in Hz. contradiction. }
    rewrite Hcell. cbn [finite_sum].
    rewrite IH by (intros y Hy; apply Hall; right; exact Hy).
    field. exact Hsig.
Qed.

Lemma present_of_normalized (col : Column) (mu sig : Q) :
  ~ sig == 0 ->
  numeric_column col ->
  present (map (fun x => fdiv (fsub x (Fin mu)) (Fin sig)) col)
  = map (fun x => fdiv (fsub x (Fin mu)) (Fin sig)) (present col).
Proof.
  intros Hsig. induction col as [|x col IH]; intros Hnum; [reflexivity|].
  apply numeric_column_cons in Hnum as [Hx Hnum].
  unfold present in *. cbn [map filter].
  destruct x as [q| |]; [|destruct Hx|].
  - assert (Hcell : fdiv (fsub (Fin q) (Fin mu)) (Fin sig) = Fin ((q - mu) / sig)).
    { simpl. destruct (Qeq_bool sig 0) eqn:Hz; [|reflexivity].
      apply Qeq_bool_iff in Hz. contradiction. }
    rewrite Hcell. cbn [isnan negb map]. rewrite Hcell, IH by exact Hnum. reflexivity.
  - cbn [fsub fdiv isnan negb]. apply IH; exact Hnum.
Qed.

(** X28.  Under [mean] the normalised column is centred: for a numeric
    column whose standard deviation is a number other than zero, the mean of
    the normalised column is exactly 0. *)
Theorem mean_policy_centres_the_column :
  forall (df : DataFrame) (colname : string) (col : Column) (sig : Q),
    getitem df colname = Ok col ->
    numeric_column col ->
    series_std sqrt col = Fin sig ->
    ~ sig == 0 ->
    exists df' col' mu',
      _normalize_col sqrt df colname "mean" = Ok df' /\
      getitem df' (normalized_name colname) = Ok col' /\
      series_mean col' = Fin mu' /\ mu' == 0.
Proof.
  intros df colname col sig Hcol Hnum Hstd Hsig.
  assert (Hm : known_policy "mean") by (left; reflexivity).
  assert (Hcount : ~ count col == 0).
  { unfold series_std in Hstd.
    destruct (Qle_bool (count col) 1) eqn:Hle; [discriminate|].
    intros Hzero. rewrite Hzero in Hle. discriminate. }
  destruct (fold_fadd_numbers (present col) 0 (present_of_numeric col Hnum))
    as (total & Htotal & Htotal_eq).
  assert (Hmean : series_mean col = Fin (total / count col)).
  { unfold series_mean. rewrite Htotal. simpl.
    destruct (Qeq_bool (count col) 0) eqn:Hz; [|reflexivity].
    apply Qeq_bool_iff in Hz. contradiction. }
  set (col' := map (fun x => fdiv (fsub x (Fin (total / count col))) (Fin sig)) col).
  assert (Hcol' : normalized_column sqrt "mean" col = col').
  { unfold normalized_column. simpl. rewrite Hmean, Hstd. reflexivity. }
  assert (Hpresent : present col'
                     = map (fun x => fdiv (fsub x (Fin (total / count col))) (Fin sig))
                           (present col))
    by (apply present_of_normalized; assumption).
  assert (Hcount' : count col' = count col).
  { unfold count. rewrite Hpresent, length_map. reflexivity. }
  destruct (fold_fadd_numbers (present col') 0) as (total' & Htotal' & Htotal'_eq).
  { rewrite Hpresent. intros y Hy. apply in_map_iff in Hy as (x & <- & Hx).
    destruct (present_of_numeric col Hnum x Hx) as [q ->].
    simpl. destruct (Qeq_bool sig 0) eqn:Hz; [|eauto].
    apply Qeq_bool_iff in Hz. contradiction. }
  exists (setitem df (normalized_name colname) col'), col', (total' / count col).
  split; [rewrite <- Hcol'; apply (normalize_returns _ _ _ _ Hm Hcol)|].
  split; [apply getitem_setitem|]. split.
  - unfold series_mean. rewrite Htotal', Hcount'. simpl.
    destruct (Qeq_bool (count col) 0) eqn:Hz; [|reflexivity].
    apply Qeq_bool_iff in Hz. contradiction.
  - rewrite Htotal'_eq, Hpresent.
    rewrite finite_sum_centred by (try exact Hsig; apply present_of_numeric; exact Hnum).
    fold (count col). 
    assert (Hsum : finite_sum (present col) == total) by (rewrite Htotal_eq; ring).
    rewrite Hsum. field. split; assumption.
Qed.

(** *** build_features *)

Lemma build_features_is_normalize_each (df : DataFrame) :
  build_features sqrt df = normalize_each sqrt features_policy df.
Proof.
  unfold build_features, features_policy. cbn [normalize_each fst snd].
  repeat match goal with
         | |- bind ?c _ = bind ?c _ => destruct c; cbn [bind]; [|reflexivity]
         end.
  destruct (_normalize_col sqrt _ _ _); reflexivity.
Qed.

Lemma getitem_Ok_or_KeyError (df : DataFrame) (colname : string) :
  (exists col, getitem df colname = Ok col) \/ getitem df colname = Raise KeyError.
Proof.
  destruct (getitem df colname) as [col|e] eqn:H; [eauto|].
  right. rewrite (getitem_raises_KeyError _ _ _ H). reflexivity.
Qed.

Lemma known_policies_In (policy : list (string * string)) (ch : string * string) :
  known_policies policy = true -> In ch policy -> known_policy (snd ch).
Proof.
  unfold known_policies. rewrite forallb_forall. intros Hall Hin.
  specialize (Hall ch Hin).
  apply orb_true_iff in Hall as [Hall|Hall];
    [apply orb_true_iff in Hall as [Hall|Hall]|];
    apply String.eqb_eq in Hall; unfold known_policy; auto.
Qed.

Lemma independent_names_In (policy : list (string * string)) (ch ch' : string * string) :
  independent_names policy = true -> In ch policy -> In ch' policy ->
  fst ch <> normalized_name (fst ch').
Proof.
  unfold independent_names. rewrite forallb_forall. intros Hall Hin Hin'.
  specialize (Hall ch Hin). rewrite forallb_forall in Hall.
  specialize (Hall ch' Hin'). apply negb_true_iff in Hall.
  apply String.eqb_neq. exact Hall.
Qed.

Lemma independent_names_tail (ch : string * string) (policy : list (string * string)) :
  independent_names (ch :: policy) = true -> independent_names policy = true.
Proof.
  unfold independent_names. rewrite !forallb_forall. intros Hall ch1 Hin1.
  rewrite forallb_forall. intros ch2 Hin2.
  specialize (Hall ch1 (or_intror Hin1)). rewrite forallb_forall in Hall.
  apply Hall. right; exact Hin2.
Qed.

Lemma known_policies_tail (ch : string * string) (policy : list (string * string)) :
  known_policies (ch :: policy) = true -> known_policies policy = true.
Proof.
  unfold known_policies. simpl. intros H. apply andb_true_iff in H as [_ H]. exact H.
Qed.

(** A step of [build_features] leaves the columns still to be normalised as
    they were. *)
Lemma step_keeps_sources (policy : list (string * string)) (ch ch' : string * string)
      (df : DataFrame) (col : Column) :
  independent_names policy = true -> In ch policy -> In ch' policy ->
  getitem (setitem df (normalized_name (fst ch)) col) (fst ch') = getitem df (fst ch').
Proof.
  intros Hind Hin Hin'. apply getitem_setitem_other.
  apply (independent_names_In policy ch' ch); assumption.
Qed.

Lemma normalize_each_returns (policy todo : list (string * string)) (df : DataFrame) :
  known_policies policy = true -> independent_names policy = true ->
  incl todo policy ->
  (forall ch, In ch todo -> exists col, getitem df (fst ch) = Ok col) ->
  exists df',
    normalize_each sqrt todo df = Ok df' /\
    (forall other, (forall ch, In ch todo -> other <> normalized_name (fst ch)) ->
                   getitem df' other = getitem df other).
Proof.
  intros Hknown Hind. revert df.
  induction todo as [|ch todo IH]; intros df Hsub Hall.
  - exists df. split; [reflexivity | auto].
  - destruct (Hall ch (or_introl eq_refl)) as [col Hcol].
    assert (Hin : In ch policy) by (apply Hsub; left; reflexivity).
    cbn [normalize_each].
    rewrite (normalize_returns _ _ _ _ (known_policies_In _ ch Hknown Hin) Hcol).
    cbn [bind].
    destruct (IH (setitem df (normalized_name (fst ch))
                          (normalized_column sqrt (snd ch) col)))
      as (df' & Hdf' & Hother).
    + intros ch' Hin'. apply Hsub. right; exact Hin'.
    + intros ch' Hin'.
      rewrite (step_keeps_sources policy ch ch') by
          (try exact Hind; try exact Hin; apply Hsub; right; exact Hin').
      apply Hall. right; exact Hin'.
    + exists df'. split; [exact Hdf'|].
      intros other Hne. rewrite Hother by (intros ch' Hin'; apply Hne; right; exact Hin').
      apply getitem_setitem_other. apply Hne. left; reflexivity.
Qed.

Lemma normalize_each_raises (policy todo : list (string * string)) (df : DataFrame) :
  known_policies policy = true -> independent_names policy = true ->
  incl todo policy ->
  (exists ch, In ch todo /\ getitem df (fst ch) = Raise KeyError) ->
  normalize_each sqrt todo df = Raise KeyError.
Proof.
  intros Hknown Hind. revert df.
  induction todo as [|ch todo IH]; intros df Hsub (bad & Hbad & Hmissing).
  - destruct Hbad.
  - assert (Hin : In ch policy) by (apply Hsub; left; reflexivity).
    cbn [normalize_each].
    rewrite _normalize_col_known by exact (known_policies_In _ ch Hknown Hin).
    destruct (getitem_Ok_or_KeyError df (fst ch)) as [[col Hcol]|Hcol];
      rewrite Hcol; cbn [bind]; [|reflexivity].
    destruct Hbad as [<-|Hbad]; [congruence|].
    apply IH.
    + intros ch' Hin'. apply Hsub. right; exact Hin'.
    + exists bad. split; [exact Hbad|].
      rewrite (step_keeps_sources policy ch bad) by
          (try exact Hind; try exact Hin; apply Hsub; right; exact Hbad).
      exact Hmissing.
Qed.

Lemma all_there_or_one_missing (df : DataFrame) (names : list string) :
  (forall c, In c names -> exists col, getitem df c = Ok col) \/
  (exists c, In c names /\ getitem df c = Raise KeyError).
Proof.
  induction names as [|c l IH]; [left; intros c []|].
  destruct (getitem_Ok_or_KeyError df c) as [Hc|Hc].
  - destruct IH as [IH|(c' & Hin & Hmissing)].
    + left. intros c' [<-|Hin]; auto.
    + right. exists c'. split; [right; exact Hin | exact Hmissing].
  - right. exists c. split; [left; reflexivity | exact Hc].
Qed.

(** X29.  [build_features] returns a frame exactly when the frame it is given
    has all eight covariate columns; when one of them is not there it raises
    [KeyError], and nothing else is ever raised. *)
Theorem build_features_needs_the_eight_columns :
  forall df : DataFrame,
    ((exists df', build_features sqrt df = Ok df') <->
     forall c, In c (map fst features_policy) -> exists col, getitem df c = Ok col) /\
    (forall e, build_features sqrt df = Raise e <->
               e = KeyError /\
               exists c, In c (map fst features_policy) /\
                         getitem df c = Raise KeyError).
Proof.
  intros df. rewrite build_features_is_normalize_each.
  assert (Hok : (forall c, In c (map fst features_policy) ->
                           exists col, getitem df c = Ok col) ->
                exists df', normalize_each sqrt features_policy df = Ok df').
  { intros Hall.
    destruct (normalize_each_returns features_policy features_policy df
                eq_refl eq_refl (incl_refl _))
      as (df' & Hdf' & _); [|eauto].
    intros ch Hin. apply Hall. apply in_map. exact Hin. }
  assert (Hraise : (exists c, In c (map fst features_policy) /\
                              getitem df c = Raise KeyError) ->
                   normalize_each sqrt features_policy df = Raise KeyError).
  { intros (c & Hin & Hmissing).
    apply in_map_iff in Hin as (ch & <- & Hin).
    apply (normalize_each_raises features_policy); try reflexivity;
      [apply incl_refl | eauto]. }
  assert (Hcases : (forall c, In c (map fst features_policy) ->
                              exists col, getitem df c = Ok col) \/
                   (exists c, In c (map fst features_policy) /\
                              getitem df c = Raise KeyError))
    by apply all_there_or_one_missing.
  split; [split|intros e; split].
  - intros (df' & Hdf'). destruct Hcases as [Hall|Hbad]; [exact Hall|].
    rewrite (Hraise Hbad) in Hdf'. discriminate.
  - exact Hok.
  - intros He. destruct Hcases as [Hall|Hbad].
    + destruct (Hok Hall) as (df' & Hdf'). congruence.
    + rewrite (Hraise Hbad) in He. injection He as <-. auto.
  - intros (-> & Hbad). apply Hraise. exact Hbad.
Qed.

Lemma normalize_each_keeps_others (todo : list (string * string))
      (df df' : DataFrame) :
  normalize_each sqrt todo df = Ok df' ->
  forall other, (forall ch, In ch todo -> other <> normalized_name (fst ch)) ->
                getitem df' other = getitem df other.
Proof.
  revert df; induction todo as [|ch todo IH]; intros df Hok other Hne.
  - injection Hok as <-. reflexivity.
  - cbn [normalize_each] in Hok.
    destruct (_normalize_col sqrt df (fst ch) (snd ch)) as [df1|e] eqn:Hstep;
      cbn [bind] in Hok; [|discriminate].
    rewrite (IH df1 Hok other) by (intros ch' Hin'; apply Hne; right; exact Hin').
    destruct (known_policy_dec (snd ch)) as [Hknown|Hunknown].
    + rewrite _normalize_col_known in Hstep by exact Hknown.
      destruct (getitem df (fst ch)) as [col|e]; cbn [bind] in Hstep; [|discriminate].
      injection Hstep as <-. apply getitem_setitem_other.
      apply Hne. left; reflexivity.
    + rewrite _normalize_col_unknown in Hstep by exact Hunknown.
      injection Hstep as <-. reflexivity.
Qed.

Lemma normalize_each_columns (policy todo : list (string * string))
      (df df' : DataFrame) :
  known_policies policy = true -> independent_names policy = true ->
  incl todo policy ->
  NoDup (map (fun ch => normalized_name (fst ch)) todo) ->
  normalize_each sqrt todo df = Ok df' ->
  forall ch, In ch todo ->
    exists col, getitem df (fst ch) = Ok col /\
                getitem df' (normalized_name (fst ch))
                = Ok (normalized_column sqrt (snd ch) col).
Proof.
  intros Hknown Hind. revert df.
  induction todo as [|ch0 todo IH]; intros df Hsub Hnd Hok ch Hin; [destruct Hin|].
  assert (Hin0 : In ch0 policy) by (apply Hsub; left; reflexivity).
  pose proof (known_policies_In _ ch0 Hknown Hin0) as Hk0.
  cbn [normalize_each] in Hok.
  rewrite _normalize_col_known in Hok by exact Hk0.
  destruct (getitem df (fst ch0)) as [col0|e] eqn:Hcol0; cbn [bind] in Hok;
    [|discriminate].
  cbn [map] in Hnd. inversion Hnd as [|x l Hfresh Hnd']; subst.
  destruct Hin as [<-|Hin].
  - exists col0. split; [exact Hcol0|].
    rewrite (normalize_each_keeps_others _ _ _ Hok).
    + apply getitem_setitem.
    + intros ch' Hin' Heq. apply Hfresh.
      apply in_map_iff. exists ch'. split; [symmetry; exact Heq | exact Hin'].
  - destruct (IH _ (fun c Hc => Hsub c (or_intror Hc)) Hnd' Hok ch Hin)
      as (col & Hcol & Hnew).
    exists col. split; [|exact Hnew].
    rewrite <- Hcol. symmetry.
    apply (step_keeps_sources policy ch0 ch); try assumption.
    apply Hsub. right; exact Hin.
Qed.

Lemma normalized_names_of_the_features_differ :
  NoDup (map (fun ch => normalized_name (fst ch)) features_policy).
Proof.
  repeat (constructor;
          [intros H; simpl in H;
           repeat (destruct H as [H|H]; [discriminate H|]); exact H|]).
  constructor.
Qed.

(** X30.  The eight calls of [build_features] do not interfere: in the frame
    it returns every column of the input is what it was, and each
    normalised column is the one that a single call of [_normalize_col] on
    the input frame gives, with the policy of the list (so [hospital_beds]
    and [hci] are normalised with [mean]). *)
Theorem build_features_normalises_each_column_on_its_own :
  forall df df' : DataFrame,
    build_features sqrt df = Ok df' ->
    (forall other,
        ~ In other (map (fun ch => normalized_name (fst ch)) features_policy) ->
        getitem df' other = getitem df other) /\
    (forall c how, In (c, how) features_policy ->
       exists df1,
         _normalize_col sqrt df c how = Ok df1 /\
         getitem df' (normalized_name c) = getitem df1 (normalized_name c)).
Proof.
  intros df df' Hok. rewrite build_features_is_normalize_each in Hok. split.
  - intros other Hother. apply (normalize_each_keeps_others _ _ _ Hok).
    intros ch Hin Heq. apply Hother.
    apply in_map_iff. exists ch. split; [symmetry; exact Heq | exact Hin].
  - intros c how Hin.
    destruct (normalize_each_columns features_policy features_policy df df'
                eq_refl eq_refl (incl_refl _)
                normalized_names_of_the_features_differ Hok (c, how) Hin)
      as (col & Hcol & Hnew).
    cbn [fst snd] in *.
    pose proof (known_policies_In features_policy (c, how) eq_refl Hin) as Hknown.
    cbn [snd] in Hknown.
    exists (setitem df (normalized_name c) (normalized_column sqrt how col)).
    split; [apply normalize_returns; assumption|].
    rewrite Hnew, getitem_setitem. reflexivity.
Qed.

End NormalizeMore.

Lemma normalize_col_touches_one_column_witness :
  (forall other, other <> normalized_name "days_since_first_case" ->
                 getitem (df_sample ++
                          [ ("days_since_first_case_normalized",
                             [ Fin ((10 - 40) / (40 - 10)); Fin ((40 - 40) / (40 - 10));
                               NaN; Fin ((25 - 40) / (40 - 10)) ]) ]) other
                 = getitem df_sample other) /\
  (known_policy "upper" ->
   exists col col',
     getitem df_sample "days_since_first_case" = Ok col /\
     getitem (df_sample ++
              [ ("days_since_first_case_normalized",
                 [ Fin ((10 - 40) / (40 - 10)); Fin ((40 - 40) / (40 - 10));
                   NaN; Fin ((25 - 40) / (40 - 10)) ]) ])
             (normalized_name "days_since_first_case") = Ok col' /\
     length col' = length col /\
     map fst (df_sample ++
              [ ("days_since_first_case_normalized",
                 [ Fin ((10 - 40) / (40 - 10)); Fin ((40 - 40) / (40 - 10));
                   NaN; Fin ((25 - 40) / (40 - 10)) ]) ])
     = if existsb (String.eqb (normalized_name "days_since_first_case"))
                  (map fst df_sample)
       then map fst df_sample
       else map fst df_sample ++ [ normalized_name "days_since_first_case" ]).
Proof.
  apply (normalize_col_touches_one_column sqrt_sample df_sample _
           "days_since_first_case" "upper").
  reflexivity.
Defined.

Lemma normalize_col_is_idempotent_witness :
  _normalize_col sqrt_sample
    (df_sample ++ [ ("cpi_score_2019_normalized", [ NaN; NaN; NaN; NaN ]) ])
    "cpi_score_2019" "lower"
  = Ok (df_sample ++ [ ("cpi_score_2019_normalized", [ NaN; NaN; NaN; NaN ]) ]).
Proof.
  apply (normalize_col_is_idempotent sqrt_sample df_sample).
  reflexivity.
Defined.

Lemma lower_is_upper_plus_one_witness :
  exists dfu dfl colu coll,
    _normalize_col sqrt_floor df_sample "days_since_first_case" "upper" = Ok dfu /\
    _normalize_col sqrt_floor df_sample "days_since_first_case" "lower" = Ok dfl /\
    getitem dfu (normalized_name "days_since_first_case") = Ok colu /\
    getitem dfl (normalized_name "days_since_first_case") = Ok coll /\
    forall i x, nth_error [ Fin 10; Fin 40; NaN; Fin 25 ] i = Some (Fin x) ->
      exists u l, nth_error colu i = Some (Fin u) /\
                  nth_error coll i = Some (Fin l) /\ l == u + 1.
Proof.
  apply (lower_is_upper_plus_one sqrt_floor df_sample "days_since_first_case").
  - reflexivity.
  - exact numeric_days_sample.
  - reflexivity.
Defined.

Lemma range_policies_keep_the_order_witness :
  exists df' col',
    _normalize_col sqrt_floor df_sample "days_since_first_case" "upper" = Ok df' /\
    getitem df' (normalized_name "days_since_first_case") = Ok col' /\
    forall i j x y,
      nth_error [ Fin 10; Fin 40; NaN; Fin 25 ] i = Some (Fin x) ->
      nth_error [ Fin 10; Fin 40; NaN; Fin 25 ] j = Some (Fin y) ->
      exists a b, nth_error col' i = Some (Fin a) /\
                  nth_error col' j = Some (Fin b) /\
                  (x <= y -> a <= b) /\ (x < y -> a < b).
Proof.
  apply (range_policies_keep_the_order sqrt_floor df_sample
           "days_since_first_case" "upper").
  - reflexivity.
  - exact numeric_days_sample.
  - reflexivity.
  - left; reflexivity.
Defined.

Lemma range_policies_reach_the_far_end_witness :
  let col := [ Fin 10; Fin 40; NaN; Fin 25 ] in
  exists dfu dfl colu coll,
    _normalize_col sqrt_floor df_sample "days_since_first_case" "upper" = Ok dfu /\
    _normalize_col sqrt_floor df_sample "days_since_first_case" "lower" = Ok dfl /\
    getitem dfu (normalized_name "days_since_first_case") = Ok colu /\
    getitem dfl (normalized_name "days_since_first_case") = Ok coll /\
    In (series_min col) col /\ In (series_max col) col /\
    (forall i, nth_error col i = Some (series_min col) ->
               exists u, nth_error colu i = Some (Fin u) /\ u == -1) /\
    (forall i, nth_error col i = Some (series_max col) ->
               exists l, nth_error coll i = Some (Fin l) /\ l == 1).
Proof.
  apply (range_policies_reach_the_far_end sqrt_floor df_sample
           "days_since_first_case").
  - reflexivity.
  - exact numeric_days_sample.
  - reflexivity.
Defined.

Lemma mean_policy_needs_two_values_witness :
  exists df' col',
    _normalize_col sqrt_floor df_one_value "hospital_beds" "mean" = Ok df' /\
    getitem df' (normalized_name "hospital_beds") = Ok col' /\
    length col' = length [ NaN; Fin 3; NaN ] /\
    all_missing col'.
Proof.
  apply (mean_policy_needs_two_values sqrt_floor df_one_value "hospital_beds").
  - reflexivity.
  - simpl. lia.
Defined.

Lemma mean_policy_centres_the_column_witness :
  exists df' col' mu',
    _normalize_col sqrt_floor df_sample "days_since_first_case" "mean" = Ok df' /\
    getitem df' (normalized_name "days_since_first_case") = Ok col' /\
    series_mean col' = Fin mu' /\ mu' == 0.
Proof.
  eapply (mean_policy_centres_the_column sqrt_floor df_sample
            "days_since_first_case" [ Fin 10; Fin 40; NaN; Fin 25 ]).
  - reflexivity.
  - exact numeric_days_sample.
  - vm_compute. reflexivity.
  - intros H. vm_compute in H. discriminate H.
Defined.

(** The standard deviation of 10, 40 and 25 is 15, and the three values go to
    -1, 1 and 0. *)
Example normalize_mean_sample :
  exists df' col',
    _normalize_col sqrt_floor df_sample "days_since_first_case" "mean" = Ok df' /\
    getitem df' "days_since_first_case_normalized" = Ok col' /\
    series_std sqrt_floor [ Fin 10; Fin 40; NaN; Fin 25 ] = Fin 15 /\
    Forall2 (fun y z => match y, z with
                        | Fin a, Fin b => a == b
                        | NaN, NaN => True
                        | _, _ => False
                        end)
            col' [ Fin (-1); Fin 1; NaN; Fin 0 ].
Proof.
  eexists; eexists. split; [reflexivity|]. split; [reflexivity|].
  split; [reflexivity|]. repeat constructor.
Qed.

Lemma build_features_normalises_each_column_on_its_own_witness :
  exists df',
    build_features sqrt_floor df_all_features = Ok df' /\
    (forall other,
        ~ In other (map (fun ch => normalized_name (fst ch)) features_policy) ->
        getitem df' other = getitem df_all_features other) /\
    (forall c how, In (c, how) features_policy ->
       exists df1,
         _normalize_col sqrt_floor df_all_features c how = Ok df1 /\
         getitem df' (normalized_name c) = getitem df1 (normalized_name c)).
Proof.
  eexists. split; [reflexivity|].
  apply (build_features_normalises_each_column_on_its_own sqrt_floor df_all_features).
  reflexivity.
Defined.

Example build_features_without_a_column :
  build_features sqrt_floor df_sample = Raise KeyError.
Proof. reflexivity. Qed.

End BuildFeaturesCoverage.
